(** * Organizational-effectiveness report: score aggregation and unit grouping

    A shallow embedding of the report builder of [streamlit_app.py]:
    - [preprocess_answer_list] and [build_structured_open_ended]
      (free-text responses),
    - [group_data_by_unit] (partition of the respondent table by unit),
    - [build_report] with its local helpers [to_num],
      [is_objective_column] and [_grade] (item, sub-category and IPO
      category aggregation),
    - [build_multiple_reports] and [get_organization_name_from_reports]
      (one report per unit),
    - [validate_df], [_mask_token], [mask_text] and [mask_email] (input
      validation and preview),
    - [classify_team_potential_type] with the keyword counts of
      [analyze_team_potential_types], [_convert_error_to_natural_response]
      with [_generate_fallback_response], and the even split of
      [attach_score_distribution].

    Conventions of the embedding.
    - A Python [str] is the list of its code points ([pystr]); literals are
      written as UTF-8 text and decoded by [py].
    - A Python [float] is read as the rational number it denotes ([Q]);
      [round(x, n)] is rounding to [n] decimals, ties to even ([py_round]).
      The rounding of every operation to a binary64 number is an
      [Arithmetic] ([PyFloat]); [item_score_in], [process_subcategory_in]
      and [process_category_in] are the aggregators on floats, and
      [item_score], [process_subcategory] and [process_category] are the
      same aggregators without rounding of the operations.
    - A pandas table is a list of labelled rows over named columns; a cell
      is missing, a number or a text.
    - A Python [set] of strings is a [gset pystr]; a [dict] whose insertion
      order is observable is an association list.
    - Library functions whose tables are not part of the repository
      ([str.lower], [re.sub], [str()] of a number, [pandas.to_numeric] on
      text, case-insensitive [str.contains]) and the environment (clock,
      reference workbook, generative-model calls) are section variables. *)

From Stdlib Require Import ZArith NArith QArith Qround Qfield Qabs Qpower Lia Lqa Ascii String DecimalString.
From stdpp Require Import base decidable option list gmap fin_sets sorting.

Local Open Scope nat_scope.

(** ** Python text *)

Module PyStr.

(** A [str] is a sequence of Unicode code points. *)
Definition pystr : Type := list N.

(** UTF-8 decoding, used to write the string constants of the source. *)
Fixpoint utf8_decode (need : nat) (acc : N) (bs : list N) : pystr :=
  match bs with
  | [] => []
  | b :: r =>
      match need with
      | O =>
          if (b <? 128)%N then b :: utf8_decode 0 0%N r
          else if (b <? 224)%N then utf8_decode 1 (b - 192)%N r
          else if (b <? 240)%N then utf8_decode 2 (b - 224)%N r
          else utf8_decode 3 (b - 240)%N r
      | S O => (acc * 64 + (b - 128))%N :: utf8_decode 0 0%N r
      | S k => utf8_decode k (acc * 64 + (b - 128))%N r
      end
  end.

Definition py (s : string) : pystr :=
  utf8_decode 0 0%N (List.map N_of_ascii (list_ascii_of_string s)).

(** [str.isspace] on one code point (the Unicode white-space table of
    CPython); [strip], [split] and the regular-expression class [\s] all
    use it. *)
Definition isspace (c : N) : bool :=
  ((9 <=? c) && (c <=? 13) || (28 <=? c) && (c <=? 32)
   || (c =? 133) || (c =? 160) || (c =? 5760)
   || (8192 <=? c) && (c <=? 8202)
   || (c =? 8232) || (c =? 8233) || (c =? 8239) || (c =? 8287)
   || (c =? 12288))%N.

Fixpoint lstrip (s : pystr) : pystr :=
  match s with
  | [] => []
  | c :: r => if isspace c then lstrip r else s
  end.

Definition rstrip (s : pystr) : pystr := rev (lstrip (rev s)).

(** [s.strip()] *)
Definition strip (s : pystr) : pystr := rstrip (lstrip s).

(** [s.split()]: the maximal runs of non-space characters.  [cur] is the
    word being read, most recent character first. *)
Fixpoint split_from (cur : pystr) (s : pystr) : list pystr :=
  match s with
  | [] => match cur with [] => [] | _ => [rev cur] end
  | c :: r =>
      if isspace c
      then match cur with
           | [] => split_from [] r
           | _ => rev cur :: split_from [] r
           end
      else split_from (c :: cur) r
  end.

Definition split (s : pystr) : list pystr := split_from [] s.

(** [sep.join(words)] *)
Fixpoint join (sep : pystr) (words : list pystr) : pystr :=
  match words with
  | [] => []
  | [w] => w
  | w :: r => w ++ sep ++ join sep r
  end.

(** [re.sub(r"\s+", " ", s)]: every run of white space becomes one
    space.  [in_run] tells whether the previous character was a space. *)
Fixpoint collapse_spaces (in_run : bool) (s : pystr) : pystr :=
  match s with
  | [] => []
  | c :: r =>
      if isspace c
      then (if in_run then collapse_spaces true r
            else 32%N :: collapse_spaces true r)
      else c :: collapse_spaces false r
  end.

(** Lexicographic comparison by code point, the order of [str]. *)
Fixpoint compare (s t : pystr) : comparison :=
  match s, t with
  | [], [] => Eq
  | [], _ :: _ => Lt
  | _ :: _, [] => Gt
  | a :: s', b :: t' =>
      match (a ?= b)%N with
      | Eq => compare s' t'
      | c => c
      end
  end.

(** ASCII-only lower-casing: what [str.lower] does on ASCII text. *)
Definition ascii_lower (s : pystr) : pystr :=
  List.map (fun c => if ((65 <=? c) && (c <=? 90))%N then (c + 32)%N else c) s.

End PyStr.

Import PyStr.

(** ** Python numbers *)

Module PyNum.

Definition Qltb (x y : Q) : bool :=
  match (x ?= y)%Q with Lt => true | _ => false end.

(** [min(a, b)] and [max(a, b)] of Python: the first argument unless the
    second is strictly smaller (larger). *)
Definition py_min (a b : Q) : Q := if Qltb b a then b else a.
Definition py_max (a b : Q) : Q := if Qltb a b then b else a.

(** Nearest integer, ties to the even one. *)
Definition round_half_even (m : Q) : Z :=
  let f := Qfloor m in
  match (m - inject_Z f ?= 1 # 2)%Q with
  | Lt => f
  | Gt => (f + 1)%Z
  | Eq => if Z.even f then f else (f + 1)%Z
  end.

(** [round(x, n)] of the number [x]: the decimal with [n] places nearest to
    it, ties to even. *)
Definition py_round (x : Q) (n : nat) : Q :=
  let p := Z.to_pos (10 ^ Z.of_nat n) in
  Qmake (round_half_even (x * inject_Z (Z.pos p))) p.

(** [sum(l)], no addition rounded. *)
Definition py_sum (l : list Q) : Q := foldl Qplus 0%Q l.

(** [sum(l) / len(l)], also [Series.mean] on a column without gaps, no
    operation rounded. *)
Definition mean (l : list Q) : Q := (py_sum l / inject_Z (Z.of_nat (length l)))%Q.

End PyNum.

Import PyNum.

(** ** Python floats

    A [float] is a binary64 number, read as the rational number it
    denotes.  An operation on floats gives the float nearest to the exact
    result; [round(x, n)] gives the float nearest to the decimal with [n]
    places nearest to the value of [x] ([py_round] of that value).  An
    [Arithmetic] holds the rounding [fl] to the nearest float, and the two
    sums whose order of additions is the library's choice:
    [Series.mean()] of pandas and [sum()] of a list of floats.
    Infinities, NaN and the limits of the exponent are not modelled. *)

Module PyFloat.

Record Arithmetic : Type := mkArithmetic {
  fl : Q -> Q;                   (* the float nearest to a number *)
  series_mean : list Q -> Q;     (* [Series.mean()] *)
  float_sum : list Q -> Q        (* [sum(l)] *)
}.

(** [a + b], [a - b], [a * b] and [a / b] on floats. *)
Definition fadd (ar : Arithmetic) (a b : Q) : Q := fl ar (a + b).
Definition fsub (ar : Arithmetic) (a b : Q) : Q := fl ar (a - b).
Definition fmul (ar : Arithmetic) (a b : Q) : Q := fl ar (a * b).
Definition fdiv (ar : Arithmetic) (a b : Q) : Q := fl ar (a / b).

(** [round(x, n)] on a float. *)
Definition fround (ar : Arithmetic) (x : Q) (n : nat) : Q := fl ar (py_round x n).

(** Arithmetic without rounding: every number is its own float. *)
Definition exact_rational : Arithmetic := mkArithmetic (fun x => x) mean py_sum.

(** The exponent [b] with [2^b <= |x| < 2^(b+1)], for [x] other than 0. *)
Definition binade (x : Q) : Z :=
  let a := (Z.log2 (Z.abs (Qnum x)) - Z.log2 (Zpos (Qden x)))%Z in
  if Qle_bool (2 ^ a) (Qabs x) then a else (a - 1)%Z.

(** The binary64 number nearest to [x], ties to the even significand: [x]
    rounded to 53 significant bits. *)
Definition fl64 (x : Q) : Q :=
  if Qeq_bool x 0 then 0
  else
    let e := (binade x - 52)%Z in
    inject_Z (round_half_even (x / 2 ^ e)) * 2 ^ e.

(** The sum taken from left to right, every addition rounded, and the mean
    as that sum divided by the count.  (Where every partial sum is a
    float, as with whole numbers below [2^53], every order of the
    additions gives this sum.) *)
Definition sum64 (l : list Q) : Q := foldl (fun acc x => fl64 (acc + x)) 0%Q l.

Definition mean64 (l : list Q) : Q :=
  fl64 (sum64 l / inject_Z (Z.of_nat (length l))).

Definition binary64 : Arithmetic := mkArithmetic fl64 mean64 sum64.

(** Half the distance from 1 to the next binary64 number: [2^-53]. *)
Definition unit_roundoff : Q := 1 # 9007199254740992.

(** Rounding to a float changes a number by at most [2^-53] of its
    size. *)
Definition accurate (ar : Arithmetic) : Prop :=
  forall x, (Qabs (fl ar x - x) <= Qabs x * unit_roundoff)%Q.

End PyFloat.

Import PyFloat.

(** ** Tables *)

(** A cell of a pandas table: missing ([NaN]/[None]), a number or a text. *)
Inductive Cell : Type :=
| CNull
| CNum (q : Q)
| CStr (s : pystr).

(** A row with its index label; sub-tables keep the labels of the rows they
    select, so a row is identified by its label. *)
Record Row : Type := mkRow { row_label : nat; row_cells : list Cell }.

Record DataFrame : Type := mkDF { columns : list pystr; rows : list Row }.

(** [col in df.columns] *)
Definition has_column (df : DataFrame) (col : pystr) : bool :=
  bool_decide (col ∈ columns df).

Fixpoint index_of (col : pystr) (cols : list pystr) : option nat :=
  match cols with
  | [] => None
  | c :: r => if decide (c = col) then Some 0 else S <$> index_of col r
  end.

Definition cell_at (i : nat) (r : Row) : Cell := default CNull (row_cells r !! i).

(** [df[col]] as the list of its cells (empty when the column is absent;
    the source always tests [col in df.columns] first). *)
Definition column (df : DataFrame) (col : pystr) : list Cell :=
  match index_of col (columns df) with
  | Some i => cell_at i <$> rows df
  | None => []
  end.

Definition notna (c : Cell) : bool :=
  match c with CNull => false | _ => true end.

(** [Series.dropna()] *)
Definition dropna (cs : list Cell) : list Cell := List.filter notna cs.

(** [len(df)] *)
Definition len_df (df : DataFrame) : nat := length (rows df).

(** Equality of two cell values as pandas compares them. *)
Definition cell_eqb (a b : Cell) : bool :=
  match a, b with
  | CNum x, CNum y => Qeq_bool x y
  | CStr s, CStr t => bool_decide (s = t)
  | _, _ => false
  end.

(** The order pandas sorts group keys in: numbers by value, texts by code
    point, numbers before texts. *)
Definition cell_compare (a b : Cell) : comparison :=
  match a, b with
  | CNull, CNull => Eq
  | CNull, _ => Gt
  | _, CNull => Lt
  | CNum x, CNum y => (x ?= y)%Q
  | CNum _, CStr _ => Lt
  | CStr _, CNum _ => Gt
  | CStr s, CStr t => PyStr.compare s t
  end.

Definition cell_leb (a b : Cell) : bool :=
  match cell_compare a b with Gt => false | _ => true end.

(** One entry of the reference index ([index.xlsx]): the columns 헤더명,
    문항명, 대분류 and 소분류. *)
Record IndexEntry : Type := mkEntry {
  header_name : pystr;            (* 헤더명 *)
  question_name : pystr;          (* 문항명 *)
  major_category : pystr;         (* 대분류 *)
  minor_category : option pystr   (* 소분류, [None] when the cell is empty *)
}.

(** [Series.unique()]: the distinct values in first-seen order. *)
Fixpoint unique `{EqDecision A} (l : list A) : list A :=
  match l with
  | [] => []
  | x :: r => x :: List.filter (fun y => negb (bool_decide (y = x))) (unique r)
  end.

(** [needle in haystack] on strings. *)
Fixpoint is_prefix (p s : pystr) : bool :=
  match p, s with
  | [], _ => true
  | _ :: _, [] => false
  | a :: p', b :: s' => (a =? b)%N && is_prefix p' s'
  end.

Fixpoint str_in (needle haystack : pystr) : bool :=
  is_prefix needle haystack ||
  match haystack with
  | [] => false
  | _ :: r => str_in needle r
  end.

(** ** Exceptions

    What a call does when it does not return: the exceptions the functions
    modelled below can raise. *)
Inductive Exception : Type := ValueError | IndexError.

Inductive Outcome (A : Type) : Type :=
| Returns (a : A)
| Raises (e : Exception).

Arguments Returns {A} a.
Arguments Raises {A} e.

(** ** Concrete library functions

    Instances of the library functions for the worked examples.  Each
    agrees with the Python function on the inputs it is used on: ASCII
    text for [ascii_lower] and [ascii_upper], text without a match of the
    pattern for [re_sub_nomatch], plain decimal numerals for
    [parse_decimal]. *)

Module Instances.

Definition ascii_upper (s : pystr) : pystr :=
  List.map (fun c => if ((97 <=? c) && (c <=? 122))%N then (c - 32)%N else c) s.

(** [re.sub] on a text in which the pattern has no match. *)
Definition re_sub_nomatch (pattern repl text : pystr) : pystr := text.

Fixpoint digits_value (acc : Z) (s : pystr) : option Z :=
  match s with
  | [] => Some acc
  | c :: r =>
      if ((48 <=? c) && (c <=? 57))%N
      then digits_value (acc * 10 + Z.of_N (c - 48)) r
      else None
  end.

(** The text before the first dot, and the text after it if there is one. *)
Fixpoint split_dot (s : pystr) : pystr * option pystr :=
  match s with
  | [] => ([], None)
  | c :: r =>
      if (c =? 46)%N then ([], Some r)
      else let '(i, f) := split_dot r in (c :: i, f)
  end.

Definition unsigned_decimal (s : pystr) : option Q :=
  match split_dot s with
  | ([], _) => None
  | (int_part, None) => inject_Z <$> digits_value 0 int_part
  | (_, Some []) => None
  | (int_part, Some frac) =>
      i ← digits_value 0 int_part;
      f ← digits_value 0 frac;
      let p := Z.to_pos (10 ^ Z.of_nat (length frac)) in
      Some (Qmake (i * Z.pos p + f) p)
  end.

(** [pd.to_numeric] on the numerals [d+] and [d+.d+], with an optional
    minus sign; any other text is taken as unparseable. *)
Definition parse_decimal (s : pystr) : option Q :=
  match s with
  | 45%N :: r => Qopp <$> unsigned_decimal r
  | _ => unsigned_decimal s
  end.

(** [str(x)] of a whole number that is not negative. *)
Definition str_whole (q : Q) : pystr :=
  py (NilEmpty.string_of_uint (N.to_uint (Z.to_N (Qfloor q)))).

(** Case-insensitive search of a plain ASCII word. *)
Definition contains_nocase_ascii (pat s : pystr) : bool :=
  str_in (ascii_lower pat) (ascii_lower s).

End Instances.

(** ** The report builder *)

Section Pipeline.

(** *** Library functions and environment *)

Variable str_lower : pystr -> pystr.           (* [s.lower()] *)
Variable str_upper : pystr -> pystr.           (* [s.upper()] *)
Variable re_sub : pystr -> pystr -> pystr -> pystr.
                                               (* [re.sub(pattern, repl, text)] *)
Variable str_num : Q -> pystr.                 (* [str(x)] of a number *)
Variable to_numeric : pystr -> option Q.       (* [pd.to_numeric(text, errors="coerce")] *)
Variable str_contains_nocase : pystr -> pystr -> bool.
                                               (* [Series.str.contains(pat, case=False)] on one value *)
Variable AdvancedAnalysis : Type.              (* result of [generate_advanced_subjective_analysis] *)

(** [str(value)] of a cell: [astype(str)] on a column. *)
Definition py_str (c : Cell) : pystr :=
  match c with
  | CNull => py "nan"
  | CNum q => str_num q
  | CStr s => s
  end.

(** *** Free-text responses *)

Definition mask_sensitive_content (text : pystr) : pystr :=
  let text := re_sub (py "\b[A-Za-z0-9._%+-]+@[A-Za-z0-9.-]+\.[A-Z|a-z]{2,}\b") (py "[이메일]") text in
  let text := re_sub (py "\b\d{2,3}[-\s]?\d{3,4}[-\s]?\d{4}\b") (py "[전화번호]") text in
  let text := re_sub (py "\b\w+팀\b") (py "[팀명]") text in
  text.

(** [' '.join(cleaned.lower().split())] *)
Definition normalize (cleaned : pystr) : pystr :=
  join (py " ") (split (str_lower cleaned)).

(** One turn of the loop over [raw_answers]; the state is
    [(cleaned_answers, seen_answers)]. *)
Definition answer_step (global_used_sentences : gset pystr)
    (st : list pystr * gset pystr) (answer : pystr) : list pystr * gset pystr :=
  let '(cleaned_answers, seen_answers) := st in
  if bool_decide (answer = []) then st else
  let cleaned := strip answer in
  if length cleaned <? 10 then st else
  let normalized := normalize cleaned in
  if bool_decide (normalized ∈ seen_answers ∨ normalized ∈ global_used_sentences)
  then st
  else (cleaned_answers ++ [mask_sensitive_content cleaned],
        {[ normalized ]} ∪ seen_answers).

(** [sorted(l, key=len, reverse=True)]: stable, longest first. *)
Fixpoint insert_by_len (x : pystr) (l : list pystr) : list pystr :=
  match l with
  | [] => [x]
  | y :: r => if length x <? length y then y :: insert_by_len x r else x :: l
  end.

Definition sorted_by_len_desc (l : list pystr) : list pystr :=
  foldr insert_by_len [] l.

(** The shared set after the representative sentences are recorded. *)
Definition record_used (global_used_sentences : gset pystr)
    (answers : list pystr) : gset pystr :=
  foldl (fun g answer => {[ normalize answer ]} ∪ g) global_used_sentences answers.

(** [preprocess_answer_list(raw_answers, global_used_sentences)].  The set
    argument is mutated by the source; here the updated set is returned
    next to the answers.  (Called without a set, the source starts from
    an empty one and drops the update.) *)
Definition preprocess_answer_list (raw_answers : list pystr)
    (global_used_sentences : gset pystr) : list pystr * gset pystr :=
  match raw_answers with
  | [] => ([], global_used_sentences)
  | _ =>
      let cleaned_answers :=
        fst (foldl (answer_step global_used_sentences) ([], ∅) raw_answers) in
      let cleaned_answers :=
        if 20 <? length cleaned_answers
        then take 20 (sorted_by_len_desc cleaned_answers)
        else cleaned_answers in
      (cleaned_answers, record_used global_used_sentences (take 3 cleaned_answers))
  end.

(** One block of [basic_responses]. *)
Record Block : Type := mkBlock {
  blk_header : option pystr;
  blk_title : pystr;
  blk_category : option pystr;
  blk_answers : list pystr
}.

Record OpenEnded : Type := mkOpenEnded {
  basic_responses : list Block;
  advanced_analysis : option AdvancedAnalysis;
  comprehensive_analysis : option pystr
}.

Record Date : Type := mkDate { year : nat; month : nat; day : nat }.

(** What a run reads besides its two arguments: the clock, the reference
    workbook read by [build_structured_open_ended] ([None] when reading
    it raises) and the two analysis generators ([None] from the first
    when it raises). *)
Record Env : Type := mkEnv {
  now : Date;
  reference_index : option (list IndexEntry);
  generate_subjective_comprehensive_analysis :
    list Block -> option Cell -> option pystr;
  generate_advanced_subjective_analysis :
    list Block -> DataFrame -> AdvancedAnalysis
}.

(** [df[col].dropna().astype(str).tolist()] *)
Definition answers_of_column (df : DataFrame) (col : pystr) : list pystr :=
  py_str <$> dropna (column df col).

(** One turn of the loop over the free-text items; the state is
    [(structured_data, global_used_sentences)]. *)
Definition question_step (df : DataFrame) (mk : list pystr -> Block)
    (col : pystr) (st : list Block * gset pystr) : list Block * gset pystr :=
  let '(structured_data, global_used_sentences) := st in
  if has_column df col then
    match answers_of_column df col with
    | [] => st
    | raw_answers =>
        let '(processed_answers, used) :=
          preprocess_answer_list raw_answers global_used_sentences in
        (structured_data ++ [mk processed_answers], used)
    end
  else st.

Definition subjective_step (df : DataFrame)
    (st : list Block * gset pystr) (item : IndexEntry) : list Block * gset pystr :=
  question_step df
    (mkBlock (Some (header_name item)) (question_name item) (minor_category item))
    (header_name item) st.

Definition fallback_step (df : DataFrame)
    (st : list Block * gset pystr) (col : pystr) : list Block * gset pystr :=
  question_step df (mkBlock None col None) col st.

(** The AI summary of the blocks; [None] when the call raises, also when
    [.iloc[0]] has no row to read. *)
Definition comprehensive_of (env : Env) (df : DataFrame)
    (blocks : list Block) : option pystr :=
  match blocks with
  | [] => None
  | _ =>
      if has_column df (py "조직명") then
        match column df (py "조직명") with
        | [] => None
        | org_name :: _ =>
            generate_subjective_comprehensive_analysis env blocks (Some org_name)
        end
      else generate_subjective_comprehensive_analysis env blocks None
  end.

(** [build_structured_open_ended(df, is_company_level)] *)
Definition build_structured_open_ended (env : Env) (df : DataFrame)
    (is_company_level : bool) : OpenEnded :=
  match reference_index env with
  | Some ref_df =>
      let subjective_items :=
        List.filter (fun item => bool_decide (major_category item = py "주관식")) ref_df in
      let structured_data := fst (foldl (subjective_step df) ([], ∅) subjective_items) in
      mkOpenEnded structured_data
        (match structured_data with
         | [] => None
         | _ => if is_company_level
                then Some (generate_advanced_subjective_analysis env structured_data df)
                else None
         end)
        (comprehensive_of env df structured_data)
  | None =>
      let open_ended :=
        fst (foldl (fallback_step df) ([], ∅) [py "NO40"; py "NO41"; py "NO42"; py "NO43"]) in
      mkOpenEnded open_ended None (comprehensive_of env df open_ended)
  end.

(** *** Unit grouper *)

(** The messages shown with [st.error] by [group_data_by_unit]. *)
Inductive UiMessage : Type :=
| MissingGroupColumn (group_column : option pystr)
    (* 그룹핑 컬럼 '...'이 데이터에 없습니다. *)
| NoValidTeam.
    (* 유효한 팀 데이터가 없습니다. 전체 조직으로 진행합니다. *)

(** Insertion of a group key in the sorted list of the distinct keys. *)
Fixpoint insert_key (k : Cell) (keys : list Cell) : list Cell :=
  match keys with
  | [] => [k]
  | y :: r =>
      match cell_compare k y with
      | Lt => k :: keys
      | Eq => keys
      | Gt => y :: insert_key k r
      end
  end.

(** The keys of [df.groupby(col)]: the distinct values of the column,
    missing ones left out ([dropna=True]), sorted ([sort=True]). *)
Definition group_keys (df : DataFrame) (col : pystr) : list Cell :=
  foldl (fun keys k => insert_key k keys) [] (dropna (column df col)).

(** The cell of a row in the column [col]. *)
Definition cell_of (df : DataFrame) (col : pystr) (r : Row) : Cell :=
  match index_of col (columns df) with
  | Some i => cell_at i r
  | None => CNull
  end.

(** The sub-table of the rows whose key is [k], in their original order. *)
Definition group_of (df : DataFrame) (col : pystr) (k : Cell) : DataFrame :=
  mkDF (columns df) (List.filter (fun r => cell_eqb (cell_of df col r) k) (rows df)).

(** [df.groupby(col)] as the list of its [(key, sub-table)] pairs. *)
Definition groupby (df : DataFrame) (col : pystr) : list (Cell * DataFrame) :=
  (fun k => (k, group_of df col k)) <$> group_keys df col.

(** [d[key] = value] on an insertion-ordered [dict]. *)
Fixpoint dict_set {V : Type} (key : pystr) (value : V)
    (d : list (pystr * V)) : list (pystr * V) :=
  match d with
  | [] => [(key, value)]
  | (k, v) :: r =>
      if decide (k = key) then (k, value) :: r else (k, v) :: dict_set key value r
  end.

(** One turn of the loop over the groups. *)
Definition team_step (grouped_data : list (pystr * DataFrame))
    (g : Cell * DataFrame) : list (pystr * DataFrame) :=
  let '(team_name, team_df) := g in
  if len_df team_df <? 3 then grouped_data
  else dict_set (py_str team_name) team_df grouped_data.

Definition whole_organization (df : DataFrame) : list (pystr * DataFrame) :=
  [(py "전체 조직", df)].

(** [group_data_by_unit(df, group_type, group_column)]: the messages shown
    and the returned mapping. *)
Definition group_data_by_unit (df : DataFrame) (group_type : pystr)
    (group_column : option pystr) : list UiMessage * list (pystr * DataFrame) :=
  if decide (group_type = py "전체") then ([], whole_organization df)
  else if decide (group_type = py "팀별") then
    match group_column with
    | Some (c :: col') =>
        let col := c :: col' in
        if has_column df col then
          match foldl team_step [] (groupby df col) with
          | [] => ([NoValidTeam], whole_organization df)
          | grouped_data => ([], grouped_data)
          end
        else ([MissingGroupColumn group_column], whole_organization df)
    | _ => ([MissingGroupColumn group_column], whole_organization df)
    end
  else ([], whole_organization df).

(** *** Score normalizer *)

Definition LIKERT_MAP : list (pystr * Z) :=
  [ (py "매우 그렇지 않다", 1%Z); (py "전혀 그렇지 않다", 1%Z); (py "매우그렇지않다", 1%Z);
    (py "그렇지 않다", 2%Z); (py "그렇지않다", 2%Z);
    (py "보통이다", 3%Z); (py "보통", 3%Z);
    (py "그렇다", 4%Z);
    (py "매우 그렇다", 5%Z); (py "매우그렇다", 5%Z); (py "매우 그렇다.", 5%Z) ].

Fixpoint dict_get {V : Type} (key : pystr) (d : list (pystr * V)) : option V :=
  match d with
  | [] => None
  | (k, v) :: r => if decide (k = key) then Some v else dict_get key r
  end.

(** [to_num] on one cell: the text of the cell, stripped, replaced by its
    Likert value when it is a label, parsed as a number otherwise. *)
Definition to_num_cell (c : Cell) : option Q :=
  let s := strip (py_str c) in
  match dict_get s LIKERT_MAP with
  | Some n => Some (inject_Z n)
  | None => to_numeric s
  end.

Definition to_num (series : list Cell) : list (option Q) := to_num_cell <$> series.

(** [to_num(df[col]).dropna()] *)
Definition valid_values (df : DataFrame) (col : pystr) : list Q :=
  omap to_num_cell (column df col).

Definition in_scale (x : Q) : bool := Qle_bool 1 x && Qle_bool x 5.

Definition is_objective_column (df : DataFrame) (col : pystr) : bool :=
  if has_column df col then
    let s := valid_values df col in
    match s with
    | [] => false
    | _ =>
        let within := List.filter in_scale s in
        Qle_bool (8 # 10)
          (inject_Z (Z.of_nat (length within)) / inject_Z (Z.of_nat (length s)))
    end
  else false.

Definition _grade (score : option Q) : pystr :=
  match score with
  | None => py "N/A"
  | Some score =>
      if Qle_bool (38 # 10) score then py "우수"
      else if Qle_bool (34 # 10) score then py "양호"
      else if Qle_bool (30 # 10) score then py "보통"
      else py "개선 필요"
  end.

(** *** Item aggregator *)

(** One item of a sub-category.  A field that holds [None] or a number in
    the source is an [option]. *)
Record ItemScore : Type := mkItem {
  question : pystr;
  header : pystr;
  subcategory : pystr;
  average : option Q;
  benchmark : option Q;
  veryLow : Q; low : Q; medium : Q; high : Q; veryHigh : Q;   (* responses *)
  neg_pct : Q; mid_pct : Q; pos_pct : Q                       (* dist_agg *)
}.

(** [int((valid == v).sum())] *)
Definition count_eq (valid : list Q) (v : Z) : nat :=
  length (List.filter (fun x => Qeq_bool x (inject_Z v)) valid).

(** [round(cnt / total * 100, 1) if total > 0 else 0.0] *)
Definition dist_pct (valid : list Q) (v : Z) : Q :=
  let total := length valid in
  let cnt := count_eq valid v in
  if 0 <? total
  then py_round (inject_Z (Z.of_nat cnt) / inject_Z (Z.of_nat total) * 100) 1
  else 0.

(** [max(0.0, min(5.0, avg - 0.25))] *)
Definition benchmark_of (avg : Q) : Q :=
  py_max 0 (py_min 5 (avg - (25 # 100))).

(** The body of the loop over the rows of one sub-category: the item
    record, and the unrounded mean appended to [sub_scores] and
    [all_scores] when the item has one. *)
Definition item_score (df : DataFrame) (row : IndexEntry) : ItemScore * option Q :=
  let col_name := strip (header_name row) in
  let q_text := strip (question_name row) in
  let sub_cat := strip (match minor_category row with Some l => l | None => py "nan" end) in
  let empty_item := mkItem q_text col_name sub_cat None (Some 0%Q) 0 0 0 0 0 0 0 0 in
  if negb (bool_decide (col_name = [])) && has_column df col_name then
    let valid := valid_values df col_name in
    match valid with
    | [] => (empty_item, None)
    | _ =>
        let item_avg := mean valid in
        let bm := benchmark_of item_avg in
        let item_bm := py_round bm 2 in
        let d := dist_pct valid in
        (mkItem q_text col_name sub_cat (Some (py_round item_avg 2)) (Some item_bm)
           (d 1%Z) (d 2%Z) (d 3%Z) (d 4%Z) (d 5%Z)
           (py_round (d 1%Z + d 2%Z) 1) (py_round (d 3%Z) 1) (py_round (d 4%Z + d 5%Z) 1),
         Some item_avg)
    end
  else (empty_item, None).

(** *** Category aggregator *)

Record Subcategory : Type := mkSub {
  sub_name : pystr;
  sub_average : option Q;
  sub_items : list ItemScore;
  item_count : nat
}.

Record Category : Type := mkCat {
  title : pystr;
  cat_average : option Q;
  subcategories : list Subcategory;
  cat_items : list ItemScore
}.

(** [round(sum(scores) / len(scores), 2) if scores else None] *)
Definition rounded_mean (scores : list Q) : option Q :=
  match scores with
  | [] => None
  | _ => Some (py_round (mean scores) 2)
  end.

(** The body of the loop over the sub-category labels: the sub-category
    record and its [sub_scores]. *)
Definition process_subcategory (df : DataFrame) (qdf : list IndexEntry)
    (sub_category : pystr) : Subcategory * list Q :=
  let sub_qdf :=
    List.filter (fun row => bool_decide (minor_category row = Some sub_category)) qdf in
  let scored := item_score df <$> sub_qdf in
  let sub_items := fst <$> scored in
  let sub_scores := omap snd scored in
  (mkSub sub_category (rounded_mean sub_scores) sub_items (length sub_items), sub_scores).

(** 대분류_clean *)
Definition major_clean (row : IndexEntry) : pystr :=
  collapse_spaces false (strip (major_category row)).

(** The rows of the index whose category contains [big]. *)
Definition area_rows (idx : list IndexEntry) (big : pystr) : list IndexEntry :=
  List.filter (fun row => str_contains_nocase big (major_clean row)) idx.

(** The labels the loop over [qdf["소분류"].unique()] does not skip. *)
Definition sub_labels (qdf : list IndexEntry) : list pystr :=
  unique (omap minor_category qdf).

(** [all_scores] at the end of the loop over the sub-categories. *)
Definition all_scores (df : DataFrame) (qdf : list IndexEntry) : list Q :=
  concat (snd <$> (process_subcategory df qdf <$> sub_labels qdf)).

(** The body of the loop over ["Input"], ["Process"], ["Output"]; [None]
    when no row of the index belongs to the area. *)
Definition process_category (df : DataFrame) (idx : list IndexEntry)
    (big : pystr) : option Category :=
  match area_rows idx big with
  | [] => None
  | qdf =>
      let subs := fst <$> (process_subcategory df qdf <$> sub_labels qdf) in
      Some (mkCat big (rounded_mean (all_scores df qdf)) subs
              (concat (sub_items <$> subs)))
  end.

Definition IPO : list pystr := [py "Input"; py "Process"; py "Output"].

(** [ipo_avgs.get(big)] *)
Definition ipo_avg (df : DataFrame) (idx : list IndexEntry) (big : pystr) : option Q :=
  c ← process_category df idx big; cat_average c.

(** *** Item and category aggregators on floats

    The loop bodies of [build_report] with the operations on floats
    rounded as the arithmetic [ar] rounds them.  With [exact_rational]
    they are [item_score], [process_subcategory] and [process_category]
    above. *)

(** [round(cnt / total * 100, 1) if total > 0 else 0.0] *)
Definition dist_pct_in (ar : Arithmetic) (valid : list Q) (v : Z) : Q :=
  let total := length valid in
  let cnt := count_eq valid v in
  if 0 <? total
  then fround ar (fmul ar (fdiv ar (inject_Z (Z.of_nat cnt)) (inject_Z (Z.of_nat total))) 100) 1
  else 0.

(** The body of the loop over the rows of one sub-category. *)
Definition item_score_in (ar : Arithmetic) (df : DataFrame) (row : IndexEntry)
    : ItemScore * option Q :=
  let col_name := strip (header_name row) in
  let q_text := strip (question_name row) in
  let sub_cat := strip (match minor_category row with Some l => l | None => py "nan" end) in
  let empty_item := mkItem q_text col_name sub_cat None (Some 0%Q) 0 0 0 0 0 0 0 0 in
  if negb (bool_decide (col_name = [])) && has_column df col_name then
    let valid := valid_values df col_name in
    match valid with
    | [] => (empty_item, None)
    | _ =>
        let item_avg := series_mean ar valid in
        let bm := py_max 0 (py_min 5 (fsub ar item_avg (25 # 100))) in
        let item_bm := fround ar bm 2 in
        let d := dist_pct_in ar valid in
        (mkItem q_text col_name sub_cat (Some (fround ar item_avg 2)) (Some item_bm)
           (d 1%Z) (d 2%Z) (d 3%Z) (d 4%Z) (d 5%Z)
           (fround ar (fadd ar (d 1%Z) (d 2%Z)) 1) (fround ar (d 3%Z) 1)
           (fround ar (fadd ar (d 4%Z) (d 5%Z)) 1),
         Some item_avg)
    end
  else (empty_item, None).

(** [round(sum(scores) / len(scores), 2) if scores else None] *)
Definition rounded_mean_in (ar : Arithmetic) (scores : list Q) : option Q :=
  match scores with
  | [] => None
  | _ =>
      Some (fround ar (fdiv ar (float_sum ar scores) (inject_Z (Z.of_nat (length scores)))) 2)
  end.

(** The body of the loop over the sub-category labels. *)
Definition process_subcategory_in (ar : Arithmetic) (df : DataFrame)
    (qdf : list IndexEntry) (sub_category : pystr) : Subcategory * list Q :=
  let sub_qdf :=
    List.filter (fun row => bool_decide (minor_category row = Some sub_category)) qdf in
  let scored := item_score_in ar df <$> sub_qdf in
  let sub_items := fst <$> scored in
  let sub_scores := omap snd scored in
  (mkSub sub_category (rounded_mean_in ar sub_scores) sub_items (length sub_items), sub_scores).

(** [all_scores] at the end of the loop over the sub-categories. *)
Definition all_scores_in (ar : Arithmetic) (df : DataFrame) (qdf : list IndexEntry)
    : list Q :=
  concat (snd <$> (process_subcategory_in ar df qdf <$> sub_labels qdf)).

(** The body of the loop over ["Input"], ["Process"], ["Output"]. *)
Definition process_category_in (ar : Arithmetic) (df : DataFrame)
    (idx : list IndexEntry) (big : pystr) : option Category :=
  match area_rows idx big with
  | [] => None
  | qdf =>
      let subs := fst <$> (process_subcategory_in ar df qdf <$> sub_labels qdf) in
      Some (mkCat big (rounded_mean_in ar (all_scores_in ar df qdf)) subs
              (concat (sub_items <$> subs)))
  end.

(** *** Report assembler *)

Record IpoCard : Type := mkCard {
  card_id : pystr;
  card_title : pystr;
  card_score : option Q;
  card_grade : pystr
}.

Definition summary_ipo_cards (input_avg process_avg output_avg : option Q) : list IpoCard :=
  [ mkCard (py "input") (py "Input") input_avg (_grade input_avg);
    mkCard (py "process") (py "Process") process_avg (_grade process_avg);
    mkCard (py "output") (py "Output") output_avg (_grade output_avg) ].

(** The state of the loop that prepares the item chart: [line_labels],
    [our_scores], [benchmark_scores] and the three lists of
    [area_index_map]. *)
Record ChartState : Type := mkChart {
  line_labels : list pystr;
  our_scores : list Q;
  benchmark_scores : list Q;
  input_indices : list nat;
  process_indices : list nat;
  output_indices : list nat
}.

Definition chart_step (df : DataFrame) (st : ChartState) (row : IndexEntry) : ChartState :=
  let col_name := strip (header_name row) in
  let label := strip (question_name row) in
  if bool_decide (label = []) || bool_decide (col_name = []) || negb (has_column df col_name)
  then st
  else if negb (is_objective_column df col_name) then st
  else
    let num := valid_values df col_name in
    match num with
    | [] => st
    | _ =>
        let avg := mean num in
        let bm := benchmark_of avg in
        let current_index := length (line_labels st) in
        let appended :=
          mkChart (line_labels st ++ [label])
                  (our_scores st ++ [py_round avg 2])
                  (benchmark_scores st ++ [py_round bm 2]) in
        let big_area := str_lower (strip (major_clean row)) in
        if str_in (py "input") big_area then
          appended (input_indices st ++ [current_index]) (process_indices st) (output_indices st)
        else if str_in (py "process") big_area then
          appended (input_indices st) (process_indices st ++ [current_index]) (output_indices st)
        else if str_in (py "output") big_area then
          appended (input_indices st) (process_indices st) (output_indices st ++ [current_index])
        else
          appended (input_indices st) (process_indices st) (output_indices st)
    end.

Record Segment : Type := mkSegment { seg_name : pystr; seg_from : nat; seg_to : nat }.

Definition segment_of (area_name : pystr) (idx_list : list nat) : list Segment :=
  match idx_list with
  | [] => []
  | i :: r => [mkSegment area_name (foldl Nat.min i r) (foldl Nat.max i r)]
  end.

Record ScoreDistribution : Type := mkDistribution {
  labels : list pystr;
  benchmark_series : list Q;     (* 벤치마크 *)
  organization_series : list Q;  (* 우리 조직 *)
  segments : list Segment
}.

Definition summary_score_distribution (df : DataFrame) (idx : list IndexEntry)
    : ScoreDistribution :=
  let st := foldl (chart_step df) (mkChart [] [] [] [] [] []) idx in
  mkDistribution (line_labels st) (benchmark_scores st) (our_scores st)
    (segment_of (py "Input") (input_indices st)
     ++ segment_of (py "Process") (process_indices st)
     ++ segment_of (py "Output") (output_indices st)).

(** The first of the candidate columns that holds a value, as stripped
    text. *)
Fixpoint first_named (df : DataFrame) (cands : list pystr) : option pystr :=
  match cands with
  | [] => None
  | cand :: r =>
      if has_column df cand then
        match dropna (column df cand) with
        | [] => first_named df r
        | c :: _ => Some (strip (py_str c))
        end
      else first_named df r
  end.

(** [Series.unique()] on cells. *)
Fixpoint unique_cells (cs : list Cell) : list Cell :=
  match cs with
  | [] => []
  | c :: r => c :: List.filter (fun d => negb (cell_eqb d c)) (unique_cells r)
  end.

Definition team_keywords : list pystr :=
  [py "POS"; py "DEPT"; py "TEAM"; py "부서"; py "팀"].

Definition is_company_level (df : DataFrame) : bool :=
  let team_columns :=
    List.filter (fun col => existsb (fun keyword => str_in keyword (str_upper col)) team_keywords)
      (columns df) in
  let has_multiple_teams :=
    match team_columns with
    | [] => false
    | col :: _ => 1 <? length (unique_cells (dropna (column df col)))
    end in
  has_multiple_teams || (10 <=? len_df df).

Record Summary : Type := mkSummary {
  sum_respondents : nat;
  ipo_input : option Q;
  ipo_process : option Q;
  ipo_output : option Q;
  ipo_cards : list IpoCard;
  score_distribution : ScoreDistribution
}.

(** The report record; the fields holding fixed text (introductions,
    method, improvement priorities, overview, appendix) are constants of
    the source and are left out. *)
Record Report : Type := mkReport {
  org_name : pystr;
  organization_name : pystr;
  dept_name : option pystr;
  report_date : Date;
  respondents : nat;
  summary : Summary;
  diagnostic_categories : list Category;
  open_ended : OpenEnded
}.

Definition round2 (x : option Q) : option Q := (fun q => py_round q 2) <$> x.

(** [build_report(df, index_df)] *)
Definition build_report (env : Env) (df : DataFrame) (index_df : list IndexEntry) : Report :=
  let org_name :=
    default (py "업로드 데이터")
      (first_named df [py "조직명"; py "회사명"; py "Org"; py "Organization"]) in
  let dept_name := first_named df [py "부서명"; py "팀명"; py "Department"] in
  let respondents := len_df df in
  let categories := omap (process_category df index_df) IPO in
  let input_avg := ipo_avg df index_df (py "Input") in
  let process_avg := ipo_avg df index_df (py "Process") in
  let output_avg := ipo_avg df index_df (py "Output") in
  let open_ended := build_structured_open_ended env df (is_company_level df) in
  let summary :=
    mkSummary respondents (round2 input_avg) (round2 process_avg) (round2 output_avg)
      (summary_ipo_cards input_avg process_avg output_avg)
      (summary_score_distribution df index_df) in
  mkReport org_name org_name dept_name (now env) respondents summary categories open_ended.

(** *** Team potential types *)

Definition innovation_keywords : list pystr :=
  [py "혁신"; py "창의"; py "새로"; py "도전"; py "변화"; py "패기"; py "자율"; py "실험";
   py "아이디어"; py "발굴"].
Definition stability_keywords : list pystr :=
  [py "안정"; py "체계"; py "규칙"; py "절차"; py "관리"; py "전문성"; py "품질"; py "정확";
   py "표준"; py "프로세스"].
Definition collaboration_keywords : list pystr :=
  [py "협력"; py "팀워크"; py "소통"; py "협업"; py "함께"; py "동료"; py "배려"; py "포용";
   py "상호"; py "존중"].
Definition performance_keywords : list pystr :=
  [py "성과"; py "실적"; py "목표"; py "달성"; py "결과"; py "추진력"; py "효율"; py "운영";
   py "성장"; py "향상"].

(** [sum(1 for resp in team_responses for keyword in keywords if keyword in resp)] *)
Definition keyword_hits (keywords team_responses : list pystr) : Z :=
  Z.of_nat (length (List.filter (fun hit => str_in hit.2 hit.1)
                      (resp ← team_responses; (fun keyword => (resp, keyword)) <$> keywords))).

(** The [scores] of a team in [analyze_team_potential_types]. *)
Definition trait_scores (team_responses : list pystr) : list (pystr * Z) :=
  [ (py "혁신성", keyword_hits innovation_keywords team_responses);
    (py "안정성", keyword_hits stability_keywords team_responses);
    (py "협력성", keyword_hits collaboration_keywords team_responses);
    (py "성과지향", keyword_hits performance_keywords team_responses) ].

Definition trait_types : list (pystr * pystr) :=
  [ (py "혁신성", py "창조혁신형"); (py "안정성", py "체계안정형");
    (py "협력성", py "소통협력형"); (py "성과지향", py "목표달성형") ].

(** [classify_team_potential_type(scores)] *)
Definition classify_team_potential_type (scores : list (pystr * Z)) : Outcome pystr :=
  match scores.*2 with
  | [] => Raises ValueError                    (* [max()] of an empty sequence *)
  | v :: vs =>
      let max_score := foldl Z.max v vs in
      if (max_score =? 0)%Z then Returns (py "미분류형")
      else
        let dominant_traits :=
          (List.filter (fun item => (item.2 =? max_score)%Z) scores).*1 in
        if 1 <? length dominant_traits then Returns (py "복합형")
        else
          match dominant_traits with
          | trait :: _ => Returns (default (py "균형형") (dict_get trait trait_types))
          | [] => Raises IndexError            (* [dominant_traits[0]] *)
          end
  end.

(** *** Texts written by the AI

    [_generate_fallback_response(field_type)]: the replacement text of a
    field. *)
Definition fallback_responses : list (pystr * pystr) :=
  [ (py "score",
     py "조직의 전반적인 운영 수준이 안정적으로 유지되고 있으며, 구성원들의 업무 몰입도와 협업 체계가 양호한 상태로 나타났습니다. 지속적인 발전을 위해서는 소통과 협력 체계를 더욱 강화하는 것이 도움이 될 것으로 보입니다.");
    (py "items",
     py "현재 조직은 전반적으로 균형 잡힌 운영 상태를 보이고 있습니다. 향후 더 나은 성과를 위해서는 부서 간 협업 강화, 의사소통 체계 개선, 그리고 구성원 역량 개발에 지속적인 관심을 기울이는 것이 좋겠습니다.");
    (py "free_text",
     py "구성원들의 전반적인 조직 만족도는 양호한 수준이며, 업무 환경과 팀워크에 대해 긍정적으로 평가하고 있습니다. 지속적인 성장을 위해서는 개방적인 소통 문화와 상호 신뢰 기반의 협업 체계를 더욱 발전시켜 나가는 것이 중요할 것으로 보입니다.");
    (py "org_context",
     py "이 조직은 체계적인 업무 프로세스와 전문성을 바탕으로 운영되고 있으며, 구성원들 간의 협력과 소통을 통해 목표를 달성해 나가는 건강한 조직 문화를 보유하고 있습니다.");
    (py "writer",
     py "이번 진단에서 리더가 먼저 이해해야 할 관점은, 조직이 전반적으로 안정적인 운영 기반을 갖추고 있으면서도 지속적인 발전 가능성을 보여주고 있다는 점입니다. 구성원들의 높은 참여도와 협력 의지를 바탕으로, 소통 체계를 더욱 체계화하고 상호 신뢰를 강화한다면 더 큰 시너지를 창출할 수 있을 것입니다.") ].

Definition default_fallback_response : pystr :=
  py "조직의 현재 상태는 전반적으로 양호하며, 지속적인 개선을 통해 더 나은 성과를 달성할 수 있을 것으로 기대됩니다.".

Definition _generate_fallback_response (field_type : pystr) : pystr :=
  default default_fallback_response (dict_get field_type fallback_responses).

Definition error_patterns : list pystr :=
  [ py "이번 결과에서는 특이사항이 발견되지 않았습니다";
    py "초안 카드의 내용이 비어있어 기본 문구로 대체합니다";
    py "데이터가 부족합니다";
    py "정보가 불충분합니다" ].

(** [_convert_error_to_natural_response(text, field_type)] *)
Definition _convert_error_to_natural_response (text field_type : pystr) : pystr :=
  match text with
  | [] => text
  | _ =>
      if existsb (fun pattern => str_in pattern text) error_patterns
      then _generate_fallback_response field_type
      else text
  end.

(** *** Input validation and preview *)

Record Validation : Type := mkValidation {
  missing : list pystr;
  extra : list pystr;
  expected_count : nat;
  actual_count : nat
}.

(** [validate_df(df, index_df)]; [header_cells] is the column of the index
    that names the table's columns (헤더명, or the first column of the
    index when there is no 헤더명). *)
Definition validate_df (df : DataFrame) (header_cells : list Cell) : Validation :=
  let expected_cols := (fun c => strip (py_str c)) <$> dropna header_cells in
  let df_cols := strip <$> columns df in
  mkValidation
    (List.filter (fun c => negb (bool_decide (c ∈ df_cols))) expected_cols)
    (List.filter (fun c => negb (bool_decide (c ∈ expected_cols))) df_cols)
    (length expected_cols) (length df_cols).

(** [s * k] *)
Definition str_repeat (s : pystr) (k : nat) : pystr := concat (replicate k s).

Definition _mask_token (token : pystr) : pystr :=
  let token := strip token in
  match token with
  | [] => token
  | first :: _ =>
      if length token =? 1 then py "＊"
      else if length token =? 2 then [first] ++ py "＊"
      else [first] ++ str_repeat (py "＊") (length token - 2) ++ [List.last token first]
  end.

Definition mask_text (val : option pystr) : option pystr :=
  match val with
  | None => None
  | Some val =>
      let s := strip val in
      match s with
      | [] => Some s
      | _ => Some (join (py " ") (_mask_token <$> split s))
      end
  end.

(** [s.split(sep, 1)] and [s.split(sep)[0]] for a text that contains
    [sep]: the text before the first occurrence of [sep] and the text
    after it. *)
Fixpoint split_once (sep s : pystr) : pystr * pystr :=
  if is_prefix sep s then ([], drop (length sep) s)
  else match s with
       | [] => ([], [])
       | c :: r => let '(before, after) := split_once sep r in (c :: before, after)
       end.

Definition mask_email (val : option pystr) : Outcome (option pystr) :=
  match val with
  | None => Returns None
  | Some val =>
      let s := strip val in
      if negb (str_in (py "@") s) then Returns (Some s)
      else
        let '(local, domain) := split_once (py "@") s in
        match local with
        | [] => Raises IndexError              (* [local[0]] *)
        | first :: _ =>
            let local_masked :=
              if length local <=? 2 then [first] ++ py "****"
              else [first] ++ py "****" ++ [List.last local first] in
            Returns (Some (local_masked ++ py "@" ++ domain))
        end
  end.

(** *** Reports of several units *)

(** A report with the flag [build_multiple_reports] adds to it. *)
Record UnitReport : Type := mkUnitReport {
  unit_report : Report;
  is_total_organization : bool
}.

(** A text that is given and not empty. *)
Definition truthy (s : option pystr) : bool :=
  match s with Some (_ :: _) => true | _ => false end.

(** The report with [organization_name] and [dept_name] set. *)
Definition with_names (r : Report) (organization : pystr) (dept : option pystr) : Report :=
  mkReport (org_name r) organization dept (report_date r) (respondents r)
    (summary r) (diagnostic_categories r) (open_ended r).

(** Whether [build_report(group_df, index_df)] raises.  [build_report] is
    modelled on the tables on which it returns; on which tables it raises
    (one with a column name twice, for one) is left open. *)
Variable build_report_raises : DataFrame -> list IndexEntry -> bool.

(** The report of one group, as the body of the loop over the groups
    builds it when [build_report] returns.  [env_of] gives what the run
    of [build_report] for a group reads. *)
Definition group_report (env_of : pystr -> Env) (index_df : list IndexEntry)
    (detected_company_name : option pystr)
    (group_name : pystr) (group_df : DataFrame) : UnitReport :=
  let report := build_report (env_of group_name) group_df index_df in
  if negb (bool_decide (group_name = py "전체 조직")) then
    mkUnitReport
      (with_names report group_name
         (if truthy detected_company_name then detected_company_name
          else dept_name report))
      false
  else
    mkUnitReport
      (with_names report
         (if truthy detected_company_name then default [] detected_company_name
          else organization_name report)
         (dept_name report))
      true.

(** One turn of the loop over the groups: [reports[group_name] = report],
    or nothing when [build_report] raises ([except Exception: ... continue]). *)
Definition report_step (env_of : pystr -> Env) (index_df : list IndexEntry)
    (detected_company_name : option pystr)
    (reports : list (pystr * UnitReport)) (g : pystr * DataFrame)
    : list (pystr * UnitReport) :=
  let '(group_name, group_df) := g in
  if build_report_raises group_df index_df then reports
  else
    dict_set group_name
      (group_report env_of index_df detected_company_name group_name group_df) reports.

(** [build_multiple_reports(grouped_data, index_df, detected_company_name,
    detected_dept_name)] *)
Definition build_multiple_reports (env_of : pystr -> Env)
    (grouped_data : list (pystr * DataFrame)) (index_df : list IndexEntry)
    (detected_company_name detected_dept_name : option pystr)
    : list (pystr * UnitReport) :=
  foldl (report_step env_of index_df detected_company_name) [] grouped_data.

(** [get_organization_name_from_reports(reports)] *)
Definition get_organization_name_from_reports (reports : list (pystr * UnitReport))
    : pystr :=
  match reports with
  | [] => py "조직"
  | (_, first_report) :: _ =>
      let org_name := organization_name (unit_report first_report) in
      if str_in (py " - ") org_name then fst (split_once (py " - ") org_name)
      else org_name
  end.

(** *** Chart segments *)

(** The three segments [attach_score_distribution] gives a chart of [n]
    labels when there is no index to read the areas from: an even split. *)
Definition even_segments (n : nat) : list Segment :=
  if 0 <? n then
    let one := Nat.max (n / 3) 1 in
    [ mkSegment (py "Input") 0 (Nat.min (one - 1) (n - 1));
      mkSegment (py "Process") one (Nat.min (one * 2 - 1) (n - 1));
      mkSegment (py "Output") (one * 2) (n - 1) ]
  else [].

(** *** The specification's formulas

    The quantities the specification names, written as it words them, to
    compare with what the code computes. *)

(** [clamp(x, lo, hi)] *)
Definition clamp (x lo hi : Q) : Q :=
  if Qltb x lo then lo else if Qltb hi x then hi else x.

(** [round(count(value == v) / count(valid values) × 100, 1)] on floats:
    the quotient, then the product, then the rounding to one decimal. *)
Definition percentage_in (ar : Arithmetic) (valid : list Q) (v : Z) : Q :=
  fround ar
    (fmul ar (fdiv ar (inject_Z (Z.of_nat (count_eq valid v)))
                      (inject_Z (Z.of_nat (length valid)))) 100) 1.

(** The float that stands for [k] tenths. *)
Definition tenths (ar : Arithmetic) (k : Z) : Q := fl ar (k # 10).

(** A response on the five-point scale. *)
Definition on_scale (x : Q) : Prop :=
  (x == 1 \/ x == 2 \/ x == 3 \/ x == 4 \/ x == 5)%Q.

(** The sum of the five distribution percentages of an item. *)
Definition distribution_sum (it : ItemScore) : Q :=
  (veryLow it + low it + medium it + high it + veryHigh it)%Q.

(** The distribution is all zero. *)
Definition zero_distribution (it : ItemScore) : Prop :=
  veryLow it = 0%Q /\ low it = 0%Q /\ medium it = 0%Q /\ high it = 0%Q /\ veryHigh it = 0%Q.

(** The row of the index has a sub-category label. *)
Definition has_label (row : IndexEntry) : bool :=
  match minor_category row with Some _ => true | None => false end.

(** The rows of an area that carry a given label, and those that carry any
    label. *)
Definition rows_labelled (qdf : list IndexEntry) (l : pystr) : list IndexEntry :=
  List.filter (fun row => bool_decide (minor_category row = Some l)) qdf.

Definition labelled_rows (qdf : list IndexEntry) : list IndexEntry :=
  List.filter has_label qdf.

(** Whether the label of a row is one of [ls]. *)
Definition label_among (ls : list pystr) (row : IndexEntry) : bool :=
  match minor_category row with
  | Some l => bool_decide (l ∈ ls)
  | None => false
  end.

(** The unrounded means of the items of the given rows, the items without a
    valid response left out. *)
Definition item_means (df : DataFrame) (rws : list IndexEntry) : list Q :=
  omap (fun row => snd (item_score df row)) rws.

(** The unrounded means of the items of the given rows on floats, the
    items without a valid response left out. *)
Definition item_means_in (ar : Arithmetic) (df : DataFrame) (rws : list IndexEntry)
    : list Q :=
  omap (fun row => snd (item_score_in ar df row)) rws.

(** The trimmed responses that are long enough to be kept. *)
Definition candidates (raw_answers : list pystr) : list pystr :=
  List.filter (fun cleaned => 10 <=? length cleaned) (strip <$> raw_answers).

(** Deduplication as the specification words it: of the responses with the
    same lower-cased, white-space-collapsed form only the first is kept,
    and none whose form is already in [used]. *)
Fixpoint first_of_each (used : gset pystr) (cands : list pystr) : list pystr :=
  match cands with
  | [] => []
  | c :: r =>
      if bool_decide (normalize c ∈ used) then first_of_each used r
      else c :: first_of_each ({[ normalize c ]} ∪ used) r
  end.

(** The cap: when more than twenty remain, the twenty longest, longest
    first. *)
Definition longest_twenty (answers : list pystr) : list pystr :=
  if 20 <? length answers then take 20 (sorted_by_len_desc answers) else answers.

(** [b] is not longer than [a]. *)
Definition not_longer (a b : pystr) : Prop := length b <= length a.

(** The shared set holds exactly the normal forms of the first three
    answers of the blocks built so far. *)
Definition records_first_three (st : list Block * gset pystr) : Prop :=
  forall s, s ∈ st.2 <->
            exists b a, b ∈ st.1 /\ a ∈ take 3 (blk_answers b) /\ s = normalize a.

(** *** The unit grouper on a column of team names *)

(** The column holds team names only: every cell is a text or missing. *)
Definition text_cell (c : Cell) : Prop := c = CNull \/ exists s, c = CStr s.

Definition text_column (df : DataFrame) (col : pystr) : Prop :=
  Forall (fun r => text_cell (cell_of df col r)) (rows df).

(** The team names of a list of cells. *)
Definition text_labels (cells : list Cell) : list pystr :=
  omap (fun c => match c with CStr s => Some s | _ => None end) cells.

(** [s] comes before [t] in the order of strings. *)
Definition str_lt (s t : pystr) : Prop := PyStr.compare s t = Lt.

(** Sorted insertion of a name among distinct names. *)
Fixpoint insert_label (s : pystr) (ls : list pystr) : list pystr :=
  match ls with
  | [] => [s]
  | y :: r =>
      match PyStr.compare s y with
      | Lt => s :: ls
      | Eq => ls
      | Gt => y :: insert_label s r
      end
  end.

(** The distinct team names of the column, in ascending order. *)
Definition sorted_labels (df : DataFrame) (col : pystr) : list pystr :=
  foldl (fun ls s => insert_label s ls) [] (text_labels (column df col)).

(** The number of rows that share the team of [r] (none when [r] has no
    team). *)
Definition group_size (df : DataFrame) (col : pystr) (r : Row) : nat :=
  length (List.filter (fun r' => cell_eqb (cell_of df col r') (cell_of df col r)) (rows df)).

(** The row belongs to a team of at least three. *)
Definition in_retained_group (df : DataFrame) (col : pystr) (r : Row) : bool :=
  3 <=? group_size df col r.

(** The teams of at least three rows, in ascending order. *)
Definition retained_labels (df : DataFrame) (col : pystr) : list pystr :=
  List.filter (fun s => 3 <=? len_df (group_of df col (CStr s))) (sorted_labels df col).

(** *** Further properties: the formulas they use *)

(** The stripped text of the cell is one of the Likert labels. *)
Definition likert_label (c : Cell) : Prop :=
  is_Some (dict_get (strip (py_str c)) LIKERT_MAP).

(** A number between 1 and 5. *)
Definition within_scale (x : Q) : Prop := (1 <= x)%Q /\ (x <= 5)%Q.

(** A number between 0 and 100. *)
Definition is_percentage (x : Q) : Prop := (0 <= x)%Q /\ (x <= 100)%Q.

(** An optional score that, when there is one, is between 1 and 5. *)
Definition score_within_scale (a : option Q) : Prop :=
  forall x, a = Some x -> within_scale x.

(** The position of a grade from worst to best. *)
Definition grade_rank (g : pystr) : nat :=
  if decide (g = py "우수") then 3
  else if decide (g = py "양호") then 2
  else if decide (g = py "보통") then 1
  else 0.

(** The state of the chart loop is coherent: one score and one benchmark
    per label, and every recorded position is a position of the chart. *)
Definition chart_ok (st : ChartState) : Prop :=
  length (our_scores st) = length (line_labels st) /\
  length (benchmark_scores st) = length (line_labels st) /\
  Forall (fun i => i < length (line_labels st)) (input_indices st) /\
  Forall (fun i => i < length (line_labels st)) (process_indices st) /\
  Forall (fun i => i < length (line_labels st)) (output_indices st).

(** The column is in the table and holds at least one value. *)
Definition answered (df : DataFrame) (col : pystr) : bool :=
  has_column df col &&
  match answers_of_column df col with [] => false | _ => true end.

(** What identifies a block: its header, its title and its category. *)
Definition block_key (b : Block) : option pystr * pystr * option pystr :=
  (blk_header b, blk_title b, blk_category b).

Definition item_key (item : IndexEntry) : option pystr * pystr * option pystr :=
  (Some (header_name item), question_name item, minor_category item).

(** The free-text items of the reference index. *)
Definition subjective_items (ref_df : list IndexEntry) : list IndexEntry :=
  List.filter (fun item => bool_decide (major_category item = py "주관식")) ref_df.

(** [sub] is a selection of rows of [df]: the same columns, and rows of
    [df] in their order. *)
Definition sub_table (df sub : DataFrame) : Prop :=
  columns sub = columns df /\ rows sub `sublist_of` rows df.

(** The count [x] is above the three other counts. *)
Definition strictly_highest (x a b c : Z) : bool :=
  ((a <? x) && (b <? x) && (c <? x))%Z.

(** The potential type by rule, from the counts of the four traits: no hit
    at all, one trait above the others, or a tie at the top. *)
Definition team_type_by_rule (innovation stability collaboration performance : Z) : pystr :=
  if ((innovation =? 0) && (stability =? 0) && (collaboration =? 0) && (performance =? 0))%Z
  then py "미분류형"
  else if strictly_highest innovation stability collaboration performance
  then py "창조혁신형"
  else if strictly_highest stability innovation collaboration performance
  then py "체계안정형"
  else if strictly_highest collaboration innovation stability performance
  then py "소통협력형"
  else if strictly_highest performance innovation stability collaboration
  then py "목표달성형"
  else py "복합형".

(** *** Masked texts *)

(** The mask character "＊" (U+FF0A). *)
Definition star : N := 65290%N.

(** A word: a non-empty text without white space. *)
Definition is_word (w : pystr) : Prop :=
  w <> [] /\ Forall (fun c => isspace c = false) w.

(** The character at position [i] of the token is shown by its mask. *)
Definition shown (token : pystr) (i : nat) : Prop :=
  2 <= length token /\ (i = 0 \/ 3 <= length token /\ i = length token - 1).

(** *** Validation against the index *)

(** The index row that [build_report] reads where the header cell of the
    index is [c]: [str(row.get("헤더명", ""))], which is "nan" for a
    missing cell. *)
Definition reads_header (c : Cell) (row : IndexEntry) : Prop :=
  header_name row = py_str c.

(** [col_name and col_name in df.columns]: the lookup of [build_report]
    for an index row finds a column. *)
Definition column_found (df : DataFrame) (row : IndexEntry) : bool :=
  negb (bool_decide (strip (header_name row) = []))
  && has_column df (strip (header_name row)).

(** The header cell holds a value, and a name is left of it when it is
    stripped. *)
Definition names_a_column (c : Cell) (row : IndexEntry) : Prop :=
  c <> CNull /\ strip (header_name row) <> [].

(** No column name has white space around it. *)
Definition clean_columns (df : DataFrame) : Prop :=
  Forall (fun c => strip c = c) (columns df).

(** *** The summary and the categories *)

(** The average of the category with the given title, when the report has
    one and it has an average. *)
Definition average_of (cats : list Category) (big : pystr) : option Q :=
  c ← head (List.filter (fun c => bool_decide (title c = big)) cats); cat_average c.

(** A segment lies in a chart of [n] labels. *)
Definition segment_in_chart (n : nat) (s : Segment) : Prop :=
  seg_from s <= seg_to s /\ seg_to s < n.

(** *** Reports of several units *)

(** The groups on which [build_report] returns. *)
Definition reported (index_df : list IndexEntry) (grouped_data : list (pystr * DataFrame))
    : list (pystr * DataFrame) :=
  List.filter (fun g => negb (build_report_raises g.2 index_df)) grouped_data.

(** ** Properties *)

(** Drops the library functions a statement does not mention, so that a
    proof cannot depend on them. *)
Ltac only_used :=
  try clear str_lower; try clear str_upper; try clear re_sub; try clear str_num;
  try clear to_numeric; try clear str_contains_nocase; try clear AdvancedAnalysis.

(** *** Grades *)

Lemma Qle_bool_false (x y : Q) : (y < x)%Q -> Qle_bool x y = false.
Proof using Type.
  intros H. destruct (Qle_bool x y) eqn:E; [|reflexivity].
  apply Qle_bool_iff in E. exfalso. exact (Qlt_not_le _ _ H E).
Qed.

(** C1.  The grade of a category average: "N/A" when there is none, "우수"
    from 3.8, "양호" from 3.4 and below 3.8, "보통" from 3.0 and below 3.4,
    "개선 필요" below 3.0. *)
Theorem grade_thresholds (a : option Q) :
  (a = None -> _grade a = py "N/A") /\
  (forall q, a = Some q -> (38 # 10 <= q)%Q -> _grade a = py "우수") /\
  (forall q, a = Some q -> (34 # 10 <= q)%Q -> (q < 38 # 10)%Q -> _grade a = py "양호") /\
  (forall q, a = Some q -> (30 # 10 <= q)%Q -> (q < 34 # 10)%Q -> _grade a = py "보통") /\
  (forall q, a = Some q -> (q < 30 # 10)%Q -> _grade a = py "개선 필요").
Proof using Type.
  repeat split.
  - intros ->. reflexivity.
  - intros q -> H. unfold _grade. apply Qle_bool_iff in H. rewrite H. reflexivity.
  - intros q -> H1 H2. unfold _grade.
    rewrite (Qle_bool_false _ _ H2). apply Qle_bool_iff in H1. rewrite H1. reflexivity.
  - intros q -> H1 H2. unfold _grade.
    assert (H3 : (q < 38 # 10)%Q) by (eapply Qlt_trans; [exact H2|reflexivity]).
    rewrite (Qle_bool_false _ _ H3), (Qle_bool_false _ _ H2).
    apply Qle_bool_iff in H1. rewrite H1. reflexivity.
  - intros q -> H. unfold _grade.
    assert (H2 : (q < 34 # 10)%Q) by (eapply Qlt_trans; [exact H|reflexivity]).
    assert (H3 : (q < 38 # 10)%Q) by (eapply Qlt_trans; [exact H|reflexivity]).
    rewrite (Qle_bool_false _ _ H3), (Qle_bool_false _ _ H2), (Qle_bool_false _ _ H).
    reflexivity.
Qed.

(** *** Rounding *)

Lemma round_half_even_compat (m m' : Q) :
  (m == m')%Q -> round_half_even m = round_half_even m'.
Proof using Type.
  intros H. unfold round_half_even.
  rewrite (Qfloor_comp _ _ H).
  assert (E : (m - inject_Z (Qfloor m') ?= 1 # 2)%Q = (m' - inject_Z (Qfloor m') ?= 1 # 2)%Q).
  { apply Qcompare_comp; [rewrite H|]; reflexivity. }
  rewrite E. reflexivity.
Qed.

Lemma py_round_compat (x y : Q) (n : nat) :
  (x == y)%Q -> py_round x n = py_round y n.
Proof using Type.
  intros H. unfold py_round. f_equal.
  apply round_half_even_compat. rewrite H. reflexivity.
Qed.

(** The rounded integer is within one half of the number. *)
Lemma round_half_even_bounds (m : Q) :
  (inject_Z (round_half_even m) - (1 # 2) <= m)%Q /\
  (m <= inject_Z (round_half_even m) + (1 # 2))%Q.
Proof using Type.
  unfold round_half_even.
  pose proof (Qfloor_le m) as Hlo.
  pose proof (Qlt_floor m) as Hhi.
  rewrite inject_Z_plus in Hhi. change (inject_Z 1) with 1%Q in Hhi.
  destruct (m - inject_Z (Qfloor m) ?= 1 # 2)%Q eqn:E.
  - apply Qeq_alt in E.
    destruct (Z.even (Qfloor m)); [|rewrite inject_Z_plus; change (inject_Z 1) with 1%Q]; lra.
  - apply Qlt_alt in E. lra.
  - apply Qgt_alt in E. rewrite inject_Z_plus. change (inject_Z 1) with 1%Q. lra.
Qed.

(** *** Floats *)

Lemma pow2_pos (e : Z) : (0 < 2 ^ e)%Q.
Proof using Type. apply Qpower_0_lt. reflexivity. Qed.

Lemma pow2_plus (a b : Z) : (2 ^ (a + b) == 2 ^ a * 2 ^ b)%Q.
Proof using Type. apply Qpower_plus. discriminate. Qed.

(** The binade of a number is not above it. *)
Lemma binade_le (x : Q) : ~ (x == 0)%Q -> (2 ^ binade x <= Qabs x)%Q.
Proof using Type.
  intros Hx. unfold binade.
  set (n := Z.abs (Qnum x)). set (d := Zpos (Qden x)).
  destruct (Qle_bool (2 ^ (Z.log2 n - Z.log2 d)) (Qabs x)) eqn:E.
  - apply Qle_bool_iff, E.
  - clear E.
    assert (Hn : (0 < n)%Z).
    { unfold n. assert (Qnum x <> 0)%Z; [|lia].
      intros H0. apply Hx. unfold Qeq. simpl. rewrite H0. reflexivity. }
    assert (Hd : (0 < d)%Z) by (unfold d; lia).
    pose proof (Z.log2_spec n Hn) as [Hn1 _].
    pose proof (Z.log2_spec d Hd) as [_ Hd2].
    pose proof (Z.log2_nonneg n) as Hln. pose proof (Z.log2_nonneg d) as Hld.
    assert (Hn1' : (2 ^ Z.log2 n <= inject_Z n)%Q).
    { rewrite <- (Zpower_Qpower 2 (Z.log2 n) Hln). rewrite <- Zle_Qle. exact Hn1. }
    assert (Hd2' : (inject_Z d <= 2 ^ (Z.log2 d + 1))%Q).
    { rewrite <- (Zpower_Qpower 2 (Z.log2 d + 1)) by lia. rewrite <- Zle_Qle.
      rewrite <- Z.add_1_r in Hd2. lia. }
    assert (Habs : (Qabs x == inject_Z n / inject_Z d)%Q).
    { unfold n, d. destruct x as [a b]. simpl. apply Qmake_Qdiv. }
    rewrite Habs.
    apply Qle_shift_div_l; [unfold d; reflexivity|].
    apply Qle_trans with (2 ^ (Z.log2 n - Z.log2 d - 1) * 2 ^ (Z.log2 d + 1))%Q.
    + apply Qmult_le_l; [apply pow2_pos|exact Hd2'].
    + rewrite <- pow2_plus.
      replace (Z.log2 n - Z.log2 d - 1 + (Z.log2 d + 1))%Z with (Z.log2 n) by lia.
      exact Hn1'.
Qed.

(** A number lies below the end of its binade. *)
Lemma binade_lt (x : Q) : ~ (x == 0)%Q -> (Qabs x < 2 ^ (binade x + 1))%Q.
Proof using Type.
  intros Hx. unfold binade.
  set (n := Z.abs (Qnum x)). set (d := Zpos (Qden x)).
  destruct (Qle_bool (2 ^ (Z.log2 n - Z.log2 d)) (Qabs x)) eqn:E.
  - clear E.
    assert (Hn : (0 < n)%Z).
    { unfold n. assert (Qnum x <> 0)%Z; [|lia].
      intros H0. apply Hx. unfold Qeq. simpl. rewrite H0. reflexivity. }
    assert (Hd : (0 < d)%Z) by (unfold d; lia).
    pose proof (Z.log2_spec n Hn) as [_ Hn2].
    pose proof (Z.log2_spec d Hd) as [Hd1 _].
    pose proof (Z.log2_nonneg n) as Hln. pose proof (Z.log2_nonneg d) as Hld.
    assert (Hn2' : (inject_Z n < 2 ^ (Z.log2 n + 1))%Q).
    { rewrite <- (Zpower_Qpower 2 (Z.log2 n + 1)) by lia. rewrite <- Zlt_Qlt.
      rewrite <- Z.add_1_r in Hn2. exact Hn2. }
    assert (Hd1' : (2 ^ Z.log2 d <= inject_Z d)%Q).
    { rewrite <- (Zpower_Qpower 2 (Z.log2 d) Hld). rewrite <- Zle_Qle. exact Hd1. }
    assert (Habs : (Qabs x == inject_Z n / inject_Z d)%Q).
    { unfold n, d. destruct x as [a b]. simpl. apply Qmake_Qdiv. }
    rewrite Habs.
    apply Qlt_shift_div_r; [unfold d; reflexivity|].
    apply Qlt_le_trans with (2 ^ (Z.log2 n - Z.log2 d + 1) * 2 ^ Z.log2 d)%Q.
    + rewrite <- pow2_plus.
      replace (Z.log2 n - Z.log2 d + 1 + Z.log2 d)%Z with (Z.log2 n + 1)%Z by lia.
      exact Hn2'.
    + apply Qmult_le_l; [apply pow2_pos|exact Hd1'].
  - replace (Z.log2 n - Z.log2 d - 1 + 1)%Z with (Z.log2 n - Z.log2 d)%Z by lia.
    apply Qnot_le_lt. intros H. apply Qle_bool_iff in H. congruence.
Qed.

(** The float of a number is a significand of 53 bits on the binade of
    the number, within half a unit of the last bit of the number. *)
Lemma fl64_nearest (x : Q) :
  ~ (x == 0)%Q ->
  exists m : Z,
    fl64 x = (inject_Z m * 2 ^ (binade x - 52))%Q /\
    (2 ^ 52 <= Z.abs m <= 2 ^ 53)%Z /\
    (Qabs (fl64 x - x) <= 2 ^ (binade x - 53))%Q.
Proof using Type.
  intros Hx. unfold fl64.
  destruct (Qeq_bool x 0) eqn:E0; [destruct (Hx (proj1 (Qeq_bool_iff _ _) E0))|].
  cbv zeta.
  pose proof (binade_le x Hx) as Hb1. pose proof (binade_lt x Hx) as Hb2.
  set (b := binade x) in *.
  set (p := (2 ^ (b - 52))%Q).
  assert (Hp : (0 < p)%Q) by apply pow2_pos.
  exists (round_half_even (x / p)). split; [reflexivity|].
  pose proof (round_half_even_bounds (x / p)) as [H1 H2].
  assert (Ex : (x == x / p * p)%Q) by (field; lra).
  assert (Hpb : (2 ^ b == 4503599627370496 * p)%Q).
  { unfold p. replace b with (52 + (b - 52))%Z at 1 by lia. rewrite pow2_plus.
    reflexivity. }
  assert (Hpb1 : (2 ^ (b + 1) == 9007199254740992 * p)%Q).
  { unfold p. replace (b + 1)%Z with (53 + (b - 52))%Z by lia. rewrite pow2_plus.
    reflexivity. }
  assert (Hpb3 : (2 ^ (b - 53) == p * (1 # 2))%Q).
  { unfold p. replace (b - 53)%Z with ((b - 52) + -1)%Z by lia. rewrite pow2_plus.
    reflexivity. }
  assert (Hq : (4503599627370496 <= Qabs (x / p))%Q /\ (Qabs (x / p) < 9007199254740992)%Q).
  { assert (Eabs : (Qabs x == Qabs (x / p) * p)%Q).
    { rewrite Ex at 1. rewrite Qabs_Qmult, (Qabs_pos p) by lra. reflexivity. }
    rewrite Eabs, Hpb in Hb1. rewrite Eabs, Hpb1 in Hb2.
    split.
    - apply (Qmult_le_r _ _ p Hp). exact Hb1.
    - apply (Qmult_lt_r _ _ p Hp). exact Hb2. }
  set (m := round_half_even (x / p)) in *.
  set (q := (x / p)%Q) in *. clearbody q m.
  split.
  - destruct Hq as [Hq1 Hq2].
    assert (Hm : (Qabs (inject_Z m) < inject_Z 9007199254740993)%Q /\
                 (inject_Z 4503599627370495 < Qabs (inject_Z m))%Q).
    { change (inject_Z 9007199254740993) with 9007199254740993%Q.
      change (inject_Z 4503599627370495) with 4503599627370495%Q.
      revert Hq1 Hq2. apply Qabs_case; intros Hs Hq1 Hq2;
        apply Qabs_case; intros Hm; split; lra. }
    change (Qabs (inject_Z m)) with (inject_Z (Z.abs m)) in Hm. rewrite <- !Zlt_Qlt in Hm.
    change (2 ^ 52)%Z with 4503599627370496%Z.
    change (2 ^ 53)%Z with 9007199254740992%Z. lia.
  - rewrite Hpb3. apply Qabs_Qle_condition. split.
    + assert (H : (q * p <= (inject_Z m + (1 # 2)) * p)%Q)
        by (apply Qmult_le_compat_r; lra).
      rewrite Ex. lra.
    + assert (H : ((inject_Z m - (1 # 2)) * p <= q * p)%Q)
        by (apply Qmult_le_compat_r; lra).
      rewrite Ex. lra.
Qed.

(** Rounding to binary64 is accurate: the error is at most half a unit in
    the last of the 53 bits. *)
Lemma binary64_accurate : accurate binary64.
Proof using Type.
  intros x. change (fl binary64 x) with (fl64 x).
  destruct (Qeq_bool x 0) eqn:E0.
  - unfold fl64. rewrite E0. apply Qeq_bool_iff in E0. rewrite E0.
    vm_compute. discriminate.
  - apply Qeq_bool_neq in E0.
    destruct (fl64_nearest x E0) as (m & _ & _ & H).
    pose proof (binade_le x E0) as Hb.
    assert (E : (2 ^ (binade x - 53) == 2 ^ binade x * unit_roundoff)%Q).
    { replace (binade x - 53)%Z with (binade x + -53)%Z by lia.
      rewrite pow2_plus. reflexivity. }
    rewrite E in H. eapply Qle_trans; [exact H|].
    apply Qmult_le_compat_r; [exact Hb|]. vm_compute. discriminate.
Qed.

Lemma exact_rational_accurate : accurate exact_rational.
Proof using Type.
  intros x. unfold exact_rational. cbn [fl].
  assert (E : (x - x == 0)%Q) by ring. rewrite E.
  apply Qmult_le_0_compat; [apply Qabs_nonneg|]. vm_compute. discriminate.
Qed.

Lemma accurate_nonneg (ar : Arithmetic) (x : Q) :
  accurate ar -> (0 <= x)%Q ->
  (x * (1 - unit_roundoff) <= fl ar x)%Q /\ (fl ar x <= x * (1 + unit_roundoff))%Q.
Proof using Type.
  intros Har Hx. pose proof (Har x) as H.
  rewrite (Qabs_pos x Hx) in H. apply Qabs_Qle_condition in H.
  destruct H as [H1 H2]. split; lra.
Qed.

(** The rounded percentage of a share [y] of the responses is a whole
    number of tenths, within half a tenth, and the rounding errors of the
    quotient and of the product, of [1000 y]. *)
Lemma share_tenths (ar : Arithmetic) (y : Q) :
  accurate ar -> (0 <= y)%Q -> (y <= 1)%Q ->
  exists k : Z,
    fround ar (fmul ar (fl ar y) 100) 1 = tenths ar k /\
    (1000 * y - (501 # 1000) <= inject_Z k)%Q /\ (inject_Z k <= 1000 * y + (501 # 1000))%Q.
Proof using Type.
  intros Har H0 H1.
  exists (round_half_even (fmul ar (fl ar y) 100 * 10)). split; [reflexivity|].
  destruct (accurate_nonneg ar y Har H0) as [Ha1 Ha2].
  assert (Ha0 : (0 <= fl ar y)%Q).
  { eapply Qle_trans; [|exact Ha1]. unfold unit_roundoff.
    apply Qmult_le_0_compat; [exact H0|]. vm_compute. discriminate. }
  unfold fmul.
  assert (Hb0 : (0 <= fl ar y * 100)%Q) by lra.
  destruct (accurate_nonneg ar (fl ar y * 100) Har Hb0) as [Hb1 Hb2].
  destruct (round_half_even_bounds (fl ar (fl ar y * 100) * 10)) as [Hk1 Hk2].
  generalize dependent (inject_Z (round_half_even (fl ar (fl ar y * 100) * 10))).
  intros k Hk1 Hk2.
  generalize dependent (fl ar (fl ar y * 100)). intros b Hb1 Hb2 Hk1 Hk2.
  generalize dependent (fl ar y). intros a Ha1 Ha2 Ha0 Hb0 Hb1 Hb2.
  unfold unit_roundoff in *. split; lra.
Qed.

(** *** Item aggregator *)

Lemma has_column_false (df : DataFrame) (col : pystr) :
  col ∉ columns df -> has_column df col = false.
Proof using Type. intros H. unfold has_column. apply bool_decide_eq_false. exact H. Qed.

Lemma has_column_true (df : DataFrame) (col : pystr) :
  col ∈ columns df -> has_column df col = true.
Proof using Type. intros H. unfold has_column. apply bool_decide_eq_true. exact H. Qed.

(** C7 (as the code has it).  An item whose header is not a column of the
    table gets an item record, without any error: its mean is null, its
    benchmark is the number 0.0 (not null), its five percentages are zero,
    and it adds no score to its sub-category and category. *)
Theorem item_score_missing_column (df : DataFrame) (row : IndexEntry) :
  strip (header_name row) ∉ columns df ->
  average (fst (item_score df row)) = None /\
  benchmark (fst (item_score df row)) = Some 0%Q /\
  zero_distribution (fst (item_score df row)) /\
  snd (item_score df row) = None.
Proof using Type.
  intros H. unfold item_score.
  rewrite (has_column_false _ _ H), andb_false_r. simpl.
  unfold zero_distribution. simpl. repeat split.
Qed.

Lemma max_min_clamp (x : Q) :
  (py_max 0 (py_min 5 x) == clamp x 0 5)%Q.
Proof using Type.
  unfold clamp, py_max, py_min, Qltb.
  destruct (x ?= 5)%Q eqn:E5.
  - apply Qeq_alt in E5.
    assert (H0 : (0 ?= 5)%Q = Lt) by reflexivity. rewrite H0.
    assert (Hx : (x ?= 0)%Q = Gt) by (apply (proj1 (Qgt_alt _ _)); lra). rewrite Hx.
    assert (H5 : (5 ?= x)%Q = Eq) by (apply (proj1 (Qeq_alt _ _)); lra). rewrite H5. lra.
  - apply Qlt_alt in E5.
    assert (H5 : (5 ?= x)%Q = Gt) by (apply (proj1 (Qgt_alt _ _)); lra). rewrite H5.
    destruct (0 ?= x)%Q eqn:E0.
    + apply Qeq_alt in E0.
      assert (Hx : (x ?= 0)%Q = Eq) by (apply (proj1 (Qeq_alt _ _)); lra). rewrite Hx. lra.
    + apply Qlt_alt in E0.
      assert (Hx : (x ?= 0)%Q = Gt) by (apply (proj1 (Qgt_alt _ _)); lra). rewrite Hx. lra.
    + apply Qgt_alt in E0.
      assert (Hx : (x ?= 0)%Q = Lt) by (apply (proj1 (Qlt_alt _ _)); lra). rewrite Hx. lra.
  - apply Qgt_alt in E5.
    assert (H0 : (0 ?= 5)%Q = Lt) by reflexivity. rewrite H0.
    assert (Hx : (x ?= 0)%Q = Gt) by (apply (proj1 (Qgt_alt _ _)); lra). rewrite Hx.
    assert (H5 : (5 ?= x)%Q = Lt) by (apply (proj1 (Qlt_alt _ _)); lra). rewrite H5. lra.
Qed.

Lemma benchmark_of_clamp (avg : Q) :
  (benchmark_of avg == clamp (avg - (25 # 100)) 0 5)%Q.
Proof using Type. apply max_min_clamp. Qed.

Lemma count_eq_cons (x : Q) (r : list Q) (v : Z) :
  count_eq (x :: r) v = (if Qeq_bool x (inject_Z v) then 1 else 0) + count_eq r v.
Proof using Type. unfold count_eq. simpl. destruct (Qeq_bool x (inject_Z v)); reflexivity. Qed.

(** On the five-point scale every response is counted by exactly one of
    the five buckets. *)
Lemma count_eq_partition (valid : list Q) :
  Forall on_scale valid ->
  count_eq valid 1 + count_eq valid 2 + count_eq valid 3
  + count_eq valid 4 + count_eq valid 5 = length valid.
Proof using Type.
  induction 1 as [|x r Hx _ IH]; [reflexivity|].
  rewrite !count_eq_cons. simpl length. rewrite <- IH.
  assert (E : ((if Qeq_bool x (inject_Z 1) then 1 else 0)
              + (if Qeq_bool x (inject_Z 2) then 1 else 0)
              + (if Qeq_bool x (inject_Z 3) then 1 else 0)
              + (if Qeq_bool x (inject_Z 4) then 1 else 0)
              + (if Qeq_bool x (inject_Z 5) then 1 else 0) = 1)%nat).
  { change (inject_Z 1) with 1%Q. change (inject_Z 2) with 2%Q.
    change (inject_Z 3) with 3%Q. change (inject_Z 4) with 4%Q.
    change (inject_Z 5) with 5%Q.
    destruct (Qeq_bool x 1) eqn:E1; destruct (Qeq_bool x 2) eqn:E2;
      destruct (Qeq_bool x 3) eqn:E3; destruct (Qeq_bool x 4) eqn:E4;
      destruct (Qeq_bool x 5) eqn:E5;
      try reflexivity; exfalso;
      repeat match goal with
             | H : Qeq_bool _ _ = true |- _ => apply Qeq_bool_iff in H
             | H : Qeq_bool _ _ = false |- _ => apply Qeq_bool_neq in H
             end;
      unfold on_scale in Hx;
      repeat match goal with H : _ \/ _ |- _ => destruct H end;
      try lra; tauto. }
  lia.
Qed.

Lemma count_eq_le (valid : list Q) (v : Z) : count_eq valid v <= length valid.
Proof using Type.
  only_used.
  unfold count_eq. induction valid as [|x valid IH]; simpl; [lia|].
  destruct (Qeq_bool x (inject_Z v)); simpl; lia.
Qed.

Lemma dist_pct_in_percentage (ar : Arithmetic) (valid : list Q) (v : Z) :
  valid <> [] -> dist_pct_in ar valid v = percentage_in ar valid v.
Proof using Type.
  intros H. unfold dist_pct_in, percentage_in.
  destruct valid as [|x r]; [congruence|reflexivity].
Qed.

(** The share of the responses that have the value [v]. *)
Lemma share_bounds (valid : list Q) (v : Z) :
  valid <> [] ->
  let y := (inject_Z (Z.of_nat (count_eq valid v)) / inject_Z (Z.of_nat (length valid)))%Q in
  (0 <= y)%Q /\ (y <= 1)%Q.
Proof using Type.
  intros Hne y.
  assert (Hn : (0 < inject_Z (Z.of_nat (length valid)))%Q).
  { destruct valid; [congruence|]. unfold Qlt. simpl. lia. }
  pose proof (count_eq_le valid v) as Hle.
  split.
  - apply Qle_shift_div_l; [exact Hn|]. rewrite Qmult_0_l.
    change 0%Q with (inject_Z 0). rewrite <- Zle_Qle. lia.
  - apply Qle_shift_div_r; [exact Hn|]. rewrite Qmult_1_l.
    rewrite <- Zle_Qle. lia.
Qed.

(** On the five-point scale the five percentages are whole numbers of
    tenths that sum to 1000 within 2. *)
Lemma percentages_tenths_sum (ar : Arithmetic) (valid : list Q) :
  accurate ar -> valid <> [] -> Forall on_scale valid ->
  exists k1 k2 k3 k4 k5 : Z,
    percentage_in ar valid 1 = tenths ar k1 /\
    percentage_in ar valid 2 = tenths ar k2 /\
    percentage_in ar valid 3 = tenths ar k3 /\
    percentage_in ar valid 4 = tenths ar k4 /\
    percentage_in ar valid 5 = tenths ar k5 /\
    (998 <= k1 + k2 + k3 + k4 + k5 <= 1002)%Z.
Proof using Type.
  intros Har Hne Hscale.
  destruct (share_bounds valid 1 Hne) as [A1 B1].
  destruct (share_bounds valid 2 Hne) as [A2 B2].
  destruct (share_bounds valid 3 Hne) as [A3 B3].
  destruct (share_bounds valid 4 Hne) as [A4 B4].
  destruct (share_bounds valid 5 Hne) as [A5 B5].
  destruct (share_tenths ar _ Har A1 B1) as (k1 & E1 & L1 & U1).
  destruct (share_tenths ar _ Har A2 B2) as (k2 & E2 & L2 & U2).
  destruct (share_tenths ar _ Har A3 B3) as (k3 & E3 & L3 & U3).
  destruct (share_tenths ar _ Har A4 B4) as (k4 & E4 & L4 & U4).
  destruct (share_tenths ar _ Har A5 B5) as (k5 & E5 & L5 & U5).
  exists k1, k2, k3, k4, k5.
  do 5 (split; [assumption|]).
  pose proof (count_eq_partition valid Hscale) as Hsum.
  set (n := length valid) in *.
  assert (Hn : ~ (inject_Z (Z.of_nat n) == 0)%Q).
  { unfold n. destruct valid; [congruence|]. unfold Qeq. simpl. lia. }
  assert (Hone : (inject_Z (Z.of_nat (count_eq valid 1)) / inject_Z (Z.of_nat n)
                  + inject_Z (Z.of_nat (count_eq valid 2)) / inject_Z (Z.of_nat n)
                  + inject_Z (Z.of_nat (count_eq valid 3)) / inject_Z (Z.of_nat n)
                  + inject_Z (Z.of_nat (count_eq valid 4)) / inject_Z (Z.of_nat n)
                  + inject_Z (Z.of_nat (count_eq valid 5)) / inject_Z (Z.of_nat n) == 1)%Q).
  { assert (HN : (inject_Z (Z.of_nat n)
                  == inject_Z (Z.of_nat (count_eq valid 1)) + inject_Z (Z.of_nat (count_eq valid 2))
                     + inject_Z (Z.of_nat (count_eq valid 3)) + inject_Z (Z.of_nat (count_eq valid 4))
                     + inject_Z (Z.of_nat (count_eq valid 5)))%Q).
    { rewrite <- Hsum. rewrite !Nat2Z.inj_add, !inject_Z_plus. reflexivity. }
    field_simplify_eq; [|exact Hn]. rewrite HN. ring. }
  set (y1 := (inject_Z (Z.of_nat (count_eq valid 1)) / inject_Z (Z.of_nat n))%Q) in *.
  set (y2 := (inject_Z (Z.of_nat (count_eq valid 2)) / inject_Z (Z.of_nat n))%Q) in *.
  set (y3 := (inject_Z (Z.of_nat (count_eq valid 3)) / inject_Z (Z.of_nat n))%Q) in *.
  set (y4 := (inject_Z (Z.of_nat (count_eq valid 4)) / inject_Z (Z.of_nat n))%Q) in *.
  set (y5 := (inject_Z (Z.of_nat (count_eq valid 5)) / inject_Z (Z.of_nat n))%Q) in *.
  clearbody y1 y2 y3 y4 y5.
  assert (HT : (inject_Z (k1 + k2 + k3 + k4 + k5)
                == inject_Z k1 + inject_Z k2 + inject_Z k3 + inject_Z k4 + inject_Z k5)%Q).
  { rewrite !inject_Z_plus. reflexivity. }
  assert (Lo : (inject_Z 997 < inject_Z (k1 + k2 + k3 + k4 + k5))%Q).
  { rewrite HT. change (inject_Z 997) with 997%Q. lra. }
  assert (Hi : (inject_Z (k1 + k2 + k3 + k4 + k5) < inject_Z 1003)%Q).
  { rewrite HT. change (inject_Z 1003) with 1003%Q. lra. }
  rewrite <- Zlt_Qlt in Lo, Hi. lia.
Qed.

(** The item record of a column with a valid response, field by field. *)
Lemma item_score_in_unfold (ar : Arithmetic) (df : DataFrame) (row : IndexEntry)
    (valid : list Q) :
  strip (header_name row) <> [] ->
  strip (header_name row) ∈ columns df ->
  valid_values df (strip (header_name row)) = valid ->
  valid <> [] ->
  item_score_in ar df row =
    (mkItem (strip (question_name row)) (strip (header_name row))
       (strip (match minor_category row with Some l => l | None => py "nan" end))
       (Some (fround ar (series_mean ar valid) 2))
       (Some (fround ar (py_max 0 (py_min 5 (fsub ar (series_mean ar valid) (25 # 100)))) 2))
       (dist_pct_in ar valid 1) (dist_pct_in ar valid 2) (dist_pct_in ar valid 3)
       (dist_pct_in ar valid 4) (dist_pct_in ar valid 5)
       (fround ar (fadd ar (dist_pct_in ar valid 1) (dist_pct_in ar valid 2)) 1)
       (fround ar (dist_pct_in ar valid 3) 1)
       (fround ar (fadd ar (dist_pct_in ar valid 4) (dist_pct_in ar valid 5)) 1),
     Some (series_mean ar valid)).
Proof using Type.
  intros Hname Hcol Hv Hne. unfold item_score_in.
  rewrite (has_column_true _ _ Hcol), (bool_decide_eq_false_2 _ Hname). simpl.
  rewrite Hv. destruct valid; [congruence|reflexivity].
Qed.

(** Without rounding of the operations the aggregators on floats are the
    aggregators on the rationals. *)
Lemma item_score_in_exact (df : DataFrame) (row : IndexEntry) :
  item_score_in exact_rational df row = item_score df row.
Proof using Type. reflexivity. Qed.

Lemma process_category_in_exact (df : DataFrame) (idx : list IndexEntry) (big : pystr) :
  process_category_in exact_rational df idx big = process_category df idx big.
Proof using Type. reflexivity. Qed.

(** C2 (as the code has it).  An item whose column has a valid response,
    in floating point.  With m the mean of the valid responses, not
    rounded: the item holds round(m, 2) as its mean and
    round(clamp(m - 0.25, 0, 5), 2) as its benchmark; the percentage of
    each value v of 1..5 is round(count(v) / count(valid) × 100, 1), the
    quotient and the product rounded to floats before the rounding to one
    decimal; and when the rounding to floats is accurate and every valid
    response lies on the five-point scale, the five percentages are the
    floats of whole numbers of tenths that sum to 1000 within 2. *)
Theorem item_score_valid_column (ar : Arithmetic) (df : DataFrame) (row : IndexEntry) :
  strip (header_name row) <> [] ->
  strip (header_name row) ∈ columns df ->
  valid_values df (strip (header_name row)) <> [] ->
  let valid := valid_values df (strip (header_name row)) in
  let it := fst (item_score_in ar df row) in
  let m := series_mean ar valid in
  snd (item_score_in ar df row) = Some m /\
  average it = Some (fround ar m 2) /\
  benchmark it = Some (fround ar (clamp (fsub ar m (25 # 100)) 0 5) 2) /\
  veryLow it = percentage_in ar valid 1 /\
  low it = percentage_in ar valid 2 /\
  medium it = percentage_in ar valid 3 /\
  high it = percentage_in ar valid 4 /\
  veryHigh it = percentage_in ar valid 5 /\
  (accurate ar -> Forall on_scale valid ->
   exists k1 k2 k3 k4 k5 : Z,
     veryLow it = tenths ar k1 /\ low it = tenths ar k2 /\ medium it = tenths ar k3 /\
     high it = tenths ar k4 /\ veryHigh it = tenths ar k5 /\
     (998 <= k1 + k2 + k3 + k4 + k5 <= 1002)%Z).
Proof using Type.
  intros Hname Hcol Hvalid. cbv zeta.
  rewrite (item_score_in_unfold ar df row _ Hname Hcol eq_refl Hvalid).
  generalize dependent (valid_values df (strip (header_name row))).
  intros valid Hvalid. cbn [fst snd average benchmark veryLow low medium high veryHigh].
  rewrite !(dist_pct_in_percentage ar valid _ Hvalid).
  do 2 (split; [reflexivity|]).
  split; [|do 5 (split; [reflexivity|])].
  - unfold fround. do 2 f_equal. apply py_round_compat, max_min_clamp.
  - intros Har Hscale. apply (percentages_tenths_sum ar valid Har Hvalid Hscale).
Qed.

(** *** Category aggregator *)

Lemma unique_elem_of `{EqDecision A} (l : list A) (x : A) :
  x ∈ unique l <-> x ∈ l.
Proof using Type.
  induction l as [|a l IH]; simpl; [reflexivity|].
  rewrite !elem_of_cons, <- IH, list_elem_of_In, filter_In, <- list_elem_of_In.
  destruct (decide (x = a)) as [->|Hne].
  - tauto.
  - rewrite negb_true_iff, bool_decide_eq_false. tauto.
Qed.

Lemma NoDup_List_filter {A} (p : A -> bool) (l : list A) :
  NoDup l -> NoDup (List.filter p l).
Proof using Type.
  induction 1 as [|a l Hin Hnd IH]; simpl; [constructor|].
  destruct (p a); [|exact IH].
  constructor; [|exact IH].
  rewrite list_elem_of_In, filter_In, <- list_elem_of_In. tauto.
Qed.

Lemma unique_NoDup `{EqDecision A} (l : list A) : NoDup (unique l).
Proof using Type.
  induction l as [|a l IH]; simpl; constructor.
  - rewrite list_elem_of_In, filter_In, negb_true_iff, bool_decide_eq_false. tauto.
  - apply NoDup_List_filter, IH.
Qed.

(** Splitting a selection along two exclusive tests. *)
Lemma filter_orb_Permutation {A} (p q : A -> bool) (l : list A) :
  (forall x, p x = true -> q x = true -> False) ->
  List.filter (fun x => p x || q x) l ≡ₚ List.filter p l ++ List.filter q l.
Proof using Type.
  intros Hpq. induction l as [|a l IH]; simpl; [reflexivity|].
  destruct (p a) eqn:Ep, (q a) eqn:Eq; simpl.
  - destruct (Hpq a Ep Eq).
  - rewrite IH. reflexivity.
  - rewrite IH. apply Permutation_middle.
  - exact IH.
Qed.

Lemma List_filter_ext_in {A} (p q : A -> bool) (l : list A) :
  (forall x, x ∈ l -> p x = q x) -> List.filter p l = List.filter q l.
Proof using Type.
  intros H. induction l as [|a l IH]; simpl; [reflexivity|].
  rewrite (H a) by (left). rewrite IH; [reflexivity|].
  intros x Hx. apply H. right. exact Hx.
Qed.

(** Going through the rows label by label visits exactly the rows whose
    label is among the labels, each once. *)
Lemma rows_by_label_Permutation (qdf : list IndexEntry) (ls : list pystr) :
  NoDup ls ->
  concat (rows_labelled qdf <$> ls) ≡ₚ List.filter (label_among ls) qdf.
Proof using Type.
  only_used.
  induction 1 as [|l ls Hin Hnd IH]; simpl.
  - induction qdf as [|row qdf IHq]; simpl; [reflexivity|].
    unfold label_among at 1. destruct (minor_category row); [|exact IHq].
    rewrite bool_decide_eq_false_2 by (apply not_elem_of_nil). exact IHq.
  - rewrite IH. unfold rows_labelled.
    rewrite <- filter_orb_Permutation.
    + rewrite (List_filter_ext_in _ (label_among (l :: ls))); [reflexivity|].
      intros row _. unfold label_among.
      destruct (minor_category row) as [l'|]; simpl.
      * destruct (decide (l' = l)) as [->|Hne].
        -- rewrite (bool_decide_eq_true_2 (Some l = Some l)) by reflexivity.
           rewrite (bool_decide_eq_true_2 (l ∈ l :: ls)) by left. reflexivity.
        -- rewrite (bool_decide_eq_false_2 (Some l' = Some l)) by congruence.
           simpl. apply bool_decide_ext. rewrite elem_of_cons. tauto.
      * reflexivity.
    + intros row H1 H2. apply bool_decide_eq_true in H1.
      unfold label_among in H2. rewrite H1 in H2.
      apply bool_decide_eq_true in H2. contradiction.
Qed.

Lemma rows_by_sub_labels (qdf : list IndexEntry) :
  concat (rows_labelled qdf <$> sub_labels qdf) ≡ₚ labelled_rows qdf.
Proof using Type.
  unfold sub_labels. rewrite rows_by_label_Permutation by apply unique_NoDup.
  unfold labelled_rows.
  rewrite (List_filter_ext_in _ has_label); [reflexivity|].
  intros row Hrow. unfold label_among, has_label.
  destruct (minor_category row) as [l|] eqn:E; [|reflexivity].
  apply bool_decide_eq_true. apply unique_elem_of.
  apply list_elem_of_omap. exists row. split; assumption.
Qed.

Lemma foldl_Qplus (a : Q) (l : list Q) :
  (foldl Qplus a l == a + foldr Qplus 0 l)%Q.
Proof using Type.
  revert a. induction l as [|x l IH]; intros a; simpl.
  - ring.
  - rewrite IH. ring.
Qed.

Lemma omap_concat {A B} (f : A -> option B) (ls : list (list A)) :
  omap f (concat ls) = concat ((fun l : list A => omap f l) <$> ls).
Proof using Type.
  induction ls as [|l ls IH]; simpl; [reflexivity|].
  rewrite omap_app, IH. reflexivity.
Qed.

Lemma fmap_concat {A B} (f : A -> B) (ls : list (list A)) :
  f <$> concat ls = concat ((fun l : list A => f <$> l) <$> ls).
Proof using Type.
  induction ls as [|l ls IH]; simpl; [reflexivity|].
  rewrite fmap_app, IH. reflexivity.
Qed.

Lemma omap_snd_fmap {A B C} (f : A -> B * option C) (l : list A) :
  omap snd (f <$> l) = omap (fun x => snd (f x)) l.
Proof using Type.
  induction l as [|x l IH]; csimpl; [reflexivity|].
  rewrite IH. reflexivity.
Qed.

(** What one turn of the loop over the labels produces. *)
Lemma process_subcategory_unfold (df : DataFrame) (qdf : list IndexEntry) (l : pystr) :
  process_subcategory df qdf l =
    (mkSub l (rounded_mean (item_means df (rows_labelled qdf l)))
       ((fun row => fst (item_score df row)) <$> rows_labelled qdf l)
       (length (rows_labelled qdf l)),
     item_means df (rows_labelled qdf l)).
Proof using Type.
  unfold process_subcategory, item_means, rows_labelled.
  rewrite omap_snd_fmap, <- list_fmap_compose, !length_fmap. reflexivity.
Qed.

Lemma all_scores_Permutation (df : DataFrame) (qdf : list IndexEntry) :
  all_scores df qdf ≡ₚ item_means df (labelled_rows qdf).
Proof using Type.
  transitivity (item_means df (concat (rows_labelled qdf <$> sub_labels qdf))).
  - assert (E : all_scores df qdf
                = item_means df (concat (rows_labelled qdf <$> sub_labels qdf))).
    { unfold all_scores. unfold item_means at 1.
      rewrite omap_concat, <- !list_fmap_compose. f_equal.
      apply list_fmap_ext. intros i l _. unfold compose.
      rewrite process_subcategory_unfold. reflexivity. }
    rewrite E. reflexivity.
  - unfold item_means. apply omap_Permutation, rows_by_sub_labels.
Qed.

Lemma cat_items_Permutation (df : DataFrame) (qdf : list IndexEntry) :
  concat (sub_items <$> (fst <$> (process_subcategory df qdf <$> sub_labels qdf)))
  ≡ₚ (fun row => fst (item_score df row)) <$> labelled_rows qdf.
Proof using Type.
  transitivity ((fun row => fst (item_score df row))
                  <$> concat (rows_labelled qdf <$> sub_labels qdf)).
  - assert (E : concat (sub_items <$> (fst <$> (process_subcategory df qdf <$> sub_labels qdf)))
                = (fun row => fst (item_score df row))
                    <$> concat (rows_labelled qdf <$> sub_labels qdf)).
    { rewrite fmap_concat, <- !list_fmap_compose. f_equal.
      apply list_fmap_ext. intros i l _. unfold compose.
      rewrite process_subcategory_unfold. reflexivity. }
    rewrite E. reflexivity.
  - apply fmap_Permutation, rows_by_sub_labels.
Qed.

(** What one turn of the loop over the labels produces, on floats. *)
Lemma process_subcategory_in_unfold (ar : Arithmetic) (df : DataFrame)
    (qdf : list IndexEntry) (l : pystr) :
  process_subcategory_in ar df qdf l =
    (mkSub l (rounded_mean_in ar (item_means_in ar df (rows_labelled qdf l)))
       ((fun row => fst (item_score_in ar df row)) <$> rows_labelled qdf l)
       (length (rows_labelled qdf l)),
     item_means_in ar df (rows_labelled qdf l)).
Proof using Type.
  unfold process_subcategory_in, item_means_in, rows_labelled.
  rewrite omap_snd_fmap, <- list_fmap_compose, !length_fmap. reflexivity.
Qed.

(** C3 (as the code has it).  In a category that has rows in the index,
    in floating point.  The sub-categories are the labels of the rows in
    the order they first occur, and the rows visited label by label are
    exactly the rows that carry a label, each once.  The category average
    is round(sum / count, 2) of the item means of the visited rows, in the
    order they are visited (null when there is none); the flattened items
    are the items of the visited rows; every sub-category holds the items
    of the rows carrying its label, and their rounded mean.  A row without
    a label is in none of them. *)
Theorem category_average_labelled_rows (ar : Arithmetic) (df : DataFrame)
    (idx : list IndexEntry) (big : pystr) (c : Category) :
  process_category_in ar df idx big = Some c ->
  let qdf := area_rows idx big in
  let visited := concat (rows_labelled qdf <$> sub_labels qdf) in
  sub_name <$> subcategories c = sub_labels qdf /\
  visited ≡ₚ labelled_rows qdf /\
  cat_average c = rounded_mean_in ar (item_means_in ar df visited) /\
  cat_items c = (fun row => fst (item_score_in ar df row)) <$> visited /\
  Forall (fun sub =>
            sub_items sub
            = (fun row => fst (item_score_in ar df row)) <$> rows_labelled qdf (sub_name sub)
            /\ sub_average sub
               = rounded_mean_in ar (item_means_in ar df (rows_labelled qdf (sub_name sub))))
         (subcategories c).
Proof using Type.
  unfold process_category_in. intros H. cbv zeta.
  assert (Hc : c = mkCat big (rounded_mean_in ar (all_scores_in ar df (area_rows idx big)))
                  (fst <$> (process_subcategory_in ar df (area_rows idx big)
                              <$> sub_labels (area_rows idx big)))
                  (concat (sub_items <$> (fst <$> (process_subcategory_in ar df (area_rows idx big)
                              <$> sub_labels (area_rows idx big)))))).
  { destruct (area_rows idx big); [discriminate H|]. congruence. }
  subst c. cbn [cat_average cat_items subcategories].
  split; [|split; [|split; [|split]]].
  - rewrite <- !list_fmap_compose. rewrite <- (list_fmap_id (sub_labels (area_rows idx big))) at 2.
    apply list_fmap_ext. intros i l _. unfold compose.
    rewrite process_subcategory_in_unfold. reflexivity.
  - apply rows_by_sub_labels.
  - f_equal. unfold all_scores_in. unfold item_means_in at 1.
    rewrite omap_concat, <- !list_fmap_compose. f_equal.
    apply list_fmap_ext. intros i l _. unfold compose.
    rewrite process_subcategory_in_unfold. reflexivity.
  - rewrite fmap_concat, <- !list_fmap_compose. f_equal.
    apply list_fmap_ext. intros i l _. unfold compose.
    rewrite process_subcategory_in_unfold. reflexivity.
  - apply Forall_fmap, Forall_fmap, Forall_forall. intros l _. unfold compose.
    rewrite process_subcategory_in_unfold. simpl. split; reflexivity.
Qed.

(** *** Free-text responses *)

(** The loop over the raw answers keeps, masked, the first response of
    each normal form. *)
Lemma answer_loop (G : gset pystr) (raw : list pystr) :
  forall (acc : list pystr) (seen : gset pystr),
    fst (foldl (answer_step G) (acc, seen) raw)
    = acc ++ (mask_sensitive_content <$> first_of_each (seen ∪ G) (candidates raw)).
Proof using Type.
  induction raw as [|x raw IH]; intros acc seen.
  - simpl. rewrite app_nil_r. reflexivity.
  - change (foldl (answer_step G) (acc, seen) (x :: raw))
      with (foldl (answer_step G) (answer_step G (acc, seen) x) raw).
    change (candidates (x :: raw))
      with (if 10 <=? length (strip x) then strip x :: candidates raw else candidates raw).
    unfold answer_step at 2.
    destruct (bool_decide (x = [])) eqn:Ex.
    + apply bool_decide_eq_true in Ex. subst x. simpl. apply IH.
    + rewrite Nat.leb_antisym.
      destruct (length (strip x) <? 10) eqn:El; simpl.
      * apply IH.
      * rewrite (bool_decide_ext (normalize (strip x) ∈ seen ∨ normalize (strip x) ∈ G)
                   (normalize (strip x) ∈ seen ∪ G)) by (rewrite elem_of_union; reflexivity).
        destruct (bool_decide (normalize (strip x) ∈ seen ∪ G)).
        -- apply IH.
        -- rewrite IH, <- app_assoc, (assoc_L (∪)). reflexivity.
Qed.

Lemma first_of_each_sublist (cands : list pystr) :
  forall used, first_of_each used cands `sublist_of` cands.
Proof using Type.
  induction cands as [|c r IH]; intros used; simpl; [constructor|].
  destruct (bool_decide (normalize c ∈ used)).
  - apply sublist_cons, IH.
  - apply sublist_skip, IH.
Qed.

Lemma first_of_each_fresh (cands : list pystr) :
  forall used c, c ∈ first_of_each used cands -> normalize c ∉ used.
Proof using Type.
  only_used.
  induction cands as [|c' r IH]; intros used c; simpl.
  - intros H. apply elem_of_nil in H. destruct H.
  - destruct (bool_decide (normalize c' ∈ used)) eqn:E.
    + apply IH.
    + apply bool_decide_eq_false in E.
      rewrite elem_of_cons. intros [->|H]; [exact E|].
      apply IH in H. set_solver.
Qed.

Lemma first_of_each_NoDup (cands : list pystr) :
  forall used, NoDup (normalize <$> first_of_each used cands).
Proof using Type.
  only_used.
  induction cands as [|c r IH]; intros used; simpl; [constructor|].
  destruct (bool_decide (normalize c ∈ used)); [apply IH|].
  rewrite fmap_cons. constructor; [|apply IH].
  rewrite list_elem_of_fmap. intros (c' & Hc' & Hin).
  apply first_of_each_fresh in Hin. set_solver.
Qed.

Lemma first_of_each_first (pre : list pystr) :
  forall used c post,
    normalize c ∉ used -> normalize c ∉ normalize <$> pre ->
    c ∈ first_of_each used (pre ++ c :: post).
Proof using Type.
  only_used.
  induction pre as [|p pre IH]; intros used c post Hused Hpre; simpl.
  - rewrite bool_decide_eq_false_2 by exact Hused. left.
  - rewrite fmap_cons, not_elem_of_cons in Hpre. destruct Hpre as [Hne Hpre].
    destruct (bool_decide (normalize p ∈ used)).
    + apply IH; assumption.
    + right. apply IH; [|assumption].
      rewrite not_elem_of_union, not_elem_of_singleton. split; assumption.
Qed.

(** [sorted(..., key=len, reverse=True)] rearranges its argument, longest
    first. *)
Lemma insert_by_len_Permutation (x : pystr) (l : list pystr) :
  insert_by_len x l ≡ₚ x :: l.
Proof using Type.
  only_used.
  induction l as [|y l IH]; simpl; [reflexivity|].
  destruct (length x <? length y); [|reflexivity].
  rewrite IH. apply Permutation_swap.
Qed.

Lemma sorted_by_len_desc_Permutation (l : list pystr) :
  sorted_by_len_desc l ≡ₚ l.
Proof using Type.
  only_used.
  induction l as [|x l IH]; simpl; [reflexivity|].
  rewrite insert_by_len_Permutation, IH. reflexivity.
Qed.

Lemma insert_by_len_sorted (x : pystr) (l : list pystr) :
  StronglySorted not_longer l -> StronglySorted not_longer (insert_by_len x l).
Proof using Type.
  only_used.
  induction 1 as [|y l Hs IH Hy]; simpl.
  - repeat constructor.
  - destruct (length x <? length y) eqn:E.
    + apply Nat.ltb_lt in E. constructor; [exact IH|].
      rewrite Forall_forall. intros z Hz.
      rewrite insert_by_len_Permutation, elem_of_cons in Hz.
      destruct Hz as [->|Hz]; [unfold not_longer; lia|].
      rewrite Forall_forall in Hy. apply Hy, Hz.
    + apply Nat.ltb_ge in E. constructor; [constructor; assumption|].
      constructor; [exact E|].
      rewrite Forall_forall in Hy |- *. intros z Hz. specialize (Hy z Hz).
      unfold not_longer in *. lia.
Qed.

Lemma sorted_by_len_desc_sorted (l : list pystr) :
  StronglySorted not_longer (sorted_by_len_desc l).
Proof using Type.
  only_used.
  induction l as [|x l IH]; simpl; [constructor|].
  apply insert_by_len_sorted, IH.
Qed.

Lemma preprocess_answer_list_fst (raw : list pystr) (G : gset pystr) :
  fst (preprocess_answer_list raw G)
  = longest_twenty (mask_sensitive_content <$> first_of_each G (candidates raw)).
Proof using Type.
  destruct raw as [|x raw]; [reflexivity|].
  unfold preprocess_answer_list. cbv zeta. cbn [fst].
  rewrite answer_loop, app_nil_l, (left_id_L ∅ (∪)). reflexivity.
Qed.

Lemma longest_twenty_length (l : list pystr) : length (longest_twenty l) <= 20.
Proof using Type.
  only_used.
  unfold longest_twenty. destruct (20 <? length l) eqn:E.
  - rewrite length_take. lia.
  - apply Nat.ltb_ge in E. exact E.
Qed.

Lemma longest_twenty_sorted (l : list pystr) :
  20 < length l ->
  length (longest_twenty l) = 20 /\
  StronglySorted not_longer (longest_twenty l) /\
  exists rest, l ≡ₚ longest_twenty l ++ rest /\
               forall a b, a ∈ longest_twenty l -> b ∈ rest -> not_longer a b.
Proof using Type.
  only_used.
  intros H. unfold longest_twenty.
  assert (Hlen : length (take 20 (sorted_by_len_desc l)) = 20).
  { rewrite length_take, (Permutation_length (sorted_by_len_desc_Permutation l)). lia. }
  apply Nat.ltb_lt in H. rewrite H.
  pose proof (sorted_by_len_desc_sorted l) as Hs.
  rewrite <- (take_drop 20 (sorted_by_len_desc l)) in Hs.
  split; [exact Hlen|].
  split; [exact (StronglySorted_app_1_l _ _ _ Hs)|].
  exists (drop 20 (sorted_by_len_desc l)). split.
  - rewrite take_drop. symmetry. apply sorted_by_len_desc_Permutation.
  - intros a b Ha Hb. exact (StronglySorted_app_1_elem_of _ _ _ _ _ Hs Ha Hb).
Qed.

(** C9 (as the code has it).  The responses retained for a question are
    the trimmed responses of at least 10 characters, the first of each
    lower-cased, white-space-collapsed form and none whose form is in the
    shared set, with sensitive content masked; at most 20 are retained.
    Up to 20 they stay in the order of the input; beyond 20 exactly 20 are
    retained, the longest ones (none of the others is longer than any of
    them), longest first.  For the input "ok", a long response and
    the same response with a trailing space, exactly one is retained. *)
Theorem preprocess_answer_list_retained (raw : list pystr) (G : gset pystr) :
  let kept := first_of_each G (candidates raw) in
  let result := fst (preprocess_answer_list raw G) in
  let long := py "this is a sufficiently long response about culture" in
  kept `sublist_of` candidates raw /\
  NoDup (normalize <$> kept) /\
  (forall c, c ∈ kept -> normalize c ∉ G) /\
  (forall pre c post,
     candidates raw = pre ++ c :: post ->
     normalize c ∉ G -> normalize c ∉ normalize <$> pre -> c ∈ kept) /\
  length result <= 20 /\
  (length kept <= 20 -> result = mask_sensitive_content <$> kept) /\
  (20 < length kept ->
   length result = 20 /\
   StronglySorted not_longer result /\
   exists rest, mask_sensitive_content <$> kept ≡ₚ result ++ rest /\
                forall a b, a ∈ result -> b ∈ rest -> not_longer a b) /\
  fst (preprocess_answer_list [py "ok"; long; long ++ py " "] ∅)
  = [mask_sensitive_content long].
Proof using Type.
  only_used.
  cbv zeta. rewrite !preprocess_answer_list_fst.
  split; [apply first_of_each_sublist|].
  split; [apply first_of_each_NoDup|].
  split; [intros c; apply first_of_each_fresh|].
  split; [intros pre c post ->; apply first_of_each_first|].
  split; [apply longest_twenty_length|].
  split; [|split].
  - intros H. unfold longest_twenty. rewrite length_fmap.
    apply Nat.ltb_ge in H. rewrite H. reflexivity.
  - intros H. apply longest_twenty_sorted. rewrite length_fmap. exact H.
  - change (candidates [py "ok";
              py "this is a sufficiently long response about culture";
              py "this is a sufficiently long response about culture" ++ py " "])
      with [py "this is a sufficiently long response about culture";
            py "this is a sufficiently long response about culture"].
    set (long := py "this is a sufficiently long response about culture").
    clearbody long. cbn [first_of_each].
    rewrite (bool_decide_eq_false_2 (normalize long ∈ ∅)) by set_solver.
    rewrite (bool_decide_eq_true_2 (normalize long ∈ {[normalize long]} ∪ ∅)) by set_solver.
    reflexivity.
Qed.

Lemma record_used_elem_of (answers : list pystr) :
  forall (G : gset pystr) (s : pystr),
    s ∈ record_used G answers <-> s ∈ G \/ exists a, a ∈ answers /\ s = normalize a.
Proof using Type.
  only_used.
  unfold record_used. induction answers as [|a answers IH]; intros G s; simpl.
  - split; [intros H; left; exact H|].
    intros [H|(a & Ha & _)]; [exact H|]. apply elem_of_nil in Ha. destruct Ha.
  - rewrite IH, elem_of_union, elem_of_singleton. split.
    + intros [[->|H]|(a' & Ha' & ->)].
      * right. exists a. split; [left|reflexivity].
      * left. exact H.
      * right. exists a'. split; [right; exact Ha'|reflexivity].
    + intros [H|(a' & Ha' & ->)].
      * left. right. exact H.
      * apply elem_of_cons in Ha'. destruct Ha' as [->|Ha'].
        -- left. left. reflexivity.
        -- right. exists a'. split; [exact Ha'|reflexivity].
Qed.

Lemma preprocess_answer_list_snd (raw : list pystr) (G : gset pystr) :
  snd (preprocess_answer_list raw G)
  = record_used G (take 3 (fst (preprocess_answer_list raw G))).
Proof using Type.
  destruct raw; reflexivity.
Qed.

Lemma question_step_unfold (df : DataFrame) (mk : list pystr -> Block) (col : pystr)
    (st : list Block * gset pystr) :
  has_column df col = true -> answers_of_column df col <> [] ->
  question_step df mk col st
  = (st.1 ++ [mk (fst (preprocess_answer_list (answers_of_column df col) st.2))],
     snd (preprocess_answer_list (answers_of_column df col) st.2)).
Proof using Type.
  intros Hc Hr. unfold question_step. destruct st as [sd G]. rewrite Hc.
  destruct (answers_of_column df col) as [|x r] eqn:E; [congruence|].
  cbn [fst snd]. destruct (preprocess_answer_list (x :: r) G). reflexivity.
Qed.

Lemma question_step_skip (df : DataFrame) (mk : list pystr -> Block) (col : pystr)
    (st : list Block * gset pystr) :
  has_column df col = false \/ answers_of_column df col = [] ->
  question_step df mk col st = st.
Proof using Type.
  unfold question_step. destruct st as [sd G].
  intros [H|H]; [rewrite H; reflexivity|]. rewrite H.
  destruct (has_column df col); reflexivity.
Qed.

Lemma question_step_records (df : DataFrame) (mk : list pystr -> Block) (col : pystr)
    (st : list Block * gset pystr) :
  (forall answers, blk_answers (mk answers) = answers) ->
  records_first_three st -> records_first_three (question_step df mk col st).
Proof using Type.
  intros Hmk Hst.
  destruct (has_column df col) eqn:Hc;
    [|rewrite question_step_skip by (left; exact Hc); exact Hst].
  destruct (decide (answers_of_column df col = [])) as [Hr|Hr];
    [rewrite question_step_skip by (right; exact Hr); exact Hst|].
  rewrite (question_step_unfold df mk col st Hc Hr).
  intros s. cbn [fst snd].
  rewrite preprocess_answer_list_snd, record_used_elem_of, (Hst s). split.
  - intros [(b & a & Hb & Ha & ->)|(a & Ha & ->)].
    + exists b, a. split; [apply elem_of_app; left; exact Hb|]. split; [exact Ha|reflexivity].
    + eexists _, a. split; [apply elem_of_app; right; left|].
      rewrite Hmk. split; [exact Ha|reflexivity].
  - intros (b & a & Hb & Ha & ->). apply elem_of_app in Hb. destruct Hb as [Hb|Hb].
    + left. exists b, a. split; [exact Hb|]. split; [exact Ha|reflexivity].
    + apply list_elem_of_singleton in Hb. subst b. rewrite Hmk in Ha.
      right. exists a. split; [exact Ha|reflexivity].
Qed.

Lemma subjective_loop_records (df : DataFrame) (items : list IndexEntry) :
  forall st, records_first_three st ->
             records_first_three (foldl (subjective_step df) st items).
Proof using Type.
  induction items as [|item items IH]; intros st Hst; simpl; [exact Hst|].
  apply IH. unfold subjective_step. apply question_step_records; [|exact Hst].
  intros answers. reflexivity.
Qed.

Lemma records_first_three_init : records_first_three ([], ∅).
Proof using Type.
  intros s. simpl. split.
  - intros H. apply elem_of_empty in H. destruct H.
  - intros (b & a & Hb & _). apply elem_of_nil in Hb. destruct Hb.
Qed.

(** The blocks of [build_structured_open_ended] are those built by the loop
    over the free-text items of the reference index. *)
Lemma basic_responses_loop (env : Env) (df : DataFrame) (lvl : bool)
    (ref_df : list IndexEntry) :
  reference_index env = Some ref_df ->
  basic_responses (build_structured_open_ended env df lvl)
  = fst (foldl (subjective_step df) ([], ∅)
           (List.filter (fun item => bool_decide (major_category item = py "주관식")) ref_df)).
Proof using Type.
  intros H. unfold build_structured_open_ended. rewrite H. reflexivity.
Qed.

(** C10.  While the free-text questions are processed in sequence, the
    shared set holds exactly the normal forms of the first three retained
    answers of every earlier question; the next question is processed
    against that set, and none of its responses whose normal form matches
    one of those answers is retained. *)
Theorem shared_set_excludes_later_responses (df : DataFrame)
    (earlier : list IndexEntry) (item : IndexEntry) :
  let st := foldl (subjective_step df) ([], ∅) earlier in
  let raw := answers_of_column df (header_name item) in
  let kept := first_of_each st.2 (candidates raw) in
  records_first_three st /\
  (has_column df (header_name item) = true -> raw <> [] ->
   foldl (subjective_step df) ([], ∅) (earlier ++ [item])
   = (st.1 ++ [mkBlock (Some (header_name item)) (question_name item) (minor_category item)
                 (fst (preprocess_answer_list raw st.2))],
      snd (preprocess_answer_list raw st.2))) /\
  fst (preprocess_answer_list raw st.2) = longest_twenty (mask_sensitive_content <$> kept) /\
  (forall x b a,
     x ∈ raw -> b ∈ st.1 -> a ∈ take 3 (blk_answers b) ->
     normalize (strip x) = normalize a -> strip x ∉ kept).
Proof using Type.
  cbv zeta.
  pose proof (subjective_loop_records df earlier _ records_first_three_init) as Hst.
  split; [exact Hst|]. split; [|split].
  - intros Hc Hr. rewrite foldl_app. simpl. unfold subjective_step at 1.
    apply question_step_unfold; assumption.
  - apply preprocess_answer_list_fst.
  - intros x b a _ Hb Ha Hn Hin. apply first_of_each_fresh in Hin.
    apply Hin, Hst. exists b, a. split; [exact Hb|]. split; [exact Ha|exact Hn].
Qed.

(** *** Unit grouper *)

Lemma compare_eq (s : pystr) : forall t, PyStr.compare s t = Eq <-> s = t.
Proof using Type.
  only_used.
  induction s as [|a s IH]; intros [|b t]; simpl; try (split; congruence).
  destruct (a ?= b)%N eqn:E.
  - apply N.compare_eq_iff in E. subst b. rewrite IH. split; congruence.
  - split; [discriminate|]. intros H. inversion H. subst b.
    rewrite N.compare_refl in E. discriminate.
  - split; [discriminate|]. intros H. inversion H. subst b.
    rewrite N.compare_refl in E. discriminate.
Qed.

Lemma compare_antisym (s : pystr) :
  forall t, PyStr.compare t s = CompOpp (PyStr.compare s t).
Proof using Type.
  only_used.
  induction s as [|a s IH]; intros [|b t]; simpl; try reflexivity.
  rewrite (N.compare_antisym a b).
  destruct (a ?= b)%N; simpl; [apply IH|reflexivity|reflexivity].
Qed.

Lemma compare_trans (s : pystr) :
  forall t u, PyStr.compare s t = Lt -> PyStr.compare t u = Lt -> PyStr.compare s u = Lt.
Proof using Type.
  only_used.
  induction s as [|a s IH]; intros [|b t] [|c u]; simpl; try congruence.
  destruct (a ?= b)%N eqn:Eab; try discriminate.
  - apply N.compare_eq_iff in Eab. subst b.
    destruct (a ?= c)%N; try congruence. apply IH.
  - intros _. destruct (b ?= c)%N eqn:Ebc; try discriminate.
    + apply N.compare_eq_iff in Ebc. subst c. rewrite Eab. reflexivity.
    + intros _. change (a < b)%N in Eab. change (b < c)%N in Ebc.
      assert (H : (a < c)%N) by lia. unfold N.lt in H. rewrite H. reflexivity.
Qed.

Lemma insert_label_elem_of (s : pystr) (ls : list pystr) (x : pystr) :
  x ∈ insert_label s ls <-> x = s \/ x ∈ ls.
Proof using Type.
  only_used.
  induction ls as [|y ls IH]; simpl.
  - rewrite list_elem_of_singleton, elem_of_nil. tauto.
  - destruct (PyStr.compare s y) eqn:E.
    + apply compare_eq in E. subst y. rewrite elem_of_cons. tauto.
    + rewrite !elem_of_cons. tauto.
    + rewrite !elem_of_cons, IH. tauto.
Qed.

Lemma insert_label_sorted (s : pystr) (ls : list pystr) :
  StronglySorted str_lt ls -> StronglySorted str_lt (insert_label s ls).
Proof using Type.
  only_used.
  induction 1 as [|y ls Hs IH Hy]; simpl.
  - repeat constructor.
  - destruct (PyStr.compare s y) eqn:E.
    + constructor; assumption.
    + constructor; [constructor; assumption|].
      constructor; [exact E|].
      rewrite Forall_forall in Hy |- *. intros z Hz.
      exact (compare_trans _ _ _ E (Hy z Hz)).
    + constructor; [exact IH|].
      rewrite Forall_forall in Hy |- *. intros z Hz.
      apply insert_label_elem_of in Hz. destruct Hz as [->|Hz]; [|exact (Hy z Hz)].
      unfold str_lt. rewrite compare_antisym, E. reflexivity.
Qed.

Lemma fold_insert_label_elem_of (labels : list pystr) :
  forall acc x,
    x ∈ foldl (fun ls s => insert_label s ls) acc labels <-> x ∈ acc \/ x ∈ labels.
Proof using Type.
  only_used.
  induction labels as [|s labels IH]; intros acc x; simpl.
  - rewrite elem_of_nil. tauto.
  - rewrite IH, insert_label_elem_of, elem_of_cons. tauto.
Qed.

Lemma fold_insert_label_sorted (labels : list pystr) :
  forall acc, StronglySorted str_lt acc ->
              StronglySorted str_lt (foldl (fun ls s => insert_label s ls) acc labels).
Proof using Type.
  only_used.
  induction labels as [|s labels IH]; intros acc H; simpl; [exact H|].
  apply IH, insert_label_sorted, H.
Qed.

Lemma str_lt_irrefl (s : pystr) : ~ str_lt s s.
Proof using Type.
  only_used.
  unfold str_lt. rewrite (proj2 (compare_eq s s) eq_refl). discriminate.
Qed.

Lemma sorted_NoDup (ls : list pystr) : StronglySorted str_lt ls -> NoDup ls.
Proof using Type.
  only_used.
  induction 1 as [|y ls Hs IH Hy]; constructor; [|exact IH].
  intros Hin. rewrite Forall_forall in Hy. exact (str_lt_irrefl y (Hy y Hin)).
Qed.

Lemma sorted_labels_sorted (df : DataFrame) (col : pystr) :
  StronglySorted str_lt (sorted_labels df col).
Proof using Type.
  only_used. apply fold_insert_label_sorted. constructor.
Qed.

Lemma sorted_labels_elem_of (df : DataFrame) (col : pystr) (s : pystr) :
  s ∈ sorted_labels df col <-> CStr s ∈ column df col.
Proof using Type.
  only_used.
  unfold sorted_labels. rewrite fold_insert_label_elem_of, elem_of_nil.
  unfold text_labels. rewrite list_elem_of_omap. split.
  - intros [[]|(c & Hc & E)]. destruct c; try discriminate. congruence.
  - intros H. right. exists (CStr s). split; [exact H|reflexivity].
Qed.

Lemma index_of_Some (col : pystr) (cols : list pystr) :
  col ∈ cols -> exists i, index_of col cols = Some i.
Proof using Type.
  only_used.
  induction cols as [|c cols IH]; intros H; [apply elem_of_nil in H; destruct H|].
  simpl. destruct (decide (c = col)) as [_|Hne]; [exists 0; reflexivity|].
  apply elem_of_cons in H. destruct H as [H|H]; [congruence|].
  destruct (IH H) as [i Hi]. exists (S i). rewrite Hi. reflexivity.
Qed.

(** The cells of a column that is there are the cells of the rows. *)
Lemma column_cells (df : DataFrame) (col : pystr) :
  col ∈ columns df -> column df col = cell_of df col <$> rows df.
Proof using Type.
  only_used.
  intros H. destruct (index_of_Some _ _ H) as [i Hi].
  unfold column, cell_of. rewrite Hi. reflexivity.
Qed.

Lemma insert_key_text (s : pystr) (ls : list pystr) :
  insert_key (CStr s) (CStr <$> ls) = CStr <$> insert_label s ls.
Proof using Type.
  only_used.
  induction ls as [|y ls IH]; [reflexivity|].
  rewrite fmap_cons. simpl insert_key. simpl insert_label.
  destruct (PyStr.compare s y); try reflexivity.
  rewrite IH. reflexivity.
Qed.

Lemma fold_insert_key_text (labels : list pystr) :
  forall acc,
    foldl (fun keys k => insert_key k keys) (CStr <$> acc) (CStr <$> labels)
    = CStr <$> foldl (fun ls s => insert_label s ls) acc labels.
Proof using Type.
  only_used.
  induction labels as [|s labels IH]; intros acc; [reflexivity|].
  rewrite fmap_cons. simpl foldl. rewrite insert_key_text. apply IH.
Qed.

Lemma dropna_text (cells : list Cell) :
  Forall text_cell cells -> dropna cells = CStr <$> text_labels cells.
Proof using Type.
  only_used.
  induction 1 as [|c cells Hc _ IH]; [reflexivity|].
  unfold dropna, text_labels in *. simpl.
  destruct Hc as [->|[s ->]]; simpl; [exact IH|]. rewrite IH. reflexivity.
Qed.

Lemma text_column_cells (df : DataFrame) (col : pystr) :
  text_column df col -> Forall text_cell (column df col).
Proof using Type.
  only_used.
  intros H. unfold column, text_column, cell_of in *.
  destruct (index_of col (columns df)); [|constructor].
  apply Forall_fmap. exact H.
Qed.

(** On a column of team names the group keys are the sorted names. *)
Lemma group_keys_text (df : DataFrame) (col : pystr) :
  text_column df col -> group_keys df col = CStr <$> sorted_labels df col.
Proof using Type.
  only_used.
  intros H. unfold group_keys, sorted_labels.
  rewrite (dropna_text _ (text_column_cells df col H)).
  apply (fold_insert_key_text _ []).
Qed.

Lemma dict_set_fresh {V : Type} (key : pystr) (value : V) (d : list (pystr * V)) :
  key ∉ d.*1 -> dict_set key value d = d ++ [(key, value)].
Proof using Type.
  only_used.
  induction d as [|[k v] d IH]; intros H; [reflexivity|].
  simpl in *. rewrite not_elem_of_cons in H. destruct H as [Hne H].
  destruct (decide (k = key)) as [E|_]; [congruence|].
  rewrite IH by exact H. reflexivity.
Qed.

(** The loop over the groups appends the teams of at least three rows, in
    the order of the keys. *)
Lemma team_loop (df : DataFrame) (col : pystr) (ls : list pystr) :
  forall acc : list (pystr * DataFrame),
    NoDup ls -> (forall s, s ∈ ls -> s ∉ acc.*1) ->
    foldl team_step acc ((fun k => (k, group_of df col k)) <$> (CStr <$> ls))
    = acc ++ ((fun s => (s, group_of df col (CStr s)))
                <$> List.filter (fun s => 3 <=? len_df (group_of df col (CStr s))) ls).
Proof using Type.
  induction ls as [|s ls IH]; intros acc Hnd Hacc.
  - simpl. rewrite app_nil_r. reflexivity.
  - rewrite !fmap_cons. cbn [foldl List.filter].
    apply NoDup_cons in Hnd. destruct Hnd as [Hs Hnd].
    unfold team_step at 2. rewrite Nat.leb_antisym.
    destruct (len_df (group_of df col (CStr s)) <? 3); simpl negb; cbv iota.
    + apply IH; [exact Hnd|]. intros t Ht. apply Hacc. right. exact Ht.
    + simpl py_str. rewrite dict_set_fresh by (apply Hacc; left).
      rewrite IH; [rewrite <- app_assoc; reflexivity|exact Hnd|].
      intros t Ht. rewrite fmap_app, elem_of_app. intros [H|H].
      * apply (Hacc t); [right; exact Ht|exact H].
      * simpl in H. apply list_elem_of_singleton in H. subst t. exact (Hs Ht).
Qed.

Lemma grouped_data_text (df : DataFrame) (col : pystr) :
  text_column df col ->
  foldl team_step [] (groupby df col)
  = (fun s => (s, group_of df col (CStr s))) <$> retained_labels df col.
Proof using Type.
  intros H. unfold groupby. rewrite (group_keys_text df col H).
  rewrite team_loop.
  - reflexivity.
  - apply sorted_NoDup, sorted_labels_sorted.
  - intros s _ Hs. apply elem_of_nil in Hs. exact Hs.
Qed.

(** [group_data_by_unit] in by-unit mode on a column of team names. *)
Lemma group_data_by_unit_text (df : DataFrame) (col : pystr) :
  col <> [] -> col ∈ columns df -> text_column df col ->
  group_data_by_unit df (py "팀별") (Some col)
  = match retained_labels df col with
    | [] => ([NoValidTeam], whole_organization df)
    | _ => ([], (fun s => (s, group_of df col (CStr s))) <$> retained_labels df col)
    end.
Proof using Type.
  intros Hne Hcol Htext. unfold group_data_by_unit.
  destruct (decide (py "팀별" = py "전체")) as [E|_]; [vm_compute in E; discriminate E|].
  destruct (decide (py "팀별" = py "팀별")) as [_|E]; [|destruct E; reflexivity].
  destruct col as [|c col']; [congruence|].
  rewrite (has_column_true _ _ Hcol), (grouped_data_text df _ Htext).
  destruct (retained_labels df (c :: col')); reflexivity.
Qed.

Lemma List_filter_none {A} (p : A -> bool) (l : list A) :
  (forall x, x ∈ l -> p x = false) -> List.filter p l = [].
Proof using Type.
  only_used.
  induction l as [|a l IH]; intros H; [reflexivity|]. simpl.
  rewrite (H a) by left. apply IH. intros x Hx. apply H. right. exact Hx.
Qed.

Lemma List_filter_all {A} (p : A -> bool) (l : list A) :
  (forall x, x ∈ l -> p x = true) -> List.filter p l = l.
Proof using Type.
  only_used.
  induction l as [|a l IH]; intros H; [reflexivity|]. simpl.
  rewrite (H a) by left. f_equal. apply IH. intros x Hx. apply H. right. exact Hx.
Qed.

(** Selecting by each of several exclusive keys in turn selects every
    element that has one of the keys, once. *)
Lemma concat_filter_Permutation {A K} (test : K -> A -> bool) (l : list A) (ks : list K) :
  NoDup ks ->
  (forall k k' a, k ∈ ks -> k' ∈ ks -> test k a = true -> test k' a = true -> k = k') ->
  concat ((fun k => List.filter (test k) l) <$> ks)
  ≡ₚ List.filter (fun a => existsb (fun k => test k a) ks) l.
Proof using Type.
  only_used.
  induction 1 as [|k ks Hk Hnd IH]; intros Hex.
  - simpl. rewrite List_filter_none; [reflexivity|]. intros; reflexivity.
  - rewrite fmap_cons. simpl concat. rewrite IH.
    + symmetry. apply (filter_orb_Permutation (test k) (fun a => existsb (fun k' => test k' a) ks)).
      intros a H1 H2. apply existsb_exists in H2. destruct H2 as (k' & Hk' & H2).
      apply list_elem_of_In in Hk'.
      assert (E : k = k') by (apply (Hex k k' a); [left|right; exact Hk'|exact H1|exact H2]).
      subst k'. exact (Hk Hk').
    + intros k1 k2 a H1 H2. apply Hex; right; assumption.
Qed.

Lemma cell_eqb_text (c : Cell) (s : pystr) : cell_eqb c (CStr s) = true <-> c = CStr s.
Proof using Type.
  only_used.
  destruct c as [|q|t]; simpl; try (split; [discriminate|congruence]).
  rewrite bool_decide_eq_true. split; congruence.
Qed.

Lemma group_size_text (df : DataFrame) (col : pystr) (r : Row) (s : pystr) :
  cell_of df col r = CStr s -> group_size df col r = len_df (group_of df col (CStr s)).
Proof using Type.
  only_used. intros H. unfold group_size, len_df, group_of. rewrite H. reflexivity.
Qed.

Lemma group_size_null (df : DataFrame) (col : pystr) (r : Row) :
  cell_of df col r = CNull -> group_size df col r = 0.
Proof using Type.
  only_used.
  intros H. unfold group_size. rewrite H, List_filter_none; [reflexivity|].
  intros r' _. destruct (cell_of df col r'); reflexivity.
Qed.

Lemma retained_labels_elem_of (df : DataFrame) (col : pystr) (s : pystr) :
  s ∈ retained_labels df col
  <-> CStr s ∈ column df col /\ 3 <= len_df (group_of df col (CStr s)).
Proof using Type.
  only_used.
  unfold retained_labels.
  rewrite list_elem_of_In, filter_In, <- list_elem_of_In, sorted_labels_elem_of, Nat.leb_le.
  reflexivity.
Qed.

(** A row lies in one of the retained sub-tables exactly when its team has
    at least three rows. *)
Lemma in_some_retained_group (df : DataFrame) (col : pystr) (r : Row) :
  col ∈ columns df -> text_column df col -> r ∈ rows df ->
  existsb (fun s => cell_eqb (cell_of df col r) (CStr s)) (retained_labels df col)
  = in_retained_group df col r.
Proof using Type.
  only_used.
  intros Hcol Htext Hr. unfold text_column in Htext. rewrite Forall_forall in Htext.
  unfold in_retained_group.
  destruct (Htext r Hr) as [E|[s E]].
  - rewrite (group_size_null df col r E), E.
    induction (retained_labels df col); [reflexivity|assumption].
  - rewrite (group_size_text df col r s E), E.
    destruct (3 <=? len_df (group_of df col (CStr s))) eqn:E3.
    + apply existsb_exists. exists s. split; [|apply cell_eqb_text; reflexivity].
      apply list_elem_of_In, retained_labels_elem_of. split; [|apply Nat.leb_le, E3].
      rewrite (column_cells df col Hcol), <- E. apply list_elem_of_fmap_2, Hr.
    + destruct (existsb _ _) eqn:Ee; [|reflexivity].
      apply existsb_exists in Ee. destruct Ee as (t & Ht & Et).
      apply cell_eqb_text in Et. injection Et as ->.
      apply list_elem_of_In, retained_labels_elem_of in Ht. destruct Ht as [_ Ht].
      apply Nat.leb_le in Ht. congruence.
Qed.

Lemma StronglySorted_List_filter {A} (R : relation A) (p : A -> bool) (l : list A) :
  StronglySorted R l -> StronglySorted R (List.filter p l).
Proof using Type.
  only_used.
  induction 1 as [|a l Hs IH Ha]; simpl; [constructor|].
  destruct (p a); [|exact IH]. constructor; [exact IH|].
  rewrite Forall_forall in Ha |- *. intros x Hx.
  apply list_elem_of_In, filter_In in Hx. apply Ha, list_elem_of_In, Hx.
Qed.

Lemma retained_labels_sorted (df : DataFrame) (col : pystr) :
  StronglySorted str_lt (retained_labels df col).
Proof using Type.
  only_used. apply StronglySorted_List_filter, sorted_labels_sorted.
Qed.

Lemma retained_labels_nil (df : DataFrame) (col : pystr) :
  col ∈ columns df ->
  (forall r, r ∈ rows df -> in_retained_group df col r = false) ->
  retained_labels df col = [].
Proof using Type.
  only_used.
  intros Hcol H. destruct (retained_labels df col) as [|s ls] eqn:E; [reflexivity|].
  assert (Hs : s ∈ retained_labels df col) by (rewrite E; left).
  apply retained_labels_elem_of in Hs. destruct Hs as [Hs H3].
  rewrite (column_cells df col Hcol) in Hs.
  apply list_elem_of_fmap in Hs. destruct Hs as (r & Er & Hr).
  specialize (H r Hr). unfold in_retained_group in H.
  rewrite (group_size_text df col r s (eq_sym Er)) in H.
  apply Nat.leb_gt in H. lia.
Qed.

Lemma retained_labels_cons (df : DataFrame) (col : pystr) (r : Row) :
  col ∈ columns df -> text_column df col ->
  r ∈ rows df -> in_retained_group df col r = true ->
  retained_labels df col <> [].
Proof using Type.
  only_used.
  intros Hcol Htext Hr H E.
  rewrite <- (in_some_retained_group df col r Hcol Htext Hr), E in H. discriminate H.
Qed.

Lemma group_rows_same_team (df : DataFrame) (col : pystr) (s : pystr) (r : Row) :
  r ∈ rows (group_of df col (CStr s)) -> cell_of df col r = CStr s.
Proof using Type.
  only_used.
  unfold group_of. simpl. rewrite list_elem_of_In, filter_In.
  intros [_ H]. apply cell_eqb_text, H.
Qed.

(** C4 (as the code has it).  In whole-organization mode, and in by-unit
    mode when the grouping column is missing, the single sub-table is the
    whole table.  In by-unit mode on a column of team names: when some
    team has at least three rows, no warning is shown, the sub-tables
    together hold exactly the rows whose team has at least three rows,
    each once (rows of smaller teams and rows without a team are in none),
    and no row is in two sub-tables; when no team has three rows, the
    single sub-table is the whole table, with a warning. *)
Theorem unit_groups_partition (df : DataFrame) (col : pystr) (gc : option pystr) :
  group_data_by_unit df (py "전체") gc = ([], whole_organization df) /\
  (col ∉ columns df ->
   group_data_by_unit df (py "팀별") (Some col)
   = ([MissingGroupColumn (Some col)], whole_organization df)) /\
  (col <> [] -> col ∈ columns df -> text_column df col ->
   let result := group_data_by_unit df (py "팀별") (Some col) in
   ((exists r, r ∈ rows df /\ in_retained_group df col r = true) ->
    result.1 = [] /\
    concat ((fun g => rows g.2) <$> result.2)
    ≡ₚ List.filter (in_retained_group df col) (rows df) /\
    (forall i j g1 g2 r,
       result.2 !! i = Some g1 -> result.2 !! j = Some g2 ->
       r ∈ rows g1.2 -> r ∈ rows g2.2 -> i = j)) /\
   ((forall r, r ∈ rows df -> in_retained_group df col r = false) ->
    result = ([NoValidTeam], whole_organization df))).
Proof using Type.
  split; [|split].
  - unfold group_data_by_unit.
    destruct (decide (py "전체" = py "전체")) as [_|E]; [reflexivity|destruct E; reflexivity].
  - intros H. unfold group_data_by_unit.
    destruct (decide (py "팀별" = py "전체")) as [E|_]; [vm_compute in E; discriminate E|].
    destruct (decide (py "팀별" = py "팀별")) as [_|E]; [|destruct E; reflexivity].
    destruct col as [|c col']; [reflexivity|].
    rewrite (has_column_false _ _ H). reflexivity.
  - intros Hne Hcol Htext. cbv zeta.
    rewrite (group_data_by_unit_text df col Hne Hcol Htext). split.
    + intros (r0 & Hr0 & Hin0).
      pose proof (retained_labels_cons df col r0 Hcol Htext Hr0 Hin0) as Hnn.
      destruct (retained_labels df col) as [|s0 ls0] eqn:E; [congruence|].
      rewrite <- E. clear Hnn. cbn [fst snd]. split; [reflexivity|]. split.
      * rewrite <- list_fmap_compose.
        rewrite (list_fmap_ext _
                   (fun s => List.filter (fun r => cell_eqb (cell_of df col r) (CStr s)) (rows df))
                   (retained_labels df col))
          by (intros; reflexivity).
        rewrite (concat_filter_Permutation
                   (fun s r => cell_eqb (cell_of df col r) (CStr s))).
        -- rewrite (List_filter_ext_in _ (in_retained_group df col)); [reflexivity|].
           intros r Hr. apply in_some_retained_group; assumption.
        -- apply sorted_NoDup, retained_labels_sorted.
        -- intros k k' a _ _ H1 H2. apply cell_eqb_text in H1, H2. congruence.
      * intros i j g1 g2 r Hi Hj H1 H2.
        apply list_lookup_fmap_Some in Hi, Hj.
        destruct Hi as (s1 & -> & Hs1). destruct Hj as (s2 & -> & Hs2).
        cbn [snd] in H1, H2.
        apply group_rows_same_team in H1, H2.
        assert (Es : s1 = s2) by congruence. subst s2.
        apply (NoDup_lookup (retained_labels df col) i j s1);
          [apply sorted_NoDup, retained_labels_sorted|assumption|assumption].
    + intros H. rewrite (retained_labels_nil df col Hcol H). reflexivity.
Qed.

Lemma cell_eqb_compare (a b k : Cell) :
  cell_eqb a k = true -> cell_eqb b k = true -> cell_compare a b = Eq.
Proof using Type.
  only_used.
  destruct a as [|x|s], b as [|y|t], k as [|z|u]; cbn [cell_eqb cell_compare];
    try discriminate.
  - intros H1 H2. apply Qeq_bool_iff in H1, H2. apply (proj1 (Qeq_alt _ _)).
    rewrite H1, H2. reflexivity.
  - intros H1 H2. apply bool_decide_eq_true in H1, H2. subst. apply compare_eq. reflexivity.
Qed.

Lemma cell_eqb_same (key k c : Cell) :
  cell_eqb key k = true -> cell_eqb c key = cell_eqb c k.
Proof using Type.
  only_used.
  destruct key as [|x|s], k as [|z|u], c as [|y|t]; cbn [cell_eqb]; try discriminate;
    try reflexivity.
  - intros H. apply Qeq_bool_iff in H.
    destruct (Qeq_bool y x) eqn:E1, (Qeq_bool y z) eqn:E2; try reflexivity.
    + apply Qeq_bool_iff in E1. apply Qeq_bool_neq in E2. destruct E2. rewrite E1. exact H.
    + apply Qeq_bool_iff in E2. apply Qeq_bool_neq in E1. destruct E1. rewrite E2, H.
      reflexivity.
  - intros H. apply bool_decide_eq_true in H. subst. reflexivity.
Qed.

Lemma fold_insert_key_single (k : Cell) (cells : list Cell) :
  forall key,
    cell_eqb key k = true ->
    Forall (fun c => cell_eqb c k = true) cells ->
    foldl (fun keys c => insert_key c keys) [key] cells = [key].
Proof using Type.
  only_used.
  induction cells as [|c cells IH]; intros key Hk H; [reflexivity|].
  apply Forall_cons in H. destruct H as [Hc H]. cbn [foldl insert_key].
  rewrite (cell_eqb_compare c key k Hc Hk). apply IH; assumption.
Qed.

(** The keys of a column whose values are all the same. *)
Lemma group_keys_single (df : DataFrame) (col : pystr) (k : Cell) :
  col ∈ columns df ->
  (forall r, r ∈ rows df -> cell_of df col r = CNull \/ cell_eqb (cell_of df col r) k = true) ->
  (exists r, r ∈ rows df /\ cell_eqb (cell_of df col r) k = true) ->
  exists key, key ∈ column df col /\ cell_eqb key k = true /\ group_keys df col = [key].
Proof using Type.
  only_used.
  intros Hcol Hall (r & Hr & Er). unfold group_keys.
  rewrite (column_cells df col Hcol).
  assert (Hd : Forall (fun c => cell_eqb c k = true) (dropna (cell_of df col <$> rows df))).
  { unfold dropna. apply Forall_forall. intros c Hc.
    apply list_elem_of_In, filter_In in Hc. destruct Hc as [Hc Hn].
    apply list_elem_of_In, list_elem_of_fmap in Hc. destruct Hc as (r' & -> & Hr').
    destruct (Hall r' Hr') as [E|E]; [rewrite E in Hn; discriminate Hn|exact E]. }
  assert (Hin : cell_of df col r ∈ dropna (cell_of df col <$> rows df)).
  { unfold dropna. apply list_elem_of_In, filter_In. split.
    - apply list_elem_of_In, list_elem_of_fmap_2, Hr.
    - destruct (cell_of df col r); [discriminate Er|reflexivity|reflexivity]. }
  assert (Hsub : forall c, c ∈ dropna (cell_of df col <$> rows df)
                           -> c ∈ cell_of df col <$> rows df).
  { intros c Hc. unfold dropna in Hc. apply list_elem_of_In, filter_In in Hc.
    apply list_elem_of_In, Hc. }
  destruct (dropna (cell_of df col <$> rows df)) as [|key cells] eqn:Ed;
    [apply elem_of_nil in Hin; destruct Hin|].
  apply Forall_cons in Hd. destruct Hd as [Hk Hd].
  exists key. split; [apply Hsub; left|]. split; [exact Hk|].
  cbn [foldl insert_key]. apply (fold_insert_key_single k); assumption.
Qed.

(** C5 (as the code has it).  By-unit mode on a grouping column with a
    single value [k], a team name or any other value, as pandas compares
    values: the result is exactly one group; when at least three rows
    hold the value it is the group named by the value as it stands in the
    column, holding the rows with the value (every row when no row lacks
    a value), and no warning is shown; with fewer it is the "whole
    organization" group holding every row, with a warning. *)
Theorem single_team_grouping (df : DataFrame) (col : pystr) (k : Cell) :
  col <> [] -> col ∈ columns df ->
  (forall r, r ∈ rows df -> cell_of df col r = CNull \/ cell_eqb (cell_of df col r) k = true) ->
  (exists r, r ∈ rows df /\ cell_eqb (cell_of df col r) k = true) ->
  let result := group_data_by_unit df (py "팀별") (Some col) in
  let team := group_of df col k in
  exists key,
    key ∈ column df col /\ cell_eqb key k = true /\
    (forall s, k = CStr s -> key = CStr s) /\
    (3 <= len_df team -> result = ([], [(py_str key, team)])) /\
    (len_df team < 3 -> result = ([NoValidTeam], whole_organization df)) /\
    ((forall r, r ∈ rows df -> cell_eqb (cell_of df col r) k = true) -> team = df).
Proof using Type.
  intros Hne Hcol Hall Hex. cbv zeta.
  destruct (group_keys_single df col k Hcol Hall Hex) as (key & Hin & Hk & Hkeys).
  exists key. split; [exact Hin|]. split; [exact Hk|].
  assert (Hteam : group_of df col key = group_of df col k).
  { unfold group_of. f_equal. apply List_filter_ext_in. intros r _.
    apply cell_eqb_same, Hk. }
  assert (Hres : group_data_by_unit df (py "팀별") (Some col)
                 = if len_df (group_of df col k) <? 3
                   then ([NoValidTeam], whole_organization df)
                   else ([], [(py_str key, group_of df col k)])).
  { unfold group_data_by_unit.
    destruct (decide (py "팀별" = py "전체")) as [E|_]; [vm_compute in E; discriminate E|].
    destruct (decide (py "팀별" = py "팀별")) as [_|E]; [|destruct E; reflexivity].
    destruct col as [|c col']; [congruence|].
    rewrite (has_column_true _ _ Hcol). unfold groupby. rewrite Hkeys.
    cbn [fmap list_fmap foldl]. unfold team_step. rewrite Hteam.
    destruct (len_df (group_of df (c :: col') k) <? 3); reflexivity. }
  rewrite Hres. split; [|split; [|split]].
  - intros s ->. destruct key as [|x|t]; cbn [cell_eqb] in Hk; try discriminate Hk.
    apply bool_decide_eq_true in Hk. subst. reflexivity.
  - intros H. apply Nat.ltb_ge in H. rewrite H. reflexivity.
  - intros H. apply Nat.ltb_lt in H. rewrite H. reflexivity.
  - intros H. unfold group_of. destruct df as [cols rws]. cbn [columns rows] in *. f_equal.
    apply List_filter_all. intros r Hr. apply (H r Hr).
Qed.

(** C6 (as the code has it).  The keys of the returned mapping: the single
    key "전체 조직" in whole-organization mode; in by-unit mode on a column
    of team names, the names of the teams of at least three rows in
    ascending order of the strings (the order of [groupby]), or the single
    key "전체 조직" when there is no such team. *)
Theorem unit_group_keys_ascending (df : DataFrame) (col : pystr) (gc : option pystr) :
  (group_data_by_unit df (py "전체") gc).2.*1 = [py "전체 조직"] /\
  (col <> [] -> col ∈ columns df -> text_column df col ->
   let keys := (group_data_by_unit df (py "팀별") (Some col)).2.*1 in
   (retained_labels df col = [] -> keys = [py "전체 조직"]) /\
   (retained_labels df col <> [] -> keys = retained_labels df col) /\
   StronglySorted str_lt (retained_labels df col) /\
   (forall s, s ∈ retained_labels df col
              <-> CStr s ∈ column df col /\ 3 <= len_df (group_of df col (CStr s)))).
Proof using Type.
  split.
  - unfold group_data_by_unit.
    destruct (decide (py "전체" = py "전체")) as [_|E]; [reflexivity|destruct E; reflexivity].
  - intros Hne Hcol Htext. cbv zeta.
    rewrite (group_data_by_unit_text df col Hne Hcol Htext).
    split; [|split; [|split]].
    + intros ->. reflexivity.
    + intros H. destruct (retained_labels df col) as [|s0 ls0] eqn:E; [congruence|].
      rewrite <- E. cbn [snd]. rewrite <- list_fmap_compose.
      rewrite (list_fmap_ext _ id (retained_labels df col)) by (intros; reflexivity).
      apply list_fmap_id.
    + apply retained_labels_sorted.
    + apply retained_labels_elem_of.
Qed.

(** ** Further properties *)

(** *** Score normalizer *)

Lemma LIKERT_MAP_range (s : pystr) (n : Z) :
  dict_get s LIKERT_MAP = Some n -> (1 <= n <= 5)%Z.
Proof using Type.
  only_used.
  unfold LIKERT_MAP. cbn [dict_get].
  repeat (destruct (decide _); [intros H; injection H as <-; lia|]).
  discriminate.
Qed.

Lemma on_scale_Z (n : Z) : (1 <= n <= 5)%Z -> on_scale (inject_Z n).
Proof using Type.
  only_used.
  intros H. unfold on_scale.
  assert (E : n = 1%Z \/ n = 2%Z \/ n = 3%Z \/ n = 4%Z \/ n = 5%Z) by lia.
  destruct E as [->|[->|[->|[->| ->]]]]; simpl; auto 10 using Qeq_refl.
Qed.

(** X1.  A column made of Likert labels only (surrounding white space
    aside) is normalized without any null, and every value is one of 1, 2,
    3, 4, 5, whatever the numeric parser does with other text. *)
Theorem to_num_likert_column (series : list Cell) :
  Forall likert_label series ->
  length (omap to_num_cell series) = length series /\
  Forall on_scale (omap to_num_cell series).
Proof using Type.
  induction 1 as [|c series Hc _ IH]; [split; [reflexivity|constructor]|].
  destruct Hc as [n Hn].
  assert (E : to_num_cell c = Some (inject_Z n)) by (unfold to_num_cell; rewrite Hn; reflexivity).
  cbn [omap list_omap]. rewrite E. cbn [length].
  destruct IH as [IH1 IH2]. split.
  - f_equal. exact IH1.
  - constructor; [|exact IH2]. apply on_scale_Z, (LIKERT_MAP_range _ _ Hn).
Qed.

(** *** Bounds of the scores *)

(** Rounding to the nearest integer does not cross an integer. *)
Lemma round_half_even_bounded (m : Q) (a b : Z) :
  (inject_Z a <= m)%Q -> (m <= inject_Z b)%Q ->
  (a <= round_half_even m <= b)%Z.
Proof using Type.
  only_used.
  intros Ha Hb.
  pose proof (round_half_even_bounds m) as [Hlo Hhi].
  assert (H1 : (inject_Z a - 1 < inject_Z (round_half_even m))%Q) by lra.
  assert (H2 : (inject_Z (round_half_even m) < inject_Z b + 1)%Q) by lra.
  change 1%Q with (inject_Z 1) in H1, H2.
  unfold Qminus in H1. rewrite <- inject_Z_opp, <- inject_Z_plus in H1.
  rewrite <- inject_Z_plus in H2.
  rewrite <- Zlt_Qlt in H1, H2. lia.
Qed.

(** [round(x, n)] stays between two integers that enclose [x]. *)
Lemma py_round_bounded (x : Q) (n : nat) (a b : Z) :
  (inject_Z a <= x)%Q -> (x <= inject_Z b)%Q ->
  (inject_Z a <= py_round x n)%Q /\ (py_round x n <= inject_Z b)%Q.
Proof using Type.
  only_used.
  intros Ha Hb. unfold py_round.
  set (p := Z.to_pos (10 ^ Z.of_nat n)).
  destruct (round_half_even_bounded (x * inject_Z (Z.pos p)) (a * Z.pos p) (b * Z.pos p))
    as [H1 H2].
  - rewrite inject_Z_mult. apply Qmult_le_compat_r; [exact Ha|].
    unfold Qle. simpl. lia.
  - rewrite inject_Z_mult. apply Qmult_le_compat_r; [exact Hb|].
    unfold Qle. simpl. lia.
  - unfold Qle. simpl. split; lia.
Qed.

Lemma benchmark_of_bounded (avg : Q) :
  (0 <= benchmark_of avg)%Q /\ (benchmark_of avg <= 5)%Q.
Proof using Type.
  only_used.
  rewrite benchmark_of_clamp. unfold clamp, Qltb.
  generalize (avg - (25 # 100))%Q. intros x.
  destruct (x ?= 0)%Q eqn:E0.
  - apply Qeq_alt in E0.
    assert (H5 : (5 ?= x)%Q = Gt) by (apply (proj1 (Qgt_alt _ _)); lra).
    rewrite H5. lra.
  - split; lra.
  - apply Qgt_alt in E0. destruct (5 ?= x)%Q eqn:E5.
    + apply Qeq_alt in E5. lra.
    + split; lra.
    + apply Qgt_alt in E5. lra.
Qed.

Lemma dist_pct_bounded (valid : list Q) (v : Z) : is_percentage (dist_pct valid v).
Proof using Type.
  only_used.
  unfold dist_pct. destruct (0 <? length valid) eqn:E; [|split; lra].
  apply Nat.ltb_lt in E.
  apply (py_round_bounded _ 1 0 100).
  - change (inject_Z 0) with 0%Q.
    apply Qmult_le_0_compat; [|lra].
    apply Qle_shift_div_l; [unfold Qlt; simpl; lia|].
    unfold Qle. simpl. lia.
  - change (inject_Z 100) with 100%Q.
    assert (H : (inject_Z (Z.of_nat (count_eq valid v)) / inject_Z (Z.of_nat (length valid)) <= 1)%Q).
    { apply Qle_shift_div_r; [unfold Qlt; simpl; lia|].
      rewrite Qmult_1_l. rewrite <- Zle_Qle. pose proof (count_eq_le valid v). lia. }
    lra.
Qed.

(** X2.  Whatever the table and the index row, the benchmark of the item
    record is a number between 0 and 5, and each of the five distribution
    percentages is between 0 and 100. *)
Theorem item_score_bounds (df : DataFrame) (row : IndexEntry) :
  (exists b, benchmark (item_score df row).1 = Some b /\ (0 <= b)%Q /\ (b <= 5)%Q) /\
  is_percentage (veryLow (item_score df row).1) /\
  is_percentage (low (item_score df row).1) /\
  is_percentage (medium (item_score df row).1) /\
  is_percentage (high (item_score df row).1) /\
  is_percentage (veryHigh (item_score df row).1).
Proof using Type.
  assert (Hz : is_percentage 0) by (split; lra).
  unfold item_score.
  destruct (negb (bool_decide (strip (header_name row) = []))
            && has_column df (strip (header_name row))); cbn [fst];
    [|cbn [benchmark veryLow low medium high veryHigh];
      repeat split; try lra; exists 0%Q; repeat split; lra].
  destruct (valid_values df (strip (header_name row))) as [|x valid] eqn:E; cbn [fst];
    [cbn [benchmark veryLow low medium high veryHigh];
     repeat split; try lra; exists 0%Q; repeat split; lra|].
  cbn [benchmark veryLow low medium high veryHigh].
  split; [|repeat split; apply dist_pct_bounded].
  eexists. split; [reflexivity|].
  apply (py_round_bounded _ 2 0 5); apply benchmark_of_bounded.
Qed.

Lemma foldr_Qplus_bounded (l : list Q) (lo hi : Q) :
  Forall (fun x => (lo <= x)%Q /\ (x <= hi)%Q) l ->
  (inject_Z (Z.of_nat (length l)) * lo <= foldr Qplus 0 l)%Q /\
  (foldr Qplus 0 l <= inject_Z (Z.of_nat (length l)) * hi)%Q.
Proof using Type.
  only_used.
  induction 1 as [|x l [Hx1 Hx2] _ [IH1 IH2]].
  - cbn [length foldr]. change (inject_Z (Z.of_nat 0)) with 0%Q. split; lra.
  - cbn [length foldr]. rewrite Nat2Z.inj_succ, <- Z.add_1_r, inject_Z_plus.
    change (inject_Z 1) with 1%Q. split; lra.
Qed.

(** The mean of numbers between two bounds lies between the bounds. *)
Lemma mean_bounded (l : list Q) (lo hi : Q) :
  l <> [] -> Forall (fun x => (lo <= x)%Q /\ (x <= hi)%Q) l ->
  (lo <= mean l)%Q /\ (mean l <= hi)%Q.
Proof using Type.
  only_used.
  intros Hne H. destruct (foldr_Qplus_bounded l lo hi H) as [H1 H2].
  unfold mean, py_sum. rewrite foldl_Qplus, Qplus_0_l.
  assert (Hn : (0 < inject_Z (Z.of_nat (length l)))%Q).
  { destruct l; [congruence|]. unfold Qlt. simpl. lia. }
  split.
  - apply Qle_shift_div_l; [exact Hn|]. rewrite Qmult_comm. exact H1.
  - apply Qle_shift_div_r; [exact Hn|]. rewrite Qmult_comm. exact H2.
Qed.

Lemma rounded_mean_within_scale (scores : list Q) :
  Forall within_scale scores -> score_within_scale (rounded_mean scores).
Proof using Type.
  only_used.
  intros H x Hx. unfold rounded_mean in Hx.
  destruct scores as [|y scores]; [discriminate Hx|]. injection Hx as <-.
  apply (py_round_bounded _ 2 1 5); apply (mean_bounded _ 1 5); try discriminate; exact H.
Qed.

(** The two outcomes of the item aggregator: no score, or the mean of the
    valid responses. *)
Lemma item_score_mean (df : DataFrame) (row : IndexEntry) :
  ((item_score df row).2 = None /\ average (item_score df row).1 = None) \/
  (valid_values df (strip (header_name row)) <> [] /\
   (item_score df row).2 = Some (mean (valid_values df (strip (header_name row)))) /\
   average (item_score df row).1
   = Some (py_round (mean (valid_values df (strip (header_name row)))) 2)).
Proof using Type.
  unfold item_score.
  destruct (negb (bool_decide (strip (header_name row) = []))
            && has_column df (strip (header_name row))); [|left; split; reflexivity].
  destruct (valid_values df (strip (header_name row))) as [|x valid];
    [left; split; reflexivity|].
  right. split; [discriminate|]. split; reflexivity.
Qed.

Lemma item_means_within_scale (df : DataFrame) (rws : list IndexEntry) :
  (forall row, row ∈ rws -> Forall within_scale (valid_values df (strip (header_name row)))) ->
  Forall within_scale (item_means df rws).
Proof using Type.
  intros H. apply Forall_forall. intros x Hx.
  unfold item_means in Hx. apply list_elem_of_omap in Hx. destruct Hx as (row & Hrow & E).
  destruct (item_score_mean df row) as [[E' _]|(Hne & E' & _)]; [congruence|].
  rewrite E' in E. injection E as <-.
  apply (mean_bounded _ 1 5 Hne), (H row Hrow).
Qed.

Lemma item_average_within_scale (df : DataFrame) (row : IndexEntry) :
  Forall within_scale (valid_values df (strip (header_name row))) ->
  score_within_scale (average (item_score df row).1).
Proof using Type.
  intros H x Hx.
  destruct (item_score_mean df row) as [[_ E]|(Hne & _ & E)]; [congruence|].
  rewrite E in Hx. injection Hx as <-.
  apply (py_round_bounded _ 2 1 5); apply (mean_bounded _ 1 5 Hne), H.
Qed.

Lemma List_filter_elem_of {A} (p : A -> bool) (l : list A) (x : A) :
  x ∈ List.filter p l -> x ∈ l.
Proof using Type.
  only_used.
  rewrite !list_elem_of_In, filter_In. tauto.
Qed.

(** X3.  When the valid responses of every item of the index lie between 1
    and 5, so do the average of every category, of every sub-category and
    of every item of the category. *)
Theorem category_scores_within_scale (df : DataFrame) (idx : list IndexEntry)
    (big : pystr) (c : Category) :
  (forall row, row ∈ idx -> Forall within_scale (valid_values df (strip (header_name row)))) ->
  process_category df idx big = Some c ->
  score_within_scale (cat_average c) /\
  Forall (fun sub => score_within_scale (sub_average sub)) (subcategories c) /\
  Forall (fun it => score_within_scale (average it)) (cat_items c).
Proof using Type.
  intros Hidx H. unfold process_category in H.
  assert (Harea : forall row, row ∈ area_rows idx big -> row ∈ idx)
    by (intros row; apply List_filter_elem_of).
  assert (Hc : c = mkCat big (rounded_mean (all_scores df (area_rows idx big)))
                  (fst <$> (process_subcategory df (area_rows idx big)
                              <$> sub_labels (area_rows idx big)))
                  (concat (sub_items <$> (fst <$> (process_subcategory df (area_rows idx big)
                              <$> sub_labels (area_rows idx big)))))).
  { destruct (area_rows idx big); [discriminate H|]. congruence. }
  subst c. cbn [cat_average subcategories cat_items]. split; [|split].
  - apply rounded_mean_within_scale.
    rewrite (all_scores_Permutation df (area_rows idx big)).
    apply item_means_within_scale. intros row Hrow.
    apply Hidx, Harea, (List_filter_elem_of _ _ _ Hrow).
  - apply Forall_fmap, Forall_fmap, Forall_forall. intros l _. unfold compose.
    rewrite process_subcategory_unfold. cbn [fst sub_average].
    apply rounded_mean_within_scale, item_means_within_scale. intros row Hrow.
    apply Hidx, Harea, (List_filter_elem_of _ _ _ Hrow).
  - rewrite (cat_items_Permutation df (area_rows idx big)).
    apply Forall_fmap, Forall_forall. intros row Hrow. unfold compose.
    apply item_average_within_scale, Hidx, Harea, (List_filter_elem_of _ _ _ Hrow).
Qed.

(** A better score never gets a worse grade. *)
Lemma grade_rank_values (x : Q) :
  grade_rank (_grade (Some x))
  = if Qle_bool (38 # 10) x then 3
    else if Qle_bool (34 # 10) x then 2
    else if Qle_bool (30 # 10) x then 1 else 0.
Proof using Type.
  only_used.
  unfold _grade.
  destruct (Qle_bool (38 # 10) x); [reflexivity|].
  destruct (Qle_bool (34 # 10) x); [reflexivity|].
  destruct (Qle_bool (30 # 10) x); reflexivity.
Qed.

(** X4.  The grade is monotone in the score: of two category averages the
    higher one never gets the lower grade. *)
Theorem grade_monotone (a b : Q) :
  (a <= b)%Q -> grade_rank (_grade (Some a)) <= grade_rank (_grade (Some b)).
Proof using Type.
  intros H. rewrite !grade_rank_values.
  destruct (Qle_bool (38 # 10) a) eqn:A1; destruct (Qle_bool (38 # 10) b) eqn:B1;
    destruct (Qle_bool (34 # 10) a) eqn:A2; destruct (Qle_bool (34 # 10) b) eqn:B2;
    destruct (Qle_bool (30 # 10) a) eqn:A3; destruct (Qle_bool (30 # 10) b) eqn:B3;
    try lia; exfalso;
    repeat match goal with
           | H : Qle_bool _ _ = true |- _ => apply Qle_bool_iff in H
           | H : Qle_bool _ _ = false |- _ =>
               apply (fun E => proj2 (not_true_iff_false _) E) in H;
               rewrite Qle_bool_iff in H
           end;
    lra.
Qed.

(** *** The item chart *)

Lemma chart_step_ok (df : DataFrame) (st : ChartState) (row : IndexEntry) :
  chart_ok st -> chart_ok (chart_step df st row).
Proof using Type.
  intros (H1 & H2 & H3 & H4 & H5). unfold chart_step.
  destruct (bool_decide (strip (question_name row) = [])
            || bool_decide (strip (header_name row) = [])
            || negb (has_column df (strip (header_name row))));
    [repeat split; assumption|].
  destruct (negb (is_objective_column df (strip (header_name row))));
    [repeat split; assumption|].
  destruct (valid_values df (strip (header_name row))) as [|x valid];
    [repeat split; assumption|].
  assert (Hw : forall l, Forall (fun i => i < length (line_labels st)) l ->
                         Forall (fun i => i < length (line_labels st ++ [strip (question_name row)])) l).
  { intros l Hl. eapply Forall_impl; [exact Hl|]. intros i Hi.
    cbv beta in Hi |- *. rewrite length_app. cbn [length]. lia. }
  assert (Hn : forall l, Forall (fun i => i < length (line_labels st)) l ->
                         Forall (fun i => i < length (line_labels st ++ [strip (question_name row)]))
                                (l ++ [length (line_labels st)])).
  { intros l Hl. apply Forall_app. split; [apply Hw, Hl|].
    constructor; [|constructor]. rewrite length_app. cbn [length]. lia. }
  assert (L1 : length (our_scores st ++ [py_round (mean (x :: valid)) 2])
               = length (line_labels st ++ [strip (question_name row)]))
    by (rewrite !length_app, H1; reflexivity).
  assert (L2 : length (benchmark_scores st ++ [py_round (benchmark_of (mean (x :: valid))) 2])
               = length (line_labels st ++ [strip (question_name row)]))
    by (rewrite !length_app, H2; reflexivity).
  repeat match goal with
         | |- context [if str_in ?a ?b then _ else _] => destruct (str_in a b)
         end;
    unfold chart_ok;
    cbn [line_labels our_scores benchmark_scores input_indices process_indices
         output_indices];
    repeat split; auto.
Qed.

Lemma chart_loop_ok (df : DataFrame) (idx : list IndexEntry) :
  forall st, chart_ok st -> chart_ok (foldl (chart_step df) st idx).
Proof using Type.
  induction idx as [|row idx IH]; intros st H; [exact H|].
  simpl. apply IH, chart_step_ok, H.
Qed.

Lemma chart_step_labels (df : DataFrame) (st : ChartState) (row : IndexEntry) :
  length (line_labels (chart_step df st row)) <= S (length (line_labels st)).
Proof using Type.
  unfold chart_step.
  destruct (_ || _ || _); [lia|].
  destruct (negb _); [lia|].
  destruct (valid_values df (strip (header_name row))); [lia|].
  repeat match goal with
         | |- context [if str_in ?a ?b then _ else _] => destruct (str_in a b)
         end;
    cbn [line_labels]; rewrite length_app; cbn [length]; lia.
Qed.

Lemma chart_loop_labels (df : DataFrame) (idx : list IndexEntry) :
  forall st, length (line_labels (foldl (chart_step df) st idx))
             <= length (line_labels st) + length idx.
Proof using Type.
  induction idx as [|row idx IH]; intros st; simpl; [lia|].
  specialize (IH (chart_step df st row)).
  pose proof (chart_step_labels df st row). lia.
Qed.

Lemma foldl_min_max (r : list nat) :
  forall (a n : nat),
    a < n -> Forall (fun i => i < n) r ->
    foldl Nat.min a r <= a /\ a <= foldl Nat.max a r /\ foldl Nat.max a r < n.
Proof using Type.
  only_used.
  induction r as [|b r IH]; intros a n Ha Hr; simpl; [lia|].
  apply Forall_cons in Hr. destruct Hr as [Hb Hr].
  destruct (IH (Nat.min a b) n) as (I1 & _ & _); [lia|exact Hr|].
  destruct (IH (Nat.max a b) n) as (_ & I2 & I3); [lia|exact Hr|].
  lia.
Qed.

Lemma segment_of_ok (area_name : pystr) (idx_list : list nat) (n : nat) :
  Forall (fun i => i < n) idx_list ->
  Forall (fun s => seg_from s <= seg_to s /\ seg_to s < n) (segment_of area_name idx_list).
Proof using Type.
  only_used.
  intros H. destruct idx_list as [|i r]; [constructor|].
  apply Forall_cons in H. destruct H as [Hi Hr].
  destruct (foldl_min_max r i n Hi Hr) as (H1 & H2 & H3).
  constructor; [|constructor]. simpl. lia.
Qed.

(** X5.  The item chart is well formed: the two series have one value per
    label, every segment runs from a position to a later or equal position
    of the chart, and there are at most as many labels as index rows. *)
Theorem score_distribution_well_formed (df : DataFrame) (idx : list IndexEntry) :
  length (benchmark_series (summary_score_distribution df idx))
  = length (labels (summary_score_distribution df idx)) /\
  length (organization_series (summary_score_distribution df idx))
  = length (labels (summary_score_distribution df idx)) /\
  Forall (fun s => seg_from s <= seg_to s
                   /\ seg_to s < length (labels (summary_score_distribution df idx)))
         (segments (summary_score_distribution df idx)) /\
  length (labels (summary_score_distribution df idx)) <= length idx.
Proof using Type.
  unfold summary_score_distribution. cbn [benchmark_series organization_series labels segments].
  assert (H0 : chart_ok (mkChart [] [] [] [] [] [])) by (repeat split; constructor).
  destruct (chart_loop_ok df idx _ H0) as (H1 & H2 & H3 & H4 & H5).
  split; [exact H2|]. split; [exact H1|]. split.
  - repeat (apply Forall_app; split); apply segment_of_ok; assumption.
  - apply (chart_loop_labels df idx (mkChart [] [] [] [] [] [])).
Qed.

(** *** Sub-categories *)

Lemma rows_labelled_nonempty (qdf : list IndexEntry) (l : pystr) :
  l ∈ sub_labels qdf -> 1 <= length (rows_labelled qdf l).
Proof using Type.
  only_used.
  intros H. apply unique_elem_of, list_elem_of_omap in H. destruct H as (row & Hrow & E).
  assert (Hin : row ∈ rows_labelled qdf l).
  { unfold rows_labelled. apply list_elem_of_In, filter_In. split.
    - apply list_elem_of_In, Hrow.
    - apply bool_decide_eq_true, E. }
  destruct (rows_labelled qdf l); [apply elem_of_nil in Hin; destruct Hin|simpl; lia].
Qed.

(** X6.  In every category of the report the sub-categories have distinct
    names, each holds at least one item and counts its items, the
    flattened item list is the concatenation of the sub-categories' items,
    and it has one item per index row of the area that carries a
    sub-category label. *)
Theorem subcategories_structure (df : DataFrame) (idx : list IndexEntry)
    (big : pystr) (c : Category) :
  process_category df idx big = Some c ->
  title c = big /\
  NoDup (sub_name <$> subcategories c) /\
  Forall (fun sub => item_count sub = length (sub_items sub) /\ 1 <= item_count sub)
         (subcategories c) /\
  cat_items c = concat (sub_items <$> subcategories c) /\
  length (cat_items c) = length (labelled_rows (area_rows idx big)).
Proof using Type.
  unfold process_category. intros H.
  assert (Hc : c = mkCat big (rounded_mean (all_scores df (area_rows idx big)))
                  (fst <$> (process_subcategory df (area_rows idx big)
                              <$> sub_labels (area_rows idx big)))
                  (concat (sub_items <$> (fst <$> (process_subcategory df (area_rows idx big)
                              <$> sub_labels (area_rows idx big)))))).
  { destruct (area_rows idx big); [discriminate H|]. congruence. }
  subst c. cbn [title subcategories cat_items].
  split; [reflexivity|]. split; [|split; [|split]].
  - rewrite <- !list_fmap_compose.
    rewrite (list_fmap_ext _ id (sub_labels (area_rows idx big))).
    + rewrite list_fmap_id. apply unique_NoDup.
    + intros i l _. unfold compose. rewrite process_subcategory_unfold. reflexivity.
  - apply Forall_fmap, Forall_fmap, Forall_forall. intros l Hl. unfold compose.
    rewrite process_subcategory_unfold. cbn [fst item_count sub_items].
    rewrite length_fmap. split; [reflexivity|]. apply rows_labelled_nonempty, Hl.
  - reflexivity.
  - rewrite (Permutation_length (cat_items_Permutation df (area_rows idx big))).
    apply length_fmap.
Qed.

(** *** Free-text blocks *)

Lemma record_used_size (answers : list pystr) :
  forall G : gset pystr,
    G ⊆ record_used G answers /\ size (record_used G answers) <= size G + length answers.
Proof using Type.
  only_used.
  unfold record_used.
  induction answers as [|a answers IH]; intros G; cbn [foldl length].
  - split; [reflexivity|lia].
  - destruct (IH ({[normalize a]} ∪ G)) as [I1 I2]. split.
    + etrans; [|exact I1]. apply union_subseteq_r.
    + etrans; [exact I2|].
      rewrite size_union_alt, size_singleton.
      pose proof (subseteq_size (G ∖ {[normalize a]}) G) as Hs.
      assert (G ∖ {[normalize a]} ⊆ G) as Hsub
        by (intros x [Hx _]%elem_of_difference; exact Hx).
      specialize (Hs Hsub). lia.
Qed.

(** X7.  A call only adds to the shared set of used sentences, at most
    three entries, and every entry it adds is the normal form of one of
    the first three answers it returns. *)
Theorem shared_set_grows (raw : list pystr) (G : gset pystr) :
  G ⊆ snd (preprocess_answer_list raw G) /\
  size (snd (preprocess_answer_list raw G)) <= size G + 3 /\
  (forall s, s ∈ snd (preprocess_answer_list raw G) -> s ∉ G ->
             exists a, a ∈ take 3 (fst (preprocess_answer_list raw G)) /\ s = normalize a).
Proof using Type.
  rewrite preprocess_answer_list_snd.
  destruct (record_used_size (take 3 (fst (preprocess_answer_list raw G))) G) as [H1 H2].
  split; [exact H1|]. split.
  - etrans; [exact H2|]. rewrite length_take. lia.
  - intros s Hs Hn. apply record_used_elem_of in Hs. destruct Hs as [Hs|Hs]; [contradiction|exact Hs].
Qed.

Lemma answered_true (df : DataFrame) (col : pystr) :
  answered df col = true <-> has_column df col = true /\ answers_of_column df col <> [].
Proof using Type.
  unfold answered. rewrite andb_true_iff.
  destruct (answers_of_column df col); split; intros [H1 H2]; split; try done.
Qed.

Lemma question_step_blocks (df : DataFrame) (h : option pystr) (t : pystr)
    (c : option pystr) (col : pystr) (st : list Block * gset pystr) :
  Forall (fun b => length (blk_answers b) <= 20) st.1 ->
  Forall (fun b => length (blk_answers b) <= 20) (question_step df (mkBlock h t c) col st).1 /\
  block_key <$> (question_step df (mkBlock h t c) col st).1
  = (block_key <$> st.1) ++ (if answered df col then [(h, t, c)] else []).
Proof using Type.
  intros Hst.
  destruct (answered df col) eqn:Ha.
  - apply answered_true in Ha. destruct Ha as [Hc Hr].
    rewrite (question_step_unfold df _ col st Hc Hr). cbn [fst]. split.
    + apply Forall_app. split; [exact Hst|]. constructor; [|constructor].
      cbn [blk_answers]. rewrite preprocess_answer_list_fst. apply longest_twenty_length.
    + rewrite fmap_app. reflexivity.
  - rewrite question_step_skip.
    + split; [exact Hst|]. rewrite app_nil_r. reflexivity.
    + destruct (has_column df col) eqn:Hc; [right|left; reflexivity].
      destruct (decide (answers_of_column df col = [])) as [E|E]; [exact E|].
      assert (answered df col = true) as Ht by (apply answered_true; split; assumption).
      congruence.
Qed.

Lemma subjective_loop_blocks (df : DataFrame) (items : list IndexEntry) :
  forall st,
    Forall (fun b => length (blk_answers b) <= 20) st.1 ->
    Forall (fun b => length (blk_answers b) <= 20) (foldl (subjective_step df) st items).1 /\
    block_key <$> (foldl (subjective_step df) st items).1
    = (block_key <$> st.1)
      ++ (item_key <$> List.filter (fun item => answered df (header_name item)) items).
Proof using Type.
  induction items as [|item items IH]; intros st Hst; cbn [foldl List.filter].
  - split; [exact Hst|]. rewrite app_nil_r. reflexivity.
  - destruct (question_step_blocks df (Some (header_name item)) (question_name item)
                (minor_category item) (header_name item) st Hst) as [Q1 Q2].
    fold (subjective_step df st item) in Q1, Q2.
    destruct (IH _ Q1) as [I1 I2]. split; [exact I1|].
    rewrite I2, Q2. destruct (answered df (header_name item)).
    + rewrite <- app_assoc. reflexivity.
    + rewrite app_nil_r. reflexivity.
Qed.

Lemma fallback_loop_blocks (df : DataFrame) (cols : list pystr) :
  forall st,
    Forall (fun b => length (blk_answers b) <= 20) st.1 ->
    Forall (fun b => length (blk_answers b) <= 20) (foldl (fallback_step df) st cols).1 /\
    block_key <$> (foldl (fallback_step df) st cols).1
    = (block_key <$> st.1)
      ++ ((fun col => (None, col, None)) <$> List.filter (answered df) cols).
Proof using Type.
  induction cols as [|col cols IH]; intros st Hst; cbn [foldl List.filter].
  - split; [exact Hst|]. rewrite app_nil_r. reflexivity.
  - destruct (question_step_blocks df None col None col st Hst) as [Q1 Q2].
    fold (fallback_step df st col) in Q1, Q2.
    destruct (IH _ Q1) as [I1 I2]. split; [exact I1|].
    rewrite I2, Q2. destruct (answered df col).
    + rewrite <- app_assoc. reflexivity.
    + rewrite app_nil_r. reflexivity.
Qed.

(** X8.  The free-text section holds one block for each free-text item
    whose column is in the table and has a value, in the order of the
    reference index (of the four fallback columns when the index cannot be
    read); a block has at most twenty answers; the advanced analysis is
    made exactly when the index was read, the table is company-level and
    there is a block; without a block there is no comprehensive analysis. *)
Theorem open_ended_blocks (env : Env) (df : DataFrame) (is_company_level : bool) :
  let oe := build_structured_open_ended env df is_company_level in
  Forall (fun b => length (blk_answers b) <= 20) (basic_responses oe) /\
  block_key <$> basic_responses oe
  = match reference_index env with
    | Some ref_df =>
        item_key <$> List.filter (fun item => answered df (header_name item))
                       (subjective_items ref_df)
    | None =>
        (fun col => (None, col, None))
          <$> List.filter (answered df) [py "NO40"; py "NO41"; py "NO42"; py "NO43"]
    end /\
  (is_Some (advanced_analysis oe)
   <-> is_Some (reference_index env) /\ is_company_level = true /\ basic_responses oe <> []) /\
  (basic_responses oe = [] -> comprehensive_analysis oe = None).
Proof using Type.
  unfold build_structured_open_ended.
  destruct (reference_index env) as [ref_df|]; cbn zeta.
  - fold (subjective_items ref_df).
    destruct (subjective_loop_blocks df (subjective_items ref_df) ([], ∅)) as [L1 L2];
      [constructor|].
    cbn [basic_responses advanced_analysis comprehensive_analysis].
    split; [exact L1|]. split; [exact L2|]. split.
    + destruct (foldl (subjective_step df) ([], ∅) (subjective_items ref_df)).1 as [|b bs].
      * split; [intros [x Hx]; discriminate Hx|intros (_ & _ & H); contradiction].
      * destruct is_company_level.
        -- split; [intros _; split; [eexists; reflexivity|split; [reflexivity|discriminate]]
                  |intros _; eexists; reflexivity].
        -- split; [intros [x Hx]; discriminate Hx|intros (_ & H & _); discriminate H].
    + intros ->. reflexivity.
  - destruct (fallback_loop_blocks df [py "NO40"; py "NO41"; py "NO42"; py "NO43"] ([], ∅))
      as [L1 L2]; [constructor|].
    cbn [basic_responses advanced_analysis comprehensive_analysis].
    split; [exact L1|]. split; [exact L2|]. split.
    + split; [intros [x Hx]; discriminate Hx|intros ([x Hx] & _); discriminate Hx].
    + intros ->. reflexivity.
Qed.

(** *** The unit grouper on any column *)

Lemma List_filter_sublist {A} (p : A -> bool) (l : list A) :
  List.filter p l `sublist_of` l.
Proof using Type.
  only_used.
  induction l as [|x l IH]; cbn [List.filter]; [constructor|].
  destruct (p x); [apply sublist_skip|apply sublist_cons]; exact IH.
Qed.

Lemma dict_set_NoDup {V : Type} (key : pystr) (value : V) (d : list (pystr * V)) :
  NoDup d.*1 -> NoDup (dict_set key value d).*1.
Proof using Type.
  only_used.
  induction d as [|[k v] d IH]; cbn [dict_set fmap list_fmap fst]; intros H.
  - constructor; [apply not_elem_of_nil|constructor].
  - apply NoDup_cons in H. destruct H as [Hk Hd].
    destruct (decide (k = key)) as [->|Hne]; cbn [fmap list_fmap fst].
    + apply NoDup_cons. split; assumption.
    + apply NoDup_cons. split; [|apply IH, Hd].
      intros Hin. apply Hk. clear IH Hk Hd.
      induction d as [|[k' v'] d IHd]; cbn [dict_set fmap list_fmap fst] in Hin |- *.
      * apply list_elem_of_singleton in Hin. congruence.
      * destruct (decide (k' = key)) as [->|Hne']; cbn [fmap list_fmap fst] in Hin.
        -- exact Hin.
        -- apply elem_of_cons in Hin. destruct Hin as [->|Hin]; [left|right; apply IHd, Hin].
Qed.

Lemma dict_set_Forall {V : Type} (P : pystr * V -> Prop) (key : pystr) (value : V)
    (d : list (pystr * V)) :
  P (key, value) -> Forall P d -> Forall P (dict_set key value d).
Proof using Type.
  only_used.
  intros Hn. induction d as [|[k v] d IH]; cbn [dict_set]; intros H.
  - constructor; [exact Hn|constructor].
  - apply Forall_cons in H. destruct H as [Hk Hd].
    destruct (decide (k = key)) as [->|Hne]; constructor; auto.
Qed.

Lemma team_loop_well_formed (df : DataFrame) (gs : list (Cell * DataFrame)) :
  forall acc : list (pystr * DataFrame),
    Forall (fun g => sub_table df g.2) gs ->
    NoDup acc.*1 ->
    Forall (fun g => sub_table df g.2 /\ 3 <= len_df g.2) acc ->
    NoDup (foldl team_step acc gs).*1 /\
    Forall (fun g => sub_table df g.2 /\ 3 <= len_df g.2) (foldl team_step acc gs).
Proof using Type.
  induction gs as [|[k sub] gs IH]; intros acc Hgs Hn Hacc; cbn [foldl].
  - split; assumption.
  - apply Forall_cons in Hgs. destruct Hgs as [Hsub Hgs]. cbn [snd] in Hsub.
    unfold team_step at 2 4. destruct (len_df sub <? 3) eqn:E.
    + apply IH; assumption.
    + apply Nat.ltb_ge in E. apply IH; [exact Hgs|apply dict_set_NoDup, Hn|].
      apply dict_set_Forall; [split; assumption|exact Hacc].
Qed.

Lemma whole_organization_well_formed (df : DataFrame) :
  whole_organization df <> [] /\ NoDup (whole_organization df).*1 /\
  Forall (fun g => sub_table df g.2) (whole_organization df).
Proof using Type.
  only_used.
  unfold whole_organization. split; [discriminate|]. split.
  - cbn [fmap list_fmap fst]. apply NoDup_singleton.
  - constructor; [|constructor]. split; reflexivity.
Qed.

Lemma group_data_by_unit_well_formed (df : DataFrame) (group_type : pystr)
    (group_column : option pystr) :
  let messages : list UiMessage := fst (group_data_by_unit df group_type group_column) in
  let groups := snd (group_data_by_unit df group_type group_column) in
  groups <> [] /\
  NoDup groups.*1 /\
  Forall (fun g => sub_table df g.2) groups /\
  (groups = whole_organization df
   \/ messages = [] /\ Forall (fun g => 3 <= len_df g.2) groups) /\
  (messages <> [] -> group_type = py "팀별" /\ groups = whole_organization df).
Proof using Type.
  assert (W : forall msgs : list UiMessage,
             (msgs <> [] -> group_type = py "팀별") ->
             let messages : list UiMessage := fst (msgs, whole_organization df) in
             let groups := snd (msgs, whole_organization df) in
             groups <> [] /\ NoDup groups.*1 /\
             Forall (fun g => sub_table df g.2) groups /\
             (groups = whole_organization df
              \/ messages = [] /\ Forall (fun g => 3 <= len_df g.2) groups) /\
             (messages <> [] -> group_type = py "팀별" /\ groups = whole_organization df)).
  { intros msgs Hm. cbn [fst snd].
    destruct (whole_organization_well_formed df) as (W1 & W2 & W3).
    split; [exact W1|]. split; [exact W2|]. split; [exact W3|].
    split; [left; reflexivity|]. intros H. split; [apply Hm, H|reflexivity]. }
  unfold group_data_by_unit.
  destruct (decide (group_type = py "전체")) as [E1|E1]; [apply W; intros H; contradiction|].
  destruct (decide (group_type = py "팀별")) as [E2|E2]; [|apply W; intros H; contradiction].
  destruct group_column as [[|c col']|]; [apply W; intros _; exact E2| |apply W; intros _; exact E2].
  destruct (has_column df (c :: col')); [|apply W; intros _; exact E2].
  destruct (team_loop_well_formed df (groupby df (c :: col')) []) as [L1 L2].
  { unfold groupby. apply Forall_fmap, Forall_forall. intros k _. cbn [snd].
    split; [reflexivity|]. apply List_filter_sublist. }
  { constructor. }
  { constructor. }
  destruct (foldl team_step [] (groupby df (c :: col'))) as [|g gs] eqn:Eg;
    [apply W; intros _; exact E2|].
  cbn [fst snd]. split; [discriminate|]. split; [exact L1|]. split.
  - eapply Forall_impl; [exact L2|]. intros x [H _]. exact H.
  - split; [|intros H; contradiction]. right. split; [reflexivity|].
    eapply Forall_impl; [exact L2|]. intros x [_ H]. exact H.
Qed.

(** X9.  Whatever the column holds, the grouper returns at least one
    group, under distinct names, each a selection of rows of the table
    with the table's columns; either the groups are the whole organisation
    alone, or no message was shown and every group has at least three
    rows; a message is shown only in team mode and always comes with the
    whole organisation. *)
Theorem unit_groups_well_formed (df : DataFrame) (group_type : pystr)
    (group_column : option pystr) :
  let messages : list UiMessage := fst (group_data_by_unit df group_type group_column) in
  let groups := snd (group_data_by_unit df group_type group_column) in
  groups <> [] /\
  NoDup groups.*1 /\
  Forall (fun g => sub_table df g.2) groups /\
  (groups = whole_organization df
   \/ messages = [] /\ Forall (fun g => 3 <= len_df g.2) groups) /\
  (messages <> [] -> group_type = py "팀별" /\ groups = whole_organization df).
Proof using Type.
  exact (group_data_by_unit_well_formed df group_type group_column).
Qed.

(** *** Replacement of error texts *)

Lemma dict_get_elem_of {V : Type} (key : pystr) (d : list (pystr * V)) (v : V) :
  dict_get key d = Some v -> v ∈ d.*2.
Proof using Type.
  only_used.
  induction d as [|[k w] d IH]; cbn [dict_get fmap list_fmap snd]; [discriminate|].
  destruct (decide (k = key)); intros H.
  - injection H as ->. left.
  - right. apply IH, H.
Qed.

Lemma no_error_pattern_spec (text : pystr) :
  existsb (fun pattern => str_in pattern text) error_patterns = false
  <-> Forall (fun pattern => str_in pattern text = false) error_patterns.
Proof using Type.
  only_used.
  induction error_patterns as [|p ps IH]; cbn [existsb].
  - split; [constructor|reflexivity].
  - rewrite orb_false_iff, Forall_cons, IH. reflexivity.
Qed.

Lemma fallback_response_clean (field_type : pystr) :
  existsb (fun pattern => str_in pattern (_generate_fallback_response field_type))
    error_patterns = false.
Proof using Type.
  only_used.
  assert (H : _generate_fallback_response field_type
              ∈ default_fallback_response :: fallback_responses.*2).
  { unfold _generate_fallback_response at 1.
    destruct (dict_get field_type fallback_responses) as [v|] eqn:E.
    - right. apply (dict_get_elem_of _ _ _ E).
    - left. }
  assert (A : forallb (fun response =>
                negb (existsb (fun pattern => str_in pattern response) error_patterns))
              (default_fallback_response :: fallback_responses.*2) = true)
    by (vm_compute; reflexivity).
  rewrite forallb_forall in A. apply negb_true_iff, A, list_elem_of_In, H.
Qed.

(** X14.  The text returned for a field holds none of the four error
    phrases, whatever the text and the field are; so replacing a second
    time changes nothing. *)
Theorem natural_response_has_no_error_phrase (text field_type : pystr) :
  Forall (fun pattern =>
            str_in pattern (_convert_error_to_natural_response text field_type) = false)
         error_patterns /\
  _convert_error_to_natural_response
    (_convert_error_to_natural_response text field_type) field_type
  = _convert_error_to_natural_response text field_type.
Proof using Type.
  assert (H : existsb (fun pattern =>
                str_in pattern (_convert_error_to_natural_response text field_type))
              error_patterns = false).
  { unfold _convert_error_to_natural_response.
    destruct text as [|c text]; [vm_compute; reflexivity|].
    destruct (existsb (fun pattern => str_in pattern (c :: text)) error_patterns) eqn:E;
      [apply fallback_response_clean|exact E]. }
  split; [apply no_error_pattern_spec, H|].
  unfold _convert_error_to_natural_response at 1.
  rewrite H. destruct (_convert_error_to_natural_response text field_type); reflexivity.
Qed.

(** *** Team potential types *)

Lemma trait_types_get :
  dict_get (py "혁신성") trait_types = Some (py "창조혁신형") /\
  dict_get (py "안정성") trait_types = Some (py "체계안정형") /\
  dict_get (py "협력성") trait_types = Some (py "소통협력형") /\
  dict_get (py "성과지향") trait_types = Some (py "목표달성형").
Proof using Type.
  only_used.
  repeat split; vm_compute; reflexivity.
Qed.

Ltac split_tests :=
  repeat (match goal with
          | |- context [(?x =? ?y)%Z] => destruct (Z.eqb_spec x y); try lia
          | |- context [(?x <? ?y)%Z] => destruct (Z.ltb_spec x y); try lia
          end; cbn [andb orb negb]).

Lemma classify_four_traits (a b c d : Z) :
  (0 <= a)%Z -> (0 <= b)%Z -> (0 <= c)%Z -> (0 <= d)%Z ->
  classify_team_potential_type
    [(py "혁신성", a); (py "안정성", b); (py "협력성", c); (py "성과지향", d)]
  = Returns (team_type_by_rule a b c d).
Proof using Type.
  only_used.
  intros Ha Hb Hc Hd.
  destruct trait_types_get as (T1 & T2 & T3 & T4).
  unfold classify_team_potential_type.
  cbn [fmap list_fmap snd foldl List.filter].
  set (m := Z.max (Z.max (Z.max a b) c) d).
  assert (Hm : m = Z.max (Z.max (Z.max a b) c) d) by reflexivity.
  clearbody m.
  unfold team_type_by_rule, strictly_highest.
  destruct (Z.eqb_spec m 0) as [E0|E0].
  - split_tests. reflexivity.
  - destruct (Z.eqb_spec a m) as [Ea|Ea]; destruct (Z.eqb_spec b m) as [Eb|Eb];
      destruct (Z.eqb_spec c m) as [Ec|Ec]; destruct (Z.eqb_spec d m) as [Ed|Ed];
      try lia;
      cbn [fmap list_fmap fst length Nat.ltb Nat.leb];
      rewrite ?T1, ?T2, ?T3, ?T4; cbn [default];
      split_tests; reflexivity.
Qed.

(** X13.  For the keyword counts of a team the classification always
    returns, and follows a rule on the four counts: no hit gives 미분류형,
    one trait above the three others gives the type of that trait, a tie
    at the top gives 복합형.  The default type 균형형 is never returned. *)
Theorem team_potential_type_by_rule (team_responses : list pystr) :
  classify_team_potential_type (trait_scores team_responses)
  = Returns (team_type_by_rule
               (keyword_hits innovation_keywords team_responses)
               (keyword_hits stability_keywords team_responses)
               (keyword_hits collaboration_keywords team_responses)
               (keyword_hits performance_keywords team_responses)) /\
  classify_team_potential_type (trait_scores team_responses) <> Returns (py "균형형").
Proof using Type.
  assert (H : classify_team_potential_type (trait_scores team_responses)
              = Returns (team_type_by_rule
                           (keyword_hits innovation_keywords team_responses)
                           (keyword_hits stability_keywords team_responses)
                           (keyword_hits collaboration_keywords team_responses)
                           (keyword_hits performance_keywords team_responses))).
  { unfold trait_scores. apply classify_four_traits; apply Nat2Z.is_nonneg. }
  split; [exact H|]. rewrite H.
  unfold team_type_by_rule.
  repeat match goal with |- context [if ?b then _ else _] => destruct b end;
    intros E; injection E as E; vm_compute in E; discriminate E.
Qed.

(** *** Reports of several units *)

Lemma is_prefix_app (p s t : pystr) :
  is_prefix p s = true -> is_prefix p (s ++ t) = true.
Proof using Type.
  only_used.
  revert s. induction p as [|a p IH]; intros s H; [reflexivity|].
  destruct s as [|b s]; [discriminate H|]. cbn [is_prefix app] in H |- *.
  apply andb_true_iff in H. destruct H as [H1 H2].
  rewrite H1, (IH _ H2). reflexivity.
Qed.

Lemma split_once_before (sep s : pystr) :
  exists rest, s = (split_once sep s).1 ++ rest
               /\ (rest = [] \/ is_prefix sep rest = true).
Proof using Type.
  only_used.
  induction s as [|c r IH]; cbn [split_once].
  - destruct (is_prefix sep []) eqn:E; exists []; split; auto.
  - destruct (is_prefix sep (c :: r)) eqn:E.
    + exists (c :: r). split; [reflexivity|right; exact E].
    + destruct IH as (rest & H1 & H2). destruct (split_once sep r) as [before after].
      exists rest. cbn [fst] in H1 |- *. split; [rewrite H1 at 1; reflexivity|exact H2].
Qed.

Lemma split_once_no_sep (sep s : pystr) :
  sep <> [] -> str_in sep (split_once sep s).1 = false.
Proof using Type.
  only_used.
  intros Hsep.
  assert (Hnil : str_in sep [] = false) by (destruct sep; [contradiction|reflexivity]).
  induction s as [|c r IH]; cbn [split_once].
  - destruct (is_prefix sep []); exact Hnil.
  - destruct (is_prefix sep (c :: r)) eqn:E; [exact Hnil|].
    destruct (split_once_before sep r) as (rest & H1 & _).
    destruct (split_once sep r) as [before after]. cbn [fst] in IH, H1 |- *.
    cbn [str_in]. rewrite IH, orb_false_r.
    destruct (is_prefix sep (c :: before)) eqn:P; [|reflexivity].
    apply (is_prefix_app _ _ rest) in P. cbn [app] in P. rewrite <- H1 in P. congruence.
Qed.

(** X15.  The organisation name taken from a set of reports never
    contains the separator " - ": it is the organisation name of the first
    report, cut before the first " - " when there is one; without any
    report it is 조직. *)
Theorem organization_name_cut_at_separator (reports : list (pystr * UnitReport)) :
  str_in (py " - ") (get_organization_name_from_reports reports) = false /\
  match reports with
  | [] => get_organization_name_from_reports reports = py "조직"
  | (_, first_report) :: _ =>
      exists rest,
        organization_name (unit_report first_report)
        = get_organization_name_from_reports reports ++ rest
        /\ (rest = [] \/ is_prefix (py " - ") rest = true)
  end.
Proof using Type.
  unfold get_organization_name_from_reports.
  destruct reports as [|[k r] reports]; [split; [vm_compute|]; reflexivity|].
  destruct (str_in (py " - ") (organization_name (unit_report r))) eqn:E.
  - split; [apply split_once_no_sep; discriminate|]. apply split_once_before.
  - split; [exact E|]. exists []. rewrite app_nil_r. split; [reflexivity|left; reflexivity].
Qed.

Lemma report_loop (env_of : pystr -> Env) (index_df : list IndexEntry)
    (company : option pystr) (gs : list (pystr * DataFrame)) :
  forall acc : list (pystr * UnitReport),
    NoDup (acc.*1 ++ gs.*1) ->
    foldl (report_step env_of index_df company) acc gs
    = acc ++ ((fun g => (g.1, group_report env_of index_df company g.1 g.2))
                <$> reported index_df gs).
Proof using Type.
  induction gs as [|[name gdf] gs IH]; intros acc H; cbn [foldl].
  - unfold reported. cbn [List.filter fmap list_fmap]. rewrite app_nil_r. reflexivity.
  - cbn [fmap list_fmap fst snd] in H. apply NoDup_app in H. destruct H as (H1 & H2 & H3).
    apply NoDup_cons in H3. destruct H3 as [H3 H4].
    unfold report_step at 2. unfold reported. cbn [List.filter snd].
    destruct (build_report_raises gdf index_df); cbn [negb].
    + apply IH. apply NoDup_app. split; [exact H1|]. split; [|exact H4].
      intros x Hx Hin. apply (H2 x Hx). right. exact Hin.
    + rewrite dict_set_fresh.
      * fold (reported index_df gs). rewrite IH.
        -- cbn [fmap list_fmap fst snd]. rewrite <- app_assoc. reflexivity.
        -- rewrite fmap_app. cbn [fmap list_fmap fst]. rewrite <- app_assoc. cbn [app].
           apply NoDup_app. split; [exact H1|]. split; [|constructor; assumption].
           intros x Hx Hin. apply (H2 x Hx). exact Hin.
      * intros Hin. apply (H2 name Hin). left.
Qed.

Lemma build_multiple_reports_fmap (env_of : pystr -> Env)
    (grouped_data : list (pystr * DataFrame)) (index_df : list IndexEntry)
    (company dept : option pystr) :
  NoDup grouped_data.*1 ->
  build_multiple_reports env_of grouped_data index_df company dept
  = (fun g => (g.1, group_report env_of index_df company g.1 g.2))
      <$> reported index_df grouped_data.
Proof using Type.
  intros H. unfold build_multiple_reports. rewrite report_loop; [reflexivity|exact H].
Qed.

Lemma group_report_fields (env_of : pystr -> Env) (index_df : list IndexEntry)
    (company : option pystr) (name : pystr) (gdf : DataFrame) :
  let r := group_report env_of index_df company name gdf in
  respondents (unit_report r) = len_df gdf /\
  is_total_organization r = bool_decide (name = py "전체 조직") /\
  (name <> py "전체 조직" -> organization_name (unit_report r) = name) /\
  unit_report r
  = with_names (build_report (env_of name) gdf index_df)
      (organization_name (unit_report r)) (dept_name (unit_report r)).
Proof using Type.
  unfold group_report.
  destruct (bool_decide (name = py "전체 조직")) eqn:E; cbn [negb unit_report is_total_organization].
  - split; [reflexivity|]. split; [reflexivity|]. split; [|reflexivity].
    intros H. apply bool_decide_eq_true in E. contradiction.
  - split; [reflexivity|]. split; [reflexivity|]. split; reflexivity.
Qed.

Lemma reported_elem_of (index_df : list IndexEntry) (gs : list (pystr * DataFrame))
    (g : pystr * DataFrame) :
  g ∈ reported index_df gs <-> g ∈ gs /\ build_report_raises g.2 index_df = false.
Proof using Type.
  unfold reported. rewrite list_elem_of_In, filter_In, <- list_elem_of_In, negb_true_iff.
  reflexivity.
Qed.

(** X16.  From groups under distinct names the builder makes one report
    for each group on which [build_report] returns, in the order of the
    groups and under their names, and none for a group on which it
    raises.  A report counts the rows of its group, is flagged as the
    whole organisation exactly when its group is named 전체 조직, carries
    the group's name as organisation name otherwise, and differs from
    what [build_report] gives for the group in its two names only. *)
Theorem multiple_reports_per_group (env_of : pystr -> Env)
    (grouped_data : list (pystr * DataFrame)) (index_df : list IndexEntry)
    (detected_company_name detected_dept_name : option pystr) :
  NoDup grouped_data.*1 ->
  Forall2 (fun g r =>
             r.1 = g.1 /\
             respondents (unit_report r.2) = len_df g.2 /\
             is_total_organization r.2 = bool_decide (g.1 = py "전체 조직") /\
             (g.1 <> py "전체 조직" -> organization_name (unit_report r.2) = g.1) /\
             unit_report r.2
             = with_names (build_report (env_of g.1) g.2 index_df)
                 (organization_name (unit_report r.2)) (dept_name (unit_report r.2)))
          (reported index_df grouped_data)
          (build_multiple_reports env_of grouped_data index_df
             detected_company_name detected_dept_name) /\
  (forall g, g ∈ reported index_df grouped_data
             <-> g ∈ grouped_data /\ build_report_raises g.2 index_df = false) /\
  reported index_df grouped_data `sublist_of` grouped_data.
Proof using Type.
  intros H. rewrite build_multiple_reports_fmap by exact H. split; [|split].
  - apply Forall2_fmap_r, Forall_Forall2_diag, Forall_forall. intros [name gdf] _.
    cbn [fst snd]. split; [reflexivity|]. apply group_report_fields.
  - intros g. apply reported_elem_of.
  - apply List_filter_sublist.
Qed.

(** X17.  The reports built from what the grouper returns carry the names
    of the groups on which [build_report] returns, in their order; there
    is none exactly when it raises on every group; none counts more rows
    than the table has, and each either counts every row of the table or
    counts at least three. *)
Theorem reports_of_grouped_units (env_of : pystr -> Env) (df : DataFrame)
    (group_type : pystr) (group_column : option pystr) (index_df : list IndexEntry)
    (detected_company_name detected_dept_name : option pystr) :
  let groups := snd (group_data_by_unit df group_type group_column) in
  let reports := build_multiple_reports env_of groups index_df
                   detected_company_name detected_dept_name in
  reports.*1 = (reported index_df groups).*1 /\
  (reports = [] <-> Forall (fun g => build_report_raises g.2 index_df = true) groups) /\
  Forall (fun r => respondents (unit_report r.2) <= len_df df /\
                   (respondents (unit_report r.2) = len_df df
                    \/ 3 <= respondents (unit_report r.2)))
         reports.
Proof using Type.
  destruct (group_data_by_unit_well_formed df group_type group_column)
    as (W1 & W2 & W3 & W4 & _).
  cbn zeta. rewrite build_multiple_reports_fmap by exact W2.
  set (groups := (group_data_by_unit df group_type group_column).2) in *.
  split; [|split].
  - rewrite <- list_fmap_compose. apply list_fmap_ext. intros i [name gdf] _. reflexivity.
  - split.
    + intros E. apply fmap_nil_inv in E. apply Forall_forall. intros g Hg.
      destruct (build_report_raises g.2 index_df) eqn:Er; [reflexivity|].
      assert (Hin : g ∈ reported index_df groups) by (apply reported_elem_of; split; assumption).
      rewrite E in Hin. apply elem_of_nil in Hin. destruct Hin.
    + intros Hall. destruct (reported index_df groups) as [|g gs] eqn:E; [reflexivity|].
      assert (Hin : g ∈ reported index_df groups) by (rewrite E; left).
      apply reported_elem_of in Hin. destruct Hin as [Hg Hr].
      rewrite Forall_forall in Hall. rewrite (Hall g Hg) in Hr. discriminate Hr.
  - apply Forall_fmap, Forall_forall. intros [name gdf] Hg. cbn [fst snd compose].
    apply reported_elem_of in Hg. destruct Hg as [Hg _].
    destruct (group_report_fields env_of index_df detected_company_name name gdf) as [-> _].
    assert (Hsub : sub_table df gdf).
    { rewrite Forall_forall in W3. apply (W3 _ Hg). }
    split; [apply sublist_length, Hsub|].
    destruct W4 as [W4|[_ W4]].
    + rewrite W4 in Hg. apply list_elem_of_singleton in Hg. injection Hg as _ ->. left. reflexivity.
    + right. rewrite Forall_forall in W4. apply (W4 _ Hg).
Qed.

(** X18.  With teams under distinct names, the organisation name taken
    from the reports is the name of the first team on which
    [build_report] returns (cut before its first " - "), not the detected
    company name; it is 조직 when [build_report] raises on every team. *)
Theorem organization_name_of_team_reports (env_of : pystr -> Env)
    (grouped_data : list (pystr * DataFrame))
    (index_df : list IndexEntry) (detected_company_name detected_dept_name : option pystr) :
  NoDup grouped_data.*1 ->
  Forall (fun g => g.1 <> py "전체 조직") grouped_data ->
  get_organization_name_from_reports
    (build_multiple_reports env_of grouped_data index_df
       detected_company_name detected_dept_name)
  = match reported index_df grouped_data with
    | [] => py "조직"
    | (name, _) :: _ =>
        if str_in (py " - ") name then (split_once (py " - ") name).1 else name
    end.
Proof using Type.
  intros H Hn. rewrite build_multiple_reports_fmap by exact H.
  destruct (reported index_df grouped_data) as [|[name gdf] gs] eqn:E; [reflexivity|].
  cbn [fmap list_fmap fst snd]. unfold get_organization_name_from_reports.
  assert (Hin : (name, gdf) ∈ reported index_df grouped_data) by (rewrite E; left).
  apply reported_elem_of in Hin. destruct Hin as [Hin _].
  rewrite Forall_forall in Hn. specialize (Hn _ Hin). cbn [fst] in Hn.
  destruct (group_report_fields env_of index_df detected_company_name name gdf)
    as (_ & _ & Ho & _).
  rewrite (Ho Hn). reflexivity.
Qed.

(** *** Masked texts *)

Lemma star_text : py "＊" = [star].
Proof using Type. only_used. reflexivity. Qed.

Lemma str_repeat_star (k : nat) : str_repeat (py "＊") k = replicate k star.
Proof using Type.
  only_used.
  rewrite star_text. unfold str_repeat.
  induction k as [|k IH]; [reflexivity|]. cbn [replicate concat app]. rewrite IH. reflexivity.
Qed.

Lemma isspace_star : isspace star = false.
Proof using Type. only_used. reflexivity. Qed.

Lemma lstrip_spaces (s : pystr) :
  exists sp, Forall (fun c => isspace c = true) sp /\ s = sp ++ lstrip s.
Proof using Type.
  only_used.
  induction s as [|c r IH]; [exists []; split; [constructor|reflexivity]|].
  cbn [lstrip]. destruct (isspace c) eqn:E.
  - destruct IH as (sp & H1 & H2). exists (c :: sp). split; [constructor; assumption|].
    cbn [app]. rewrite <- H2. reflexivity.
  - exists []. split; [constructor|reflexivity].
Qed.

Lemma lstrip_head (s : pystr) :
  match lstrip s with [] => True | c :: _ => isspace c = false end.
Proof using Type.
  only_used.
  induction s as [|c r IH]; [exact I|]. cbn [lstrip].
  destruct (isspace c) eqn:E; [exact IH|exact E].
Qed.

Lemma lstrip_id (c : N) (r : pystr) : isspace c = false -> lstrip (c :: r) = c :: r.
Proof using Type.
  only_used.
  intros H. cbn [lstrip]. rewrite H. reflexivity.
Qed.

Lemma rstrip_spaces (s : pystr) :
  exists sp, Forall (fun c => isspace c = true) sp /\ s = rstrip s ++ sp.
Proof using Type.
  only_used.
  destruct (lstrip_spaces (rev s)) as (sp & H1 & H2).
  exists (rev sp). split; [apply Forall_rev, H1|].
  unfold rstrip. rewrite <- rev_app_distr, <- H2, rev_involutive. reflexivity.
Qed.

Lemma strip_word (w : pystr) : is_word w -> strip w = w.
Proof using Type.
  only_used.
  intros [Hne Hw]. unfold strip, rstrip.
  destruct w as [|c r]; [contradiction|].
  rewrite lstrip_id by (apply Forall_cons in Hw; apply Hw).
  assert (Hr : Forall (fun c => isspace c = false) (rev (c :: r))) by (apply Forall_rev, Hw).
  destruct (rev (c :: r)) as [|z t] eqn:E.
  - apply (f_equal (@length N)) in E. rewrite length_rev in E. discriminate E.
  - rewrite lstrip_id by (apply Forall_cons in Hr; apply Hr).
    rewrite <- E, rev_involutive. reflexivity.
Qed.

(** The first and the last character of a stripped text are not white
    space. *)
Lemma strip_ends (s : pystr) :
  strip s = [] \/
  exists a, (strip s = [a] /\ isspace a = false) \/
            exists mid z, strip s = a :: mid ++ [z] /\ isspace a = false /\ isspace z = false.
Proof using Type.
  only_used.
  unfold strip, rstrip.
  pose proof (lstrip_head s) as Hh.
  destruct (lstrip s) as [|a r] eqn:El; [left; reflexivity|]. right.
  pose proof (lstrip_head (rev (a :: r))) as Ht.
  destruct (lstrip_spaces (rev (a :: r))) as (sp & Hsp & Hrev).
  destruct (lstrip (rev (a :: r))) as [|z t] eqn:Er.
  - (* then every character of a :: r is a space, but a is not *)
    rewrite app_nil_r in Hrev.
    assert (Ha : a ∈ sp).
    { apply list_elem_of_In. rewrite <- Hrev. apply (proj1 (in_rev _ _)). left. reflexivity. }
    rewrite Forall_forall in Hsp. rewrite (Hsp _ Ha) in Hh. discriminate Hh.
  - (* rev (a :: r) = sp ++ z :: t, so a :: r = rev t ++ z :: rev sp *)
    assert (E : a :: r = rev t ++ z :: rev sp).
    { rewrite <- (rev_involutive (a :: r)), Hrev, rev_app_distr. cbn [rev].
      rewrite <- app_assoc. reflexivity. }
    exists a. cbn [rev]. destruct (rev t) as [|a' t'] eqn:Et.
    + left. cbn [app] in E |- *. injection E as -> _. split; [reflexivity|exact Hh].
    + right. cbn [app] in E |- *. injection E as <- _.
      exists t', z. split; [reflexivity|]. split; [exact Hh|exact Ht].
Qed.

Lemma last_snoc (a : N) (l : pystr) (z : N) : List.last (a :: l ++ [z]) a = z.
Proof using Type.
  only_used.
  change (a :: l ++ [z]) with ((a :: l) ++ [z]). apply last_last.
Qed.

(** The mask of a token, by the length of the stripped token. *)
Lemma mask_token_cases (token : pystr) :
  (strip token = [] /\ _mask_token token = []) \/
  (exists a, strip token = [a] /\ _mask_token token = [star]) \/
  (exists a b, strip token = [a; b] /\ _mask_token token = [a; star]) \/
  (exists a mid z, strip token = a :: mid ++ [z] /\ mid <> [] /\
                   _mask_token token = a :: replicate (length mid) star ++ [z]).
Proof using Type.
  only_used.
  unfold _mask_token. rewrite str_repeat_star, star_text.
  destruct (strip token) as [|a r] eqn:E; [left; split; reflexivity|]. right.
  destruct r as [|b r]; [left; exists a; split; reflexivity|]. right.
  destruct r as [|c r]; [left; exists a, b; split; reflexivity|]. right.
  destruct (exists_last (l := b :: c :: r)) as (mid & z & Hmid); [discriminate|].
  rewrite Hmid. exists a, mid, z. split; [reflexivity|].
  assert (Hlen : length (b :: c :: r) = length mid + 1)
    by (rewrite Hmid, length_app; reflexivity).
  split.
  - intros ->. cbn [length] in Hlen. lia.
  - cbn [length] in Hlen. cbn [length].
    rewrite length_app. cbn [length].
    destruct (length mid) as [|[|n]] eqn:En; [lia| |].
    + cbn [Nat.eqb Nat.add Nat.sub]. rewrite last_snoc. reflexivity.
    + replace (S (S (S n) + 1) =? 1) with false by (symmetry; apply Nat.eqb_neq; lia).
      replace (S (S (S n) + 1) =? 2) with false by (symmetry; apply Nat.eqb_neq; lia).
      rewrite last_snoc. replace (S (S (S n) + 1) - 2) with (S (S n)) by lia.
      reflexivity.
Qed.

(** X10.  The mask of a token is as long as the stripped token and is
    made of mask characters, except that the first character of a token
    of two or more characters and the last character of a token of three
    or more are shown as they are; a token that is not empty has at least
    one character masked. *)
Theorem mask_token_hides (token : pystr) :
  length (_mask_token token) = length (strip token) /\
  (forall i c, _mask_token token !! i = Some c ->
               if decide (shown (strip token) i) then strip token !! i = Some c
               else c = star) /\
  (strip token <> [] -> star ∈ _mask_token token).
Proof using Type.
  destruct (mask_token_cases token)
    as [[E ->]|[(a & E & ->)|[(a & b & E & ->)|(a & mid & z & E & Hmid & ->)]]];
    rewrite E; unfold shown.
  - split; [reflexivity|]. split; [intros i c H; destruct i; discriminate H|].
    intros H; contradiction.
  - split; [reflexivity|]. split; [|intros _; left].
    intros i c H. destruct decide as [[H2 _]|_]; [cbn [length] in H2; lia|].
    destruct i as [|i]; [injection H as <-; reflexivity|destruct i; discriminate H].
  - split; [reflexivity|]. split; [|intros _; right; left].
    intros i c H. destruct i as [|[|i]]; [| |discriminate H].
    + destruct decide as [_|Hn]; [exact H|]. exfalso. apply Hn. cbn [length]. split; [lia|left; reflexivity].
    + destruct decide as [[_ [Hi|[Hi _]]]|_]; [discriminate Hi|cbn [length] in Hi; lia|].
      injection H as <-. reflexivity.
  - assert (Hl : 1 <= length mid) by (destruct mid; [contradiction|cbn [length]; lia]).
    split; [cbn [length]; rewrite !length_app, length_replicate; reflexivity|].
    split.
    + intros i c H. cbn [length]. rewrite length_app. cbn [length].
      destruct i as [|i].
      * destruct decide as [_|Hn]; [exact H|]. exfalso. apply Hn. split; [lia|left; reflexivity].
      * cbn [lookup list_lookup] in H |- *.
        change (list_lookup i (replicate (length mid) star ++ [z]) = Some c) in H.
        change ((replicate (length mid) star ++ [z]) !! i = Some c) in H.
        destruct (decide (i < length mid)) as [Hi|Hi].
        -- rewrite lookup_app_l in H by (rewrite length_replicate; exact Hi).
           apply lookup_replicate in H. destruct H as [-> _].
           destruct decide as [[_ [Hc|[_ Hc]]]|_]; [discriminate Hc|lia|reflexivity].
        -- rewrite lookup_app_r in H by (rewrite length_replicate; lia).
           rewrite length_replicate in H.
           destruct (i - length mid) as [|k] eqn:Ek; [|destruct k; discriminate H].
           injection H as <-. assert (i = length mid) as -> by lia.
           destruct decide as [_|Hn].
           ++ change ((mid ++ [z]) !! length mid = Some z).
              rewrite lookup_app_r by lia. rewrite Nat.sub_diag. reflexivity.
           ++ exfalso. apply Hn. split; [lia|right; split; lia].
    + intros _. right. apply elem_of_app. left.
      destruct (length mid); [lia|left].
Qed.

Lemma split_from_word (w : pystr) :
  forall cur rest,
    Forall (fun c => isspace c = false) w ->
    split_from cur (w ++ rest) = split_from (rev w ++ cur) rest.
Proof using Type.
  only_used.
  induction w as [|c w IH]; intros cur rest H; [reflexivity|].
  apply Forall_cons in H. destruct H as [Hc Hw].
  cbn [app split_from rev]. rewrite Hc, IH by exact Hw.
  rewrite <- app_assoc. reflexivity.
Qed.

Lemma split_from_words (s : pystr) :
  forall cur, Forall (fun c => isspace c = false) cur -> Forall is_word (split_from cur s).
Proof using Type.
  only_used.
  assert (Hrev : forall cur, cur <> [] -> Forall (fun c => isspace c = false) cur ->
                             is_word (rev cur)).
  { intros cur Hne Hc. split; [|apply Forall_rev, Hc].
    intros E. apply Hne. apply (f_equal (@rev N)) in E. rewrite rev_involutive in E. exact E. }
  induction s as [|c r IH]; intros cur Hcur; cbn [split_from].
  - destruct cur as [|a cur]; [constructor|].
    constructor; [apply Hrev; [discriminate|exact Hcur]|constructor].
  - destruct (isspace c) eqn:E.
    + destruct cur as [|a cur]; [apply IH; constructor|].
      constructor; [apply Hrev; [discriminate|exact Hcur]|apply IH; constructor].
    + apply IH. constructor; assumption.
Qed.

Lemma split_words (s : pystr) : Forall is_word (split s).
Proof using Type.
  only_used.
  apply split_from_words. constructor.
Qed.

Lemma split_join (ws : list pystr) :
  Forall is_word ws -> split (join (py " ") ws) = ws.
Proof using Type.
  only_used.
  unfold split. induction ws as [|w ws IH]; intros H; [reflexivity|].
  apply Forall_cons in H. destruct H as [[Hne Hw] Hws].
  assert (Hr : rev w <> []).
  { intros E. apply Hne. apply (f_equal (@rev N)) in E. rewrite rev_involutive in E. exact E. }
  destruct ws as [|w' ws].
  - cbn [join]. rewrite <- (app_nil_r w) at 1. rewrite split_from_word by exact Hw.
    rewrite app_nil_r. cbn [split_from]. destruct (rev w) eqn:E; [contradiction|].
    rewrite <- E, rev_involutive. reflexivity.
  - change (join (py " ") (w :: w' :: ws)) with (w ++ py " " ++ join (py " ") (w' :: ws)).
    rewrite split_from_word by exact Hw. rewrite app_nil_r.
    change (py " ") with [32%N]. cbn [app split_from].
    change (isspace 32) with true. cbn iota.
    destruct (rev w) eqn:E; [contradiction|].
    rewrite <- E, rev_involutive. f_equal. apply IH, Hws.
Qed.

Lemma split_from_lstrip (s : pystr) : split_from [] (lstrip s) = split_from [] s.
Proof using Type.
  only_used.
  induction s as [|c r IH]; [reflexivity|]. cbn [lstrip split_from].
  destruct (isspace c) eqn:E; [exact IH|]. cbn [split_from]. rewrite E. reflexivity.
Qed.

Lemma split_from_trailing (sp : pystr) :
  Forall (fun c => isspace c = true) sp ->
  forall s cur, split_from cur (s ++ sp) = split_from cur s.
Proof using Type.
  only_used.
  intros Hsp.
  assert (Hend : forall cur, split_from cur sp = split_from cur []).
  { induction Hsp as [|c sp Hc Hsp IH]; intros cur; [reflexivity|].
    cbn [split_from]. rewrite Hc. destruct cur; rewrite IH; reflexivity. }
  induction s as [|c r IH]; intros cur; cbn [app]; [apply Hend|].
  cbn [split_from]. destruct (isspace c); [destruct cur|]; rewrite IH; reflexivity.
Qed.

Lemma split_strip (s : pystr) : split (strip s) = split s.
Proof using Type.
  only_used.
  unfold split, strip.
  destruct (rstrip_spaces (lstrip s)) as (sp & Hsp & E).
  rewrite <- (split_from_lstrip s). rewrite E at 2.
  rewrite split_from_trailing by exact Hsp. reflexivity.
Qed.

Lemma mask_token_word (w : pystr) :
  is_word w ->
  is_word (_mask_token w) /\ length (_mask_token w) = length w /\
  _mask_token (_mask_token w) = _mask_token w.
Proof using Type.
  only_used.
  intros Hw. pose proof (strip_word w Hw) as Es. destruct Hw as [Hne Hw].
  assert (Hm : is_word (_mask_token w) /\ length (_mask_token w) = length w
               /\ forall m, strip m = _mask_token w -> _mask_token m = _mask_token w).
  { destruct (mask_token_cases w)
      as [[E _]|[(a & E & ->)|[(a & b & E & ->)|(a & mid & z & E & Hmid & ->)]]];
      rewrite Es in E.
    - contradiction.
    - subst w. split; [split; [discriminate|constructor; [reflexivity|constructor]]|].
      split; [reflexivity|]. intros m Hs. unfold _mask_token. rewrite Hs. reflexivity.
    - subst w. apply Forall_cons in Hw. destruct Hw as [Ha _].
      split; [split; [discriminate|constructor; [exact Ha|constructor; [reflexivity|constructor]]]|].
      split; [reflexivity|]. intros m Hs. unfold _mask_token. rewrite Hs. reflexivity.
    - subst w. apply Forall_cons in Hw. destruct Hw as [Ha Hw].
      apply Forall_app in Hw. destruct Hw as [_ Hz]. apply Forall_cons in Hz. destruct Hz as [Hz _].
      split; [split; [discriminate|]|split].
      + constructor; [exact Ha|]. apply Forall_app. split.
        * apply Forall_forall. intros x Hx. apply elem_of_replicate in Hx. destruct Hx as [-> _].
          reflexivity.
        * constructor; [exact Hz|constructor].
      + cbn [length]. rewrite !length_app, length_replicate. reflexivity.
      + intros m Hs.
        destruct (mask_token_cases m)
          as [[E' _]|[(a' & E' & _)|[(a' & b' & E' & _)|(a' & mid' & z' & E' & _ & ->)]]];
          rewrite Hs in E'.
        * discriminate E'.
        * injection E' as _ E'. destruct (replicate (length mid) star); discriminate E'.
        * injection E' as _ E'. apply (f_equal (@length N)) in E'.
          rewrite length_app, length_replicate in E'. cbn [length] in E'.
          destruct mid; [contradiction|cbn [length] in E'; lia].
        * injection E' as <- E'.
          assert (El : length mid' = length mid).
          { apply (f_equal (@length N)) in E'.
            rewrite !length_app, length_replicate in E'. cbn [length] in E'. lia. }
          apply app_inj_2 in E'; [|reflexivity]. destruct E' as [_ E']. injection E' as <-.
          rewrite El. reflexivity. }
  destruct Hm as (M1 & M2 & M3). split; [exact M1|]. split; [exact M2|].
  apply M3, strip_word, M1.
Qed.

Lemma join_last (sep : pystr) (ws : list pystr) (w : pystr) :
  exists front, join sep (ws ++ [w]) = front ++ w.
Proof using Type.
  only_used.
  induction ws as [|v ws IH]; [exists []; reflexivity|].
  destruct IH as (front & IH). cbn [app].
  destruct (ws ++ [w]) as [|u us] eqn:E; [destruct ws; discriminate E|].
  change (join sep (v :: u :: us)) with (v ++ sep ++ join sep (u :: us)).
  rewrite IH. exists (v ++ sep ++ front). rewrite <- !app_assoc. reflexivity.
Qed.

Lemma strip_join_words (ws : list pystr) :
  Forall is_word ws -> strip (join (py " ") ws) = join (py " ") ws.
Proof using Type.
  only_used.
  intros H. destruct ws as [|w ws]; [reflexivity|].
  unfold strip, rstrip.
  assert (Hl : lstrip (join (py " ") (w :: ws)) = join (py " ") (w :: ws)).
  { apply Forall_cons in H. destruct H as [[Hne Hw] _].
    destruct w as [|c w]; [contradiction|].
    apply Forall_cons in Hw. destruct Hw as [Hc _].
    destruct ws; cbn [join app]; apply lstrip_id, Hc. }
  rewrite Hl.
  destruct (exists_last (l := w :: ws)) as (front & z & E); [discriminate|].
  rewrite E in H |- *. apply Forall_app in H. destruct H as [_ Hz].
  apply Forall_cons in Hz. destruct Hz as [[Hne Hz] _].
  destruct (join_last (py " ") front z) as (pre & ->).
  rewrite rev_app_distr.
  assert (Hr : Forall (fun c => isspace c = false) (rev z)) by (apply Forall_rev, Hz).
  destruct (rev z) as [|c r] eqn:Er.
  - apply (f_equal (@rev N)) in Er. rewrite rev_involutive in Er. contradiction.
  - apply Forall_cons in Hr. destruct Hr as [Hc _]. cbn [app].
    rewrite lstrip_id by exact Hc.
    change (c :: r ++ rev pre) with ((c :: r) ++ rev pre).
    rewrite <- Er, <- rev_app_distr, rev_involutive. reflexivity.
Qed.

(** X11.  Masking a text masks it word by word: the result has the words
    of the text, each replaced by its mask and so of the same length,
    separated by single spaces; and masking a masked text changes
    nothing. *)
Theorem mask_text_words (val : pystr) :
  exists masked,
    mask_text (Some val) = Some masked /\
    masked = join (py " ") (_mask_token <$> split val) /\
    split masked = _mask_token <$> split val /\
    Forall2 (fun word m => length m = length word) (split val) (split masked) /\
    mask_text (Some masked) = Some masked.
Proof using Type.
  pose proof (split_words val) as Hw.
  assert (Hm : Forall is_word (_mask_token <$> split val)).
  { apply Forall_fmap. eapply Forall_impl; [exact Hw|]. intros w H. apply mask_token_word, H. }
  assert (E : mask_text (Some val) = Some (join (py " ") (_mask_token <$> split val))).
  { unfold mask_text. rewrite split_strip.
    destruct (strip val) eqn:Es; [|reflexivity].
    rewrite <- (split_strip val), Es. reflexivity. }
  exists (join (py " ") (_mask_token <$> split val)).
  split; [exact E|]. split; [reflexivity|].
  rewrite (split_join _ Hm). split; [reflexivity|]. split.
  - apply Forall2_fmap_r, Forall_Forall2_diag.
    eapply Forall_impl; [exact Hw|]. intros w H. apply mask_token_word, H.
  - unfold mask_text. rewrite (strip_join_words _ Hm), (split_join _ Hm).
    rewrite <- list_fmap_compose.
    rewrite (Forall_fmap_ext_1 (_mask_token ∘ _mask_token) _mask_token (split val)).
    + destruct (join (py " ") (_mask_token <$> split val)) eqn:Ej; reflexivity.
    + eapply Forall_impl; [exact Hw|]. intros w H. apply mask_token_word, H.
Qed.

Lemma split_once_char (c : N) (domain : pystr) (local : pystr) :
  str_in [c] local = false ->
  split_once [c] (local ++ [c] ++ domain) = (local, domain)
  /\ str_in [c] (local ++ [c] ++ domain) = true.
Proof using Type.
  only_used.
  induction local as [|a l IH]; intros H.
  - cbn [app split_once is_prefix str_in]. rewrite N.eqb_refl. split; reflexivity.
  - cbn [str_in is_prefix] in H. apply orb_false_iff in H. destruct H as [H1 H2].
    destruct (IH H2) as [I1 I2].
    cbn [app split_once is_prefix str_in] in I1, I2 |- *.
    rewrite H1. cbn [orb]. rewrite I1, I2. split; reflexivity.
Qed.

(** X12.  An e-mail address whose stripped text is [local @ domain], with
    no "@" in [local]: the mask keeps the first character of [local],
    writes four asterisks for the rest, keeps the last character when
    [local] has three characters or more, and keeps the domain.  With an
    empty [local] the call raises [IndexError]. *)
Theorem mask_email_shape (val local domain : pystr) :
  strip val = local ++ py "@" ++ domain ->
  str_in (py "@") local = false ->
  mask_email (Some val)
  = match local with
    | [] => Raises IndexError
    | [first] | [first; _] => Returns (Some ([first] ++ py "****" ++ py "@" ++ domain))
    | first :: rest =>
        Returns (Some ([first] ++ py "****" ++ [List.last rest first] ++ py "@" ++ domain))
    end.
Proof using Type.
  intros Es Hl. unfold mask_email. rewrite Es.
  change (py "@") with [64%N] in *.
  destruct (split_once_char 64%N domain local Hl) as [S1 S2].
  rewrite S2, S1. cbn [negb].
  destruct local as [|a [|b [|c r]]]; reflexivity.
Qed.

(** *** Validation against the index *)

Lemma List_filter_nil_iff {A} (p : A -> bool) (l : list A) :
  List.filter p l = [] <-> Forall (fun x => p x = false) l.
Proof using Type.
  only_used.
  induction l as [|x l IH]; cbn [List.filter]; [split; [constructor|reflexivity]|].
  rewrite Forall_cons. destruct (p x) eqn:E.
  - split; [discriminate|intros [H _]; discriminate H].
  - rewrite IH. split; [intros H; split; [reflexivity|exact H]|intros [_ H]; exact H].
Qed.

Lemma Forall2_elem_of_impl {A B} (P Q : A -> B -> Prop) (l : list A) (k : list B) :
  Forall2 P l k ->
  (forall x y, x ∈ l -> y ∈ k -> P x y -> Q x y) ->
  Forall2 Q l k.
Proof using Type.
  only_used.
  induction 1 as [|x y l k Hxy _ IH]; intros H; constructor.
  - apply H; [left|left|exact Hxy].
  - apply IH. intros x' y' Hx Hy. apply H; right; assumption.
Qed.

Lemma expected_of_cell (header_cells : list Cell) (c : Cell) :
  c ∈ header_cells -> c <> CNull ->
  strip (py_str c) ∈ (fun c => strip (py_str c)) <$> dropna header_cells.
Proof using Type.
  intros Hc Hn. apply list_elem_of_fmap. exists c. split; [reflexivity|].
  unfold dropna. apply list_elem_of_In, filter_In. split; [apply list_elem_of_In, Hc|].
  destruct c; [contradiction|reflexivity|reflexivity].
Qed.

Lemma clean_columns_fmap (df : DataFrame) :
  clean_columns df -> strip <$> columns df = columns df.
Proof using Type.
  only_used.
  unfold clean_columns. induction (columns df) as [|c cs IH]; intros H; [reflexivity|].
  apply Forall_cons in H. destruct H as [Hc Hcs]. cbn [fmap list_fmap].
  rewrite Hc. f_equal. apply IH, Hcs.
Qed.

(** X19.  A table whose column names carry no surrounding white space is
    validated against the header cells of the index, and [build_report]
    reads the same index.  When the lookup of [build_report] finds the
    column of every index row, nothing is reported missing.  For an index
    row whose header cell holds a value that is not blank, the header is
    reported missing exactly when the lookup finds no column; so when
    nothing is reported missing, the lookup finds the column of every
    such row.  (A missing or blank header is outside this: the validation
    drops a missing cell, and the lookup never finds a blank name.)  A
    column reported as extra is a column of the table that no header cell
    with a value names; no name is reported both missing and extra; and
    an item whose column the lookup does not find gets no average. *)
Theorem validation_matches_scoring (df : DataFrame) (header_cells : list Cell)
    (idx : list IndexEntry) :
  clean_columns df ->
  Forall2 reads_header header_cells idx ->
  let v := validate_df df header_cells in
  (Forall (fun row => column_found df row = true) idx -> missing v = []) /\
  Forall2 (fun c row =>
             names_a_column c row ->
             (strip (header_name row) ∈ missing v <-> column_found df row = false))
          header_cells idx /\
  (missing v = [] ->
   Forall2 (fun c row => names_a_column c row -> column_found df row = true)
           header_cells idx) /\
  (forall name, name ∈ extra v ->
     name ∈ columns df /\
     Forall2 (fun c row => c <> CNull -> strip (header_name row) <> name)
             header_cells idx) /\
  (forall name, name ∈ missing v -> name ∉ extra v) /\
  (forall row, column_found df row = false ->
               average (item_score df row).1 = None /\ (item_score df row).2 = None).
Proof using Type.
  intros Hclean Hidx. cbn zeta.
  assert (Hscore : forall row, column_found df row = false ->
                     average (item_score df row).1 = None /\ (item_score df row).2 = None).
  { intros row H. unfold column_found in H. unfold item_score. rewrite H.
    split; reflexivity. }
  unfold validate_df. cbn [missing extra].
  rewrite (clean_columns_fmap df Hclean).
  set (expected := (fun c => strip (py_str c)) <$> dropna header_cells).
  assert (Hm : forall name,
             name ∈ List.filter (fun c => negb (bool_decide (c ∈ columns df))) expected
             <-> name ∈ expected /\ name ∉ columns df).
  { intros name. rewrite list_elem_of_In, filter_In, <- list_elem_of_In.
    rewrite negb_true_iff, bool_decide_eq_false. reflexivity. }
  assert (He : forall name,
             name ∈ List.filter (fun c => negb (bool_decide (c ∈ expected))) (columns df)
             <-> name ∈ columns df /\ name ∉ expected).
  { intros name. rewrite list_elem_of_In, filter_In, <- list_elem_of_In.
    rewrite negb_true_iff, bool_decide_eq_false. reflexivity. }
  assert (Hpair : Forall2 (fun c row =>
                             names_a_column c row ->
                             (strip (header_name row)
                                ∈ List.filter (fun c => negb (bool_decide (c ∈ columns df)))
                                    expected
                              <-> column_found df row = false))
                          header_cells idx).
  { apply (Forall2_elem_of_impl _ _ _ _ Hidx). intros c row Hc _ Hread [Hn Hb].
    rewrite Hm. unfold column_found, has_column.
    rewrite (bool_decide_eq_false_2 _ Hb). cbn [negb andb].
    rewrite bool_decide_eq_false. unfold reads_header in Hread. rewrite Hread.
    split; [intros [_ H]; exact H|intros H; split; [|exact H]].
    apply expected_of_cell; assumption. }
  split; [|split; [exact Hpair|split; [|split; [|split; [|exact Hscore]]]]].
  - intros Hall. apply List_filter_nil_iff, Forall_forall. intros name Hname.
    apply negb_false_iff, bool_decide_eq_true.
    apply list_elem_of_fmap in Hname. destruct Hname as (c & -> & Hc).
    unfold dropna in Hc. apply list_elem_of_In, filter_In in Hc. destruct Hc as [Hc _].
    apply list_elem_of_In in Hc.
    apply list_elem_of_lookup in Hc. destruct Hc as (i & Hi).
    destruct (Forall2_lookup_l _ _ _ _ _ Hidx Hi) as (row & Hrow & Hread).
    unfold reads_header in Hread. rewrite <- Hread.
    assert (Hf : column_found df row = true).
    { rewrite Forall_forall in Hall. apply Hall. apply list_elem_of_lookup. exists i. exact Hrow. }
    unfold column_found in Hf. apply andb_true_iff in Hf. destruct Hf as [_ Hf].
    apply bool_decide_eq_true in Hf. exact Hf.
  - intros Hnil. eapply Forall2_impl; [exact Hpair|]. intros c row H Hn.
    rewrite Hnil in H. destruct (column_found df row) eqn:E; [reflexivity|].
    exfalso. apply (elem_of_nil (strip (header_name row))). apply (H Hn). reflexivity.
  - intros name Hname. apply He in Hname. destruct Hname as [H1 H2]. split; [exact H1|].
    apply (Forall2_elem_of_impl _ _ _ _ Hidx). intros c row Hc _ Hread Hn E.
    apply H2. rewrite <- E. unfold reads_header in Hread. rewrite Hread.
    apply expected_of_cell; assumption.
  - intros name H1 H2. apply Hm in H1. apply He in H2.
    destruct H1 as [H1 _]. destruct H2 as [_ H2]. contradiction.
Qed.

(** *** The summary and the categories *)

Lemma round_half_even_whole (z : Z) : round_half_even (inject_Z z) = z.
Proof using Type.
  only_used.
  unfold round_half_even. rewrite Qfloor_Z.
  assert (E : (inject_Z z - inject_Z z ?= 1 # 2)%Q = Lt).
  { apply (proj1 (Qlt_alt _ _)). lra. }
  rewrite E. reflexivity.
Qed.

Lemma py_round_idempotent (x : Q) (n : nat) : py_round (py_round x n) n = py_round x n.
Proof using Type.
  only_used.
  unfold py_round. set (p := Z.to_pos (10 ^ Z.of_nat n)). f_equal.
  generalize (round_half_even (x * inject_Z (Z.pos p))). intros z.
  etrans; [apply (round_half_even_compat _ (inject_Z z))|apply round_half_even_whole].
  unfold Qeq, Qmult, inject_Z. cbn [Qnum Qden]. rewrite Pos.mul_1_r. lia.
Qed.

Lemma round2_rounded_mean (scores : list Q) :
  round2 (rounded_mean scores) = rounded_mean scores.
Proof using Type.
  only_used.
  unfold round2, rounded_mean. destruct scores; [reflexivity|].
  cbn [fmap option_fmap option_map]. rewrite py_round_idempotent. reflexivity.
Qed.

Lemma process_category_fields (df : DataFrame) (idx : list IndexEntry) (big : pystr)
    (c : Category) :
  process_category df idx big = Some c ->
  title c = big /\ cat_average c = rounded_mean (all_scores df (area_rows idx big)).
Proof using Type.
  unfold process_category. destruct (area_rows idx big); [discriminate|].
  intros H. injection H as <-. split; reflexivity.
Qed.

Lemma round2_ipo_avg (df : DataFrame) (idx : list IndexEntry) (big : pystr) :
  round2 (ipo_avg df idx big) = ipo_avg df idx big.
Proof using Type.
  unfold ipo_avg. destruct (process_category df idx big) as [c|] eqn:E; [|reflexivity].
  cbn [mbind option_bind]. destruct (process_category_fields df idx big c E) as [_ ->].
  apply round2_rounded_mean.
Qed.

Lemma IPO_distinct :
  py "Input" <> py "Process" /\ py "Input" <> py "Output" /\ py "Process" <> py "Output".
Proof using Type.
  only_used.
  repeat split; intros E; vm_compute in E; discriminate E.
Qed.

Ltac decide_titles :=
  repeat match goal with
         | |- context [bool_decide (?a = ?a)] =>
             rewrite (bool_decide_eq_true_2 (a = a) eq_refl)
         | |- context [bool_decide (?a = ?b)] =>
             rewrite (bool_decide_eq_false_2 (a = b)) by congruence
         end.

Lemma categories_of_report (df : DataFrame) (idx : list IndexEntry) :
  title <$> omap (process_category df idx) IPO `sublist_of` IPO /\
  Forall (fun big => average_of (omap (process_category df idx) IPO) big
                     = ipo_avg df idx big) IPO.
Proof using Type.
  destruct IPO_distinct as (D1 & D2 & D3).
  unfold IPO, ipo_avg, average_of. cbn [omap list_omap].
  destruct (process_category df idx (py "Input")) as [c1|] eqn:E1;
    destruct (process_category df idx (py "Process")) as [c2|] eqn:E2;
    destruct (process_category df idx (py "Output")) as [c3|] eqn:E3;
    repeat match goal with
           | H : process_category _ _ ?big = Some ?c |- _ =>
               lazymatch goal with
               | T : title c = big |- _ => fail
               | _ => destruct (process_category_fields _ _ _ _ H) as [? _]
               end
           end;
    cbn [fmap list_fmap List.filter];
    repeat match goal with H : title _ = _ |- _ => rewrite !H end;
    (split;
     [repeat first [apply sublist_nil | apply sublist_skip | apply sublist_cons]
     |repeat constructor; rewrite ?E1, ?E2, ?E3; decide_titles; reflexivity]).
Qed.

Lemma advanced_analysis_company_level (env : Env) (df : DataFrame) (lvl : bool) :
  is_Some (advanced_analysis (build_structured_open_ended env df lvl)) -> lvl = true.
Proof using Type.
  unfold build_structured_open_ended.
  destruct (reference_index env); cbn [advanced_analysis].
  - destruct (foldl _ _ _).1; [intros [x H]; discriminate H|].
    destruct lvl; [reflexivity|intros [x H]; discriminate H].
  - intros [x H]; discriminate H.
Qed.

(** X20.  The summary of a report agrees with its categories.  The report
    counts the rows of the table; its categories are among Input, Process
    and Output, in that order; the three cards are those of the three
    areas, each with the average of the category of its area (none when
    the report has no such category) and the grade of that average; the
    three IPO values of the summary are the scores of the cards; and an
    advanced analysis is only made for a company-level table. *)
Theorem summary_agrees_with_categories (env : Env) (df : DataFrame)
    (index_df : list IndexEntry) :
  let r := build_report env df index_df in
  let s := summary r in
  respondents r = len_df df /\
  sum_respondents s = len_df df /\
  title <$> diagnostic_categories r `sublist_of` IPO /\
  card_title <$> ipo_cards s = IPO /\
  Forall (fun card =>
            card_score card = average_of (diagnostic_categories r) (card_title card) /\
            card_grade card = _grade (card_score card))
         (ipo_cards s) /\
  [ipo_input s; ipo_process s; ipo_output s] = card_score <$> ipo_cards s /\
  (is_Some (advanced_analysis (open_ended r)) -> is_company_level df = true).
Proof using Type.
  cbn zeta. unfold build_report.
  cbn [respondents summary sum_respondents diagnostic_categories ipo_cards
       ipo_input ipo_process ipo_output open_ended].
  destruct (categories_of_report df index_df) as [C1 C2].
  apply Forall_cons in C2. destruct C2 as [A1 C2].
  apply Forall_cons in C2. destruct C2 as [A2 C2].
  apply Forall_cons in C2. destruct C2 as [A3 _].
  split; [reflexivity|]. split; [reflexivity|]. split; [exact C1|].
  unfold summary_ipo_cards. cbn [fmap list_fmap card_title card_score card_grade].
  split; [reflexivity|]. split.
  - repeat constructor; cbn [card_title card_score card_grade]; auto.
  - split; [rewrite !round2_ipo_avg; reflexivity|].
    apply advanced_analysis_company_level.
Qed.

(** *** The even split of a chart *)

(** X21.  Without an index a chart of [n] labels is cut in three
    segments, Input, Process and Output.  They lie in the chart exactly
    when it has three labels or more; then they follow one another
    without a gap from the first label to the last. *)
Theorem even_segments_in_chart (n : nat) :
  (3 <= n <-> even_segments n <> [] /\ Forall (segment_in_chart n) (even_segments n)) /\
  (3 <= n ->
   exists a b,
     even_segments n
     = [mkSegment (py "Input") 0 a; mkSegment (py "Process") (S a) b;
        mkSegment (py "Output") (S b) (n - 1)]
     /\ a < b /\ b < n - 1) /\
  (n = 0 -> even_segments n = []).
Proof using Type.
  unfold even_segments, segment_in_chart.
  assert (Hd : n / 3 * 3 <= n) by (rewrite Nat.mul_comm; apply Nat.Div0.mul_div_le).
  split; [|split].
  - split.
    + intros H. assert (E : (0 <? n) = true) by (apply Nat.ltb_lt; lia). rewrite E.
      split; [discriminate|]. repeat constructor; cbn [seg_from seg_to]; lia.
    + intros [H1 H2]. destruct (0 <? n) eqn:E; [|contradiction].
      apply Forall_cons in H2. destruct H2 as [_ H2].
      apply Forall_cons in H2. destruct H2 as [_ H2].
      apply Forall_cons in H2. destruct H2 as [[H2 H3] _].
      cbn [seg_from seg_to] in H2, H3.
      destruct (Nat.max_spec (n / 3) 1) as [[_ Em]|[_ Em]]; rewrite Em in H2; lia.
  - intros H. assert (E : (0 <? n) = true) by (apply Nat.ltb_lt; lia). rewrite E.
    assert (H3 : 1 <= n / 3) by (apply Nat.div_le_lower_bound; lia).
    rewrite (Nat.max_l (n / 3) 1) by exact H3.
    exists (n / 3 - 1), (n / 3 * 2 - 1).
    split; [|lia].
    rewrite (Nat.min_l (n / 3 - 1)) by lia. rewrite (Nat.min_l (n / 3 * 2 - 1)) by lia.
    replace (S (n / 3 - 1)) with (n / 3) by lia.
    replace (S (n / 3 * 2 - 1)) with (n / 3 * 2) by lia. reflexivity.
  - intros ->. reflexivity.
Qed.

End Pipeline.

(** ** Worked examples

    The library functions are instantiated by those of [Instances]; the
    sample tables hold text cells, and [table_one_code] numeric codes. *)

Module Samples.
Import Instances.

(** A respondent row: its label, its team and its answer to item Q1. *)
Definition respondent (i : nat) (team answer : string) : Row :=
  mkRow i [CStr (py team); CStr (py answer)].

Definition table_of (rs : list Row) : DataFrame := mkDF [py "DEPT"; py "Q1"] rs.

Definition entry_Q1 : IndexEntry :=
  mkEntry (py "Q1") (py "Resources are sufficient") (py "Input") (Some (py "Resources")).

Definition entry_Q9 : IndexEntry :=
  mkEntry (py "Q9") (py "Not in the export") (py "Input") (Some (py "Resources")).

(** Three answers 1, 1, 2: the mean is 4/3. *)
Definition table_112 : DataFrame :=
  table_of [respondent 0 "A" "1"; respondent 1 "A" "1"; respondent 2 "A" "2"].

(** One numeric answer outside the five-point scale. *)
Definition table_7 : DataFrame := table_of [respondent 0 "A" "7"].

Definition item (df : DataFrame) (row : IndexEntry) : ItemScore :=
  fst (item_score str_whole parse_decimal df row).

(** Two items of the Input area, the second without a sub-category label;
    every respondent answers 5 to the first and 1 to the second. *)
Definition entry_Q2_unlabelled : IndexEntry :=
  mkEntry (py "Q2") (py "Information is shared") (py "Input") None.

Definition index_two_items : list IndexEntry := [entry_Q1; entry_Q2_unlabelled].

Definition table_two_items : DataFrame :=
  mkDF [py "DEPT"; py "Q1"; py "Q2"]
    [ mkRow 0 [CStr (py "A"); CStr (py "5"); CStr (py "1")];
      mkRow 1 [CStr (py "A"); CStr (py "5"); CStr (py "1")];
      mkRow 2 [CStr (py "A"); CStr (py "5"); CStr (py "1")] ].

Definition category_of (df : DataFrame) (idx : list IndexEntry) (big : string) : option Category :=
  process_category str_whole parse_decimal contains_nocase_ascii df idx (py big).

(** Teams B, B, B, A, A, A in this order. *)
Definition table_BA : DataFrame :=
  table_of [respondent 0 "B" "4"; respondent 1 "B" "4"; respondent 2 "B" "5";
            respondent 3 "A" "2"; respondent 4 "A" "3"; respondent 5 "A" "3"].

(** One team of two rows. *)
Definition table_two_rows : DataFrame :=
  table_of [respondent 0 "A" "4"; respondent 1 "A" "5"].

(** One team of three rows. *)
Definition table_one_team : DataFrame :=
  table_of [respondent 0 "A" "4"; respondent 1 "A" "5"; respondent 2 "A" "3"].

(** One numeric code on three rows, one of them written as a fraction. *)
Definition table_one_code : DataFrame :=
  mkDF [py "DEPT"; py "Q1"]
    [ mkRow 0 [CNum 7; CStr (py "4")]; mkRow 1 [CNum (14 # 2); CStr (py "5")];
      mkRow 2 [CNum 7; CStr (py "3")] ].

(** A team of three rows and three rows without a team. *)
Definition table_null_team : DataFrame :=
  table_of [respondent 0 "A" "4"; respondent 1 "A" "5"; respondent 2 "A" "3";
            mkRow 3 [CNull; CStr (py "1")]; mkRow 4 [CNull; CStr (py "2")];
            mkRow 5 [CNull; CStr (py "2")]].

(** A team of exactly three rows and a team of two. *)
Definition table_three_and_two : DataFrame :=
  table_of [respondent 0 "C" "4"; respondent 1 "A" "5"; respondent 2 "A" "3";
            respondent 3 "C" "2"; respondent 4 "A" "1"].

Definition by_unit (df : DataFrame) : list UiMessage * list (pystr * DataFrame) :=
  group_data_by_unit str_whole df (py "팀별") (Some (py "DEPT")).

(** Two free-text questions: the answer given to both is retained for the
    first question only. *)
Definition table_free_text : DataFrame :=
  mkDF [py "NO40"; py "NO41"]
    [ mkRow 0 [CStr (py "We help each other a lot"); CStr (py "we help each other a lot")];
      mkRow 1 [CStr (py "Decisions are made quickly"); CStr (py "Meetings take too long")] ].

(** Two runs a day apart; the reference workbook cannot be read, and the
    generative model gives no analysis. *)
Definition env_on (d : Date) : Env unit :=
  mkEnv unit d None (fun _ _ => None) (fun _ _ => tt).

Definition first_run : Env unit := env_on (mkDate 2025 3 14).
Definition next_day_run : Env unit := env_on (mkDate 2025 3 15).

Definition report_of (env : Env unit) : Report unit :=
  build_report ascii_lower ascii_upper re_sub_nomatch str_whole parse_decimal
    contains_nocase_ascii unit env table_BA [entry_Q1].

(** Three answers given as Likert labels, one with spaces around it. *)
Definition likert_answers : list Cell :=
  [CStr (py "그렇다"); CStr (py " 매우 그렇다 "); CStr (py "보통")].

(** A table with the column name Q1 twice: [build_report] raises on it. *)
Definition table_duplicate : DataFrame :=
  mkDF [py "DEPT"; py "Q1"; py "Q1"]
    [ mkRow 0 [CStr (py "C"); CStr (py "4"); CStr (py "4")];
      mkRow 1 [CStr (py "C"); CStr (py "5"); CStr (py "5")];
      mkRow 2 [CStr (py "C"); CStr (py "3"); CStr (py "3")] ].

(** One cause of an exception in [build_report]: a duplicated column name. *)
Definition raises_on_duplicates (df : DataFrame) (index_df : list IndexEntry) : bool :=
  negb (bool_decide (NoDup (columns df))).

(** The reports of groups; the detected company is Acme. *)
Definition reports_of_groups (grouped_data : list (pystr * DataFrame))
    : list (pystr * UnitReport unit) :=
  build_multiple_reports ascii_lower ascii_upper re_sub_nomatch str_whole parse_decimal
    contains_nocase_ascii unit raises_on_duplicates (fun _ => first_run) grouped_data
    [entry_Q1] (Some (py "Acme")) None.

Definition groups_BA_and_duplicate : list (pystr * DataFrame) :=
  (by_unit table_BA).2 ++ [(py "C", table_duplicate)].

Definition groups_sales : list (pystr * DataFrame) :=
  [(py "Sales - East", table_duplicate); (py "Ops - North", table_one_team)].

(** An index row whose header cell is missing, as [build_report] reads it. *)
Definition entry_without_header : IndexEntry :=
  mkEntry (py "nan") (py "No header") (py "Input") (Some (py "Resources")).

Definition headers_Q1_none_Q9 : list Cell := [CStr (py "Q1"); CNull; CStr (py "Q9")].

Definition index_Q1_none_Q9 : list IndexEntry :=
  [entry_Q1; entry_without_header; entry_Q9].

(** The items and categories on floats. *)
Definition item_in (ar : Arithmetic) (df : DataFrame) (row : IndexEntry) : ItemScore :=
  fst (item_score_in str_whole parse_decimal ar df row).

Definition category_in (ar : Arithmetic) (df : DataFrame) (idx : list IndexEntry)
    (big : string) : option Category :=
  process_category_in str_whole parse_decimal contains_nocase_ascii ar df idx (py big).

(** A table of answers to item Q1, one respondent each. *)
Definition answers (l : list string) : DataFrame :=
  table_of (imap (fun i a => respondent i "A" a) l).

(** Seven answers 1 and one answer 2: the mean is 1.125. *)
Definition table_seven_and_one : DataFrame :=
  answers (replicate 7 "1"%string ++ ["2"%string]).

(** 39 answers 1 and one answer 2: the mean is 1.025. *)
Definition table_39_and_one : DataFrame :=
  answers (replicate 39 "1"%string ++ ["2"%string]).

(** 23 answers 1 among 80 answers. *)
Definition table_23_of_80 : DataFrame :=
  answers (replicate 23 "1"%string ++ replicate 57 "2"%string).

(** 200 items of one sub-category: 159 read a column of answers 4, and 41
    a column of answers 3. *)
Definition entry_Q2 : IndexEntry :=
  mkEntry (py "Q2") (py "Information is shared") (py "Input") (Some (py "Resources")).

Definition table_4_and_3 : DataFrame :=
  mkDF [py "DEPT"; py "Q1"; py "Q2"]
    [ mkRow 0 [CStr (py "A"); CStr (py "4"); CStr (py "3")];
      mkRow 1 [CStr (py "A"); CStr (py "4"); CStr (py "3")];
      mkRow 2 [CStr (py "A"); CStr (py "4"); CStr (py "3")] ].

Definition index_159_and_41 : list IndexEntry :=
  replicate 159 entry_Q1 ++ replicate 41 entry_Q2.

End Samples.

Import Instances Samples.

(** Witness of C7: item Q9 on a table without that column. *)
Lemma item_score_missing_column_witness :
  average (item table_112 entry_Q9) = None /\
  benchmark (item table_112 entry_Q9) = Some 0%Q /\
  zero_distribution (item table_112 entry_Q9) /\
  snd (item_score str_whole parse_decimal table_112 entry_Q9) = None.
Proof.
  apply (item_score_missing_column str_whole parse_decimal table_112 entry_Q9).
  apply (bool_decide_unpack _). vm_compute. exact I.
Defined.

(** Counterexample to C7 as stated: for the missing item Q9 the benchmark
    of the item record is the number 0.0, not null. *)
Lemma item_score_missing_column_not_all_null :
  ~ (average (item table_112 entry_Q9) = None /\
     benchmark (item table_112 entry_Q9) = None /\
     zero_distribution (item table_112 entry_Q9)).
Proof. intros (_ & H & _). vm_compute in H. discriminate H. Qed.

(** Witness of C2: the answers 1, 1, 2 of item Q1, in binary64. *)
Lemma item_score_valid_column_witness :
  let valid := valid_values str_whole parse_decimal table_112 (strip (header_name entry_Q1)) in
  let it := item_in binary64 table_112 entry_Q1 in
  let m := series_mean binary64 valid in
  snd (item_score_in str_whole parse_decimal binary64 table_112 entry_Q1) = Some m /\
  average it = Some (fround binary64 m 2) /\
  benchmark it = Some (fround binary64 (clamp (fsub binary64 m (25 # 100)) 0 5) 2) /\
  veryLow it = percentage_in binary64 valid 1 /\
  low it = percentage_in binary64 valid 2 /\
  medium it = percentage_in binary64 valid 3 /\
  high it = percentage_in binary64 valid 4 /\
  veryHigh it = percentage_in binary64 valid 5 /\
  (accurate binary64 -> Forall on_scale valid ->
   exists k1 k2 k3 k4 k5 : Z,
     veryLow it = tenths binary64 k1 /\ low it = tenths binary64 k2 /\
     medium it = tenths binary64 k3 /\ high it = tenths binary64 k4 /\
     veryHigh it = tenths binary64 k5 /\
     (998 <= k1 + k2 + k3 + k4 + k5 <= 1002)%Z).
Proof.
  apply (item_score_valid_column str_whole parse_decimal binary64 table_112 entry_Q1).
  - vm_compute. discriminate.
  - apply (bool_decide_unpack _). vm_compute. exact I.
  - vm_compute. discriminate.
Defined.

(** The numbers of that item: mean 1.33, benchmark 1.08, two thirds of the
    answers at 1 and one third at 2; 667 + 333 tenths. *)
Example item_112_values :
  average (item_in binary64 table_112 entry_Q1) = Some (fl64 (133 # 100)) /\
  benchmark (item_in binary64 table_112 entry_Q1) = Some (fl64 (108 # 100)) /\
  veryLow (item_in binary64 table_112 entry_Q1) = tenths binary64 667 /\
  low (item_in binary64 table_112 entry_Q1) = tenths binary64 333 /\
  medium (item_in binary64 table_112 entry_Q1) = tenths binary64 0.
Proof. vm_compute. repeat split. Qed.

(** Binary64 at work: the float of 0.1, and three numbers of a report that
    the rounding of the operations decides.  For 39 answers 1 and one
    answer 2 the mean is 1.025, the float of mean - 0.25 lies below 0.775
    and the benchmark is 0.77; for 23 answers 1 among 80 the float of
    23 / 80 * 100 lies below 28.75 and the percentage is 28.7; for 159 item
    means 4 and 41 item means 3 the float of 759 / 200 lies below 3.795 and
    the category average is 3.79.  Without rounding of the operations they
    are 0.78, 28.8 and 3.80. *)
Example floats_of_the_examples :
  (fl64 (1 # 10) == 3602879701896397 # 36028797018963968)%Q /\
  (fsub binary64 (mean64 (replicate 39 1%Q ++ [2%Q])) (25 # 100)
   == 1745144855606067 # 2251799813685248)%Q /\
  (fmul binary64 (fdiv binary64 23 80) 100 == 8092405580431359 # 281474976710656)%Q /\
  (fdiv binary64 (sum64 (replicate 159 4%Q ++ replicate 41 3%Q)) 200
   == 2136395073233879 # 562949953421312)%Q.
Proof. repeat split; vm_compute; reflexivity. Qed.

Example benchmark_of_39_and_one :
  benchmark (item_in binary64 table_39_and_one entry_Q1) = Some (fl64 (77 # 100)) /\
  benchmark (item_in exact_rational table_39_and_one entry_Q1) = Some (78 # 100).
Proof. vm_compute. split; reflexivity. Qed.

Example percentage_of_23_of_80 :
  veryLow (item_in binary64 table_23_of_80 entry_Q1) = fl64 (287 # 10) /\
  veryLow (item_in exact_rational table_23_of_80 entry_Q1) = 288 # 10.
Proof. vm_compute. split; reflexivity. Qed.

Example category_average_of_159_and_41 :
  (category_in binary64 table_4_and_3 index_159_and_41 "Input" ≫= cat_average)
  = Some (fl64 (379 # 100)) /\
  (category_in exact_rational table_4_and_3 index_159_and_41 "Input" ≫= cat_average)
  = Some (380 # 100).
Proof. vm_compute. split; reflexivity. Qed.

(** Counterexample to C2 as stated, in binary64.  For seven answers 1 and
    one answer 2 the mean is 1.125 and the item holds the mean 1.12; its
    benchmark is 0.88, which is neither clamp(1.125 - 0.25, 0, 5) = 0.875
    nor clamp(1.12 - 0.25, 0, 5) = 0.87, with or without rounding of the
    subtraction.  For 23 answers 1 among 80 the percentage of the value 1
    is 28.7, where round(100 × 23 / 80, 1) is 28.8.  For the single answer
    7, a valid response, the five percentages sum to 0. *)
Lemma item_score_as_stated_fails :
  (exists m a b : Q,
     snd (item_score_in str_whole parse_decimal binary64 table_seven_and_one entry_Q1) = Some m /\
     average (item_in binary64 table_seven_and_one entry_Q1) = Some a /\
     benchmark (item_in binary64 table_seven_and_one entry_Q1) = Some b /\
     (m == 1125 # 1000)%Q /\ a = fl64 (112 # 100) /\ b = fl64 (88 # 100) /\
     ~ (b == clamp (m - (25 # 100)) 0 5)%Q /\
     ~ (b == clamp (fsub binary64 m (25 # 100)) 0 5)%Q /\
     ~ (b == clamp (a - (25 # 100)) 0 5)%Q /\
     ~ (b == clamp (fsub binary64 a (25 # 100)) 0 5)%Q) /\
  (count_eq (valid_values str_whole parse_decimal table_23_of_80 (py "Q1")) 1 = 23 /\
   length (valid_values str_whole parse_decimal table_23_of_80 (py "Q1")) = 80 /\
   veryLow (item_in binary64 table_23_of_80 entry_Q1) = fl64 (287 # 10) /\
   py_round (100 * 23 / 80) 1 = 288 # 10 /\
   fround binary64 (fdiv binary64 (fmul binary64 100 23) 80) 1 = fl64 (288 # 10) /\
   ~ (fl64 (287 # 10) == fl64 (288 # 10))%Q /\
   ~ (fl64 (287 # 10) == 288 # 10)%Q) /\
  (valid_values str_whole parse_decimal table_7 (py "Q1") = [7]%Q /\
   (distribution_sum (item_in binary64 table_7 entry_Q1) == 0)%Q /\
   ~ (998 # 10 <= distribution_sum (item_in binary64 table_7 entry_Q1))%Q).
Proof.
  split; [|split].
  - eexists _, _, _.
    split; [vm_compute; reflexivity|]. split; [vm_compute; reflexivity|].
    split; [vm_compute; reflexivity|]. split; [vm_compute; reflexivity|].
    split; [vm_compute; reflexivity|]. split; [vm_compute; reflexivity|].
    split; [vm_compute; discriminate|]. split; [vm_compute; discriminate|].
    split; vm_compute; discriminate.
  - split; [vm_compute; reflexivity|]. split; [vm_compute; reflexivity|].
    split; [vm_compute; reflexivity|]. split; [vm_compute; reflexivity|].
    split; [vm_compute; reflexivity|]. split; vm_compute; discriminate.
  - split; [vm_compute; reflexivity|]. split; [vm_compute; reflexivity|].
    vm_compute. intros H. apply H. reflexivity.
Qed.

(** Witness of C3: the Input category of the two items, in binary64. *)
Lemma category_average_labelled_rows_witness :
  exists c : Category,
    category_in binary64 table_two_items index_two_items "Input" = Some c /\
    let qdf := area_rows contains_nocase_ascii index_two_items (py "Input") in
    let visited := concat (rows_labelled qdf <$> sub_labels qdf) in
    sub_name <$> subcategories c = sub_labels qdf /\
    visited ≡ₚ labelled_rows qdf /\
    cat_average c
    = rounded_mean_in binary64
        (item_means_in str_whole parse_decimal binary64 table_two_items visited) /\
    cat_items c
    = (fun row => fst (item_score_in str_whole parse_decimal binary64 table_two_items row))
        <$> visited /\
    Forall (fun sub =>
              sub_items sub
              = (fun row => fst (item_score_in str_whole parse_decimal binary64 table_two_items row))
                  <$> rows_labelled qdf (sub_name sub)
              /\ sub_average sub
                 = rounded_mean_in binary64
                     (item_means_in str_whole parse_decimal binary64 table_two_items
                        (rows_labelled qdf (sub_name sub))))
           (subcategories c).
Proof.
  eexists. split; [vm_compute; reflexivity|].
  apply (category_average_labelled_rows str_whole parse_decimal contains_nocase_ascii
           binary64 table_two_items index_two_items (py "Input")).
  vm_compute. reflexivity.
Defined.

(** Counterexample to C3 as stated, in binary64.  The two items of the
    Input area have the means 5 and 1, so the mean of all item means is 3;
    the category average is 5.00, the mean of the labelled item alone.
    (And for the answers 1, 1, 2 of a single labelled item the category
    average is 1.33, the rounded item mean, not the item mean.) *)
Lemma category_average_as_stated_fails :
  (exists c : Category,
     category_in binary64 table_two_items index_two_items "Input" = Some c /\
     cat_average c = Some (fl64 (500 # 100)) /\
     Forall2 Qeq (item_means_in str_whole parse_decimal binary64 table_two_items
                    (area_rows contains_nocase_ascii index_two_items (py "Input")))
                 [5; 1]%Q /\
     (mean64 [5; 1] == 3)%Q /\
     ~ (fl64 (500 # 100) == 3)%Q) /\
  (exists c : Category,
     category_in binary64 table_112 [entry_Q1] "Input" = Some c /\
     cat_average c = Some (fl64 (133 # 100)) /\
     item_means_in str_whole parse_decimal binary64 table_112
       (area_rows contains_nocase_ascii [entry_Q1] (py "Input"))
     = [fl64 (4 # 3)] /\
     ~ (fl64 (133 # 100) == fl64 (4 # 3))%Q).
Proof.
  split.
  - eexists. split; [vm_compute; reflexivity|]. split; [vm_compute; reflexivity|].
    split; [vm_compute; repeat constructor|].
    split; [vm_compute; reflexivity|vm_compute; discriminate].
  - eexists. split; [vm_compute; reflexivity|]. split; [vm_compute; reflexivity|].
    split; [vm_compute; reflexivity|vm_compute; discriminate].
Qed.

(** Counterexample to C9 as stated: two responses, the shorter first; both
    are retained in the order of the input, not longest first. *)
Lemma preprocess_answer_list_keeps_input_order :
  fst (preprocess_answer_list ascii_lower re_sub_nomatch
         [py "short answer"; py "a considerably longer answer"] ∅)
  = [py "short answer"; py "a considerably longer answer"] /\
  ~ StronglySorted not_longer
      (fst (preprocess_answer_list ascii_lower re_sub_nomatch
              [py "short answer"; py "a considerably longer answer"] ∅)).
Proof.
  split; [vm_compute; reflexivity|].
  intros H. apply StronglySorted_cons in H. destruct H as [H _].
  apply Forall_cons in H. destruct H as [H _].
  vm_compute in H. lia.
Qed.

(** Responses that differ in case and spacing only are one response. *)
Example preprocess_answer_list_case_and_spacing :
  fst (preprocess_answer_list ascii_lower re_sub_nomatch
         [py "Our culture is open"; py "  our  CULTURE is   open "; py "tiny"] ∅)
  = [py "Our culture is open"].
Proof. vm_compute. reflexivity. Qed.

(** The shared set at work on two questions. *)
Example shared_set_example :
  map (blk_answers) 
    (fst (foldl (subjective_step ascii_lower re_sub_nomatch str_whole table_free_text) ([], ∅)
            [mkEntry (py "NO40") (py "Image") (py "주관식") None;
             mkEntry (py "NO41") (py "Strengths") (py "주관식") None]))
  = [[py "We help each other a lot"; py "Decisions are made quickly"];
     [py "Meetings take too long"]].
Proof. vm_compute. reflexivity. Qed.

(** Every cell of a concrete column is a text or missing. *)
Ltac text_cells :=
  repeat (apply List.Forall_cons;
          [first [left; reflexivity | right; eexists; reflexivity]|]);
  apply List.Forall_nil.

(** Witness of C4: the two teams of three rows. *)
Lemma unit_groups_partition_witness :
  (by_unit table_BA).1 = [] /\
  concat ((fun g => rows g.2) <$> (by_unit table_BA).2)
  ≡ₚ List.filter (in_retained_group table_BA (py "DEPT")) (rows table_BA) /\
  (forall i j g1 g2 r,
     (by_unit table_BA).2 !! i = Some g1 -> (by_unit table_BA).2 !! j = Some g2 ->
     r ∈ rows g1.2 -> r ∈ rows g2.2 -> i = j).
Proof.
  apply (unit_groups_partition str_whole table_BA (py "DEPT") None).
  - vm_compute. discriminate.
  - apply (bool_decide_unpack _). vm_compute. exact I.
  - text_cells.
  - exists (respondent 0 "B" "4"). split; [left|vm_compute; reflexivity].
Defined.

(** The boundary of the minimum group size: the team of exactly three rows
    is retained, the team of two rows is dropped, and no warning is shown. *)
Example unit_groups_boundary :
  by_unit table_three_and_two
  = ([], [(py "A", table_of [respondent 1 "A" "5"; respondent 2 "A" "3"; respondent 4 "A" "1"])]).
Proof. vm_compute. reflexivity. Qed.

(** Counterexample to C4 as stated.  With one team of two rows the single
    sub-table returned holds the rows of that team, a team of fewer than
    three rows; and with three rows that have no team, those rows are in no
    sub-table although they belong to no team of fewer than three rows. *)
Lemma unit_groups_as_stated_fails :
  ((by_unit table_two_rows).2 = [(py "전체 조직", table_two_rows)] /\
   respondent 0 "A" "4" ∈ rows table_two_rows /\
   group_size table_two_rows (py "DEPT") (respondent 0 "A" "4") = 2) /\
  ((by_unit table_null_team).2
   = [(py "A", table_of [respondent 0 "A" "4"; respondent 1 "A" "5"; respondent 2 "A" "3"])] /\
   mkRow 3 [CNull; CStr (py "1")] ∈ rows table_null_team /\
   mkRow 3 [CNull; CStr (py "1")]
   ∉ rows (table_of [respondent 0 "A" "4"; respondent 1 "A" "5"; respondent 2 "A" "3"])).
Proof.
  split; (split; [|split]).
  - vm_compute. reflexivity.
  - left.
  - vm_compute. reflexivity.
  - vm_compute. reflexivity.
  - do 3 right. left.
  - intros H. unfold table_of, respondent in H. simpl in H.
    repeat (apply elem_of_cons in H; destruct H as [H|H]; [discriminate H|]).
    apply elem_of_nil in H. exact H.
Qed.

(** Witness of C5: the one numeric code 7 on three rows. *)
Lemma single_team_grouping_witness :
  exists key,
    key ∈ column table_one_code (py "DEPT") /\ cell_eqb key (CNum 7) = true /\
    (forall s, CNum 7 = CStr s -> key = CStr s) /\
    (3 <= len_df (group_of table_one_code (py "DEPT") (CNum 7)) ->
     by_unit table_one_code
     = ([], [(py_str str_whole key, group_of table_one_code (py "DEPT") (CNum 7))])) /\
    (len_df (group_of table_one_code (py "DEPT") (CNum 7)) < 3 ->
     by_unit table_one_code = ([NoValidTeam], whole_organization table_one_code)) /\
    ((forall r, r ∈ rows table_one_code ->
        cell_eqb (cell_of table_one_code (py "DEPT") r) (CNum 7) = true) ->
     group_of table_one_code (py "DEPT") (CNum 7) = table_one_code).
Proof.
  apply (single_team_grouping str_whole table_one_code (py "DEPT") (CNum 7)).
  - vm_compute. discriminate.
  - apply (bool_decide_unpack _). vm_compute. exact I.
  - intros r Hr. right. revert r Hr. apply Forall_forall. repeat constructor.
  - exists (mkRow 0 [CNum 7; CStr (py "4")]). split; [left|reflexivity].
Defined.

(** What the grouper returns for that table: one group named 7. *)
Example single_code_group :
  by_unit table_one_code = ([], [(py "7", table_one_code)]).
Proof. vm_compute. reflexivity. Qed.

(** Counterexample to C5 as stated: the grouping column holds the single
    team name "A" on three rows, and the result is the group "A" with no
    warning, not the "whole organization" group with a warning. *)
Lemma single_team_is_not_fallback :
  by_unit table_one_team = ([], [(py "A", table_one_team)]) /\
  by_unit table_one_team <> ([NoValidTeam], whole_organization table_one_team).
Proof.
  split; [vm_compute; reflexivity|]. vm_compute. discriminate.
Qed.

(** Witness of C6: the keys of the two teams. *)
Lemma unit_group_keys_ascending_witness :
  (retained_labels table_BA (py "DEPT") = [] ->
   (by_unit table_BA).2.*1 = [py "전체 조직"]) /\
  (retained_labels table_BA (py "DEPT") <> [] ->
   (by_unit table_BA).2.*1 = retained_labels table_BA (py "DEPT")) /\
  StronglySorted str_lt (retained_labels table_BA (py "DEPT")) /\
  (forall s, s ∈ retained_labels table_BA (py "DEPT")
             <-> CStr s ∈ column table_BA (py "DEPT")
                 /\ 3 <= len_df (group_of table_BA (py "DEPT") (CStr s))).
Proof.
  apply (unit_group_keys_ascending str_whole table_BA (py "DEPT") None).
  - vm_compute. discriminate.
  - apply (bool_decide_unpack _). vm_compute. exact I.
  - text_cells.
Defined.

(** Counterexample to C6 as stated: the team names are first seen in the
    order B, A, and the keys of the mapping are A, B. *)
Lemma unit_group_keys_not_first_seen :
  unique (text_labels (column table_BA (py "DEPT"))) = [py "B"; py "A"] /\
  (by_unit table_BA).2.*1 = [py "A"; py "B"].
Proof. split; vm_compute; reflexivity. Qed.

(** The record holds the date of its run: the same table and index, run
    on two days, give two records that differ in the report date. *)
Example report_date_is_the_date_of_the_run :
  report_of first_run <> report_of next_day_run /\
  report_date unit (report_of first_run) = mkDate 2025 3 14 /\
  report_date unit (report_of next_day_run) = mkDate 2025 3 15.
Proof.
  split; [|split; reflexivity].
  intros H. apply (f_equal (report_date unit)) in H. vm_compute in H. discriminate H.
Qed.

(** Witness of X1: three Likert labels. *)
Lemma to_num_likert_column_witness :
  length (omap (to_num_cell str_whole parse_decimal) likert_answers) = length likert_answers /\
  Forall on_scale (omap (to_num_cell str_whole parse_decimal) likert_answers).
Proof.
  apply (to_num_likert_column str_whole parse_decimal likert_answers).
  repeat (apply List.Forall_cons; [vm_compute; eexists; reflexivity|]).
  apply List.Forall_nil.
Defined.

(** Witness of X3: the Input category of the two items, all answers 5 and 1. *)
Lemma category_scores_within_scale_witness :
  exists c : Category,
    category_of table_two_items index_two_items "Input" = Some c /\
    score_within_scale (cat_average c) /\
    Forall (fun sub => score_within_scale (sub_average sub)) (subcategories c) /\
    Forall (fun it => score_within_scale (average it)) (cat_items c).
Proof.
  eexists. split; [vm_compute; reflexivity|].
  apply (category_scores_within_scale str_whole parse_decimal contains_nocase_ascii
           table_two_items index_two_items (py "Input")).
  - apply Forall_forall.
    repeat (apply List.Forall_cons;
            [vm_compute; repeat (apply List.Forall_cons; [split; discriminate|]);
             apply List.Forall_nil|]).
    apply List.Forall_nil.
  - vm_compute. reflexivity.
Defined.

(** Witness of X4: the averages 3.4 and 3.8. *)
Lemma grade_monotone_witness :
  grade_rank (_grade (Some (34 # 10))) <= grade_rank (_grade (Some (38 # 10))).
Proof.
  apply (grade_monotone (34 # 10) (38 # 10)). vm_compute. discriminate.
Defined.

(** Witness of X6: the Input category of the two items. *)
Lemma subcategories_structure_witness :
  exists c : Category,
    category_of table_two_items index_two_items "Input" = Some c /\
    title c = py "Input" /\
    NoDup (sub_name <$> subcategories c) /\
    Forall (fun sub => item_count sub = length (sub_items sub) /\ 1 <= item_count sub)
           (subcategories c) /\
    cat_items c = concat (sub_items <$> subcategories c) /\
    length (cat_items c)
    = length (labelled_rows (area_rows contains_nocase_ascii index_two_items (py "Input"))).
Proof.
  eexists. split; [vm_compute; reflexivity|].
  apply (subcategories_structure str_whole parse_decimal contains_nocase_ascii
           table_two_items index_two_items (py "Input")).
  vm_compute. reflexivity.
Defined.

(** Witness of X12: an address with spaces around it. *)
Lemma mask_email_shape_witness :
  mask_email (Some (py " kim.minsu@example.com "))
  = Returns (Some (py "k****u@example.com")).
Proof.
  rewrite (mask_email_shape (py " kim.minsu@example.com ") (py "kim.minsu") (py "example.com"));
    vm_compute; reflexivity.
Defined.

(** The address without a local part: the call raises. *)
Example mask_email_empty_local :
  mask_email (Some (py "@example.com")) = Raises IndexError.
Proof. vm_compute. reflexivity. Qed.

(** A two-character local part keeps its first character only. *)
Example mask_email_short_local :
  mask_email (Some (py "ab@example.com")) = Returns (Some (py "a****@example.com")).
Proof. vm_compute. reflexivity. Qed.

(** Witness of X16: the teams A and B of [table_BA] and a unit whose table
    has a column name twice. *)
Lemma multiple_reports_per_group_witness :
  Forall2 (fun g r =>
             r.1 = g.1 /\
             respondents unit (unit_report unit r.2) = len_df g.2 /\
             is_total_organization unit r.2 = bool_decide (g.1 = py "전체 조직") /\
             (g.1 <> py "전체 조직" -> organization_name unit (unit_report unit r.2) = g.1) /\
             unit_report unit r.2
             = with_names unit
                 (build_report ascii_lower ascii_upper re_sub_nomatch str_whole parse_decimal
                    contains_nocase_ascii unit first_run g.2 [entry_Q1])
                 (organization_name unit (unit_report unit r.2))
                 (dept_name unit (unit_report unit r.2)))
          (reported raises_on_duplicates [entry_Q1] groups_BA_and_duplicate)
          (reports_of_groups groups_BA_and_duplicate) /\
  (forall g, g ∈ reported raises_on_duplicates [entry_Q1] groups_BA_and_duplicate
             <-> g ∈ groups_BA_and_duplicate /\ raises_on_duplicates g.2 [entry_Q1] = false) /\
  reported raises_on_duplicates [entry_Q1] groups_BA_and_duplicate
    `sublist_of` groups_BA_and_duplicate.
Proof.
  apply (multiple_reports_per_group ascii_lower ascii_upper re_sub_nomatch str_whole
           parse_decimal contains_nocase_ascii unit raises_on_duplicates (fun _ => first_run)
           groups_BA_and_duplicate [entry_Q1] (Some (py "Acme")) None).
  apply (bool_decide_unpack _). vm_compute. exact I.
Defined.

(** The unit with the duplicated column name gets no report. *)
Example reports_skip_the_failing_group :
  (reports_of_groups groups_BA_and_duplicate).*1 = [py "A"; py "B"] /\
  groups_BA_and_duplicate.*1 = [py "A"; py "B"; py "C"].
Proof. split; vm_compute; reflexivity. Qed.

(** Witness of X18: the first team has a column name twice, so the name
    comes from the second. *)
Lemma organization_name_of_team_reports_witness :
  get_organization_name_from_reports unit (reports_of_groups groups_sales) = py "Ops".
Proof.
  unfold reports_of_groups.
  rewrite (organization_name_of_team_reports ascii_lower ascii_upper re_sub_nomatch str_whole
             parse_decimal contains_nocase_ascii unit raises_on_duplicates
             (fun _ => first_run) groups_sales [entry_Q1] (Some (py "Acme")) None).
  - vm_compute. reflexivity.
  - apply (bool_decide_unpack _). vm_compute. exact I.
  - repeat (apply List.Forall_cons; [vm_compute; discriminate|]). apply List.Forall_nil.
Defined.

(** Witness of X19: the table of item Q1 against an index of Q1, a row
    without a header and Q9. *)
Lemma validation_matches_scoring_witness :
  let v := validate_df str_whole table_112 headers_Q1_none_Q9 in
  (Forall (fun row => column_found table_112 row = true) index_Q1_none_Q9 -> missing v = []) /\
  Forall2 (fun c row =>
             names_a_column c row ->
             (strip (header_name row) ∈ missing v <-> column_found table_112 row = false))
          headers_Q1_none_Q9 index_Q1_none_Q9 /\
  (missing v = [] ->
   Forall2 (fun c row => names_a_column c row -> column_found table_112 row = true)
           headers_Q1_none_Q9 index_Q1_none_Q9) /\
  (forall name, name ∈ extra v ->
     name ∈ columns table_112 /\
     Forall2 (fun c row => c <> CNull -> strip (header_name row) <> name)
             headers_Q1_none_Q9 index_Q1_none_Q9) /\
  (forall name, name ∈ missing v -> name ∉ extra v) /\
  (forall row, column_found table_112 row = false ->
               average (item_score str_whole parse_decimal table_112 row).1 = None
               /\ (item_score str_whole parse_decimal table_112 row).2 = None).
Proof.
  apply (validation_matches_scoring str_whole parse_decimal table_112 headers_Q1_none_Q9
           index_Q1_none_Q9).
  - repeat (apply List.Forall_cons; [vm_compute; reflexivity|]). apply List.Forall_nil.
  - repeat (apply List.Forall2_cons; [reflexivity|]). apply List.Forall2_nil.
Defined.

(** What that validation reports: Q9 is missing, DEPT is extra, and the
    row without a header is not counted. *)
Example validation_of_table_112 :
  validate_df str_whole table_112 headers_Q1_none_Q9
  = mkValidation [py "Q9"] [py "DEPT"] 2 2.
Proof. vm_compute. reflexivity. Qed.

(** An index whose only row has no header: nothing is reported missing,
    and the lookup of [build_report], which reads the header as "nan",
    finds no column. *)
Example validation_without_header :
  missing (validate_df str_whole table_112 [CNull]) = [] /\
  column_found table_112 entry_without_header = false.
Proof. split; vm_compute; reflexivity. Qed.

(** The masks of some tokens and of a text. *)
Example mask_text_values :
  _mask_token (py "A") = py "＊" /\
  _mask_token (py "김수") = py "김＊" /\
  _mask_token (py "Marketing") = py "M＊＊＊＊＊＊＊g" /\
  mask_text (Some (py "  전략 기획팀  본부 ")) = Some (py "전＊ 기＊팀 본＊").
Proof. repeat split; vm_compute; reflexivity. Qed.

(** A chart of two labels without an index: the Process and Output
    segments start after the last label. *)
Example even_segments_of_two :
  even_segments 2
  = [mkSegment (py "Input") 0 0; mkSegment (py "Process") 1 1; mkSegment (py "Output") 2 1].
Proof. vm_compute. reflexivity. Qed.

(** A team that is called like the whole organisation is flagged as the
    whole organisation although its report counts three of the six rows. *)
Example team_named_like_the_whole :
  (fun r => (r.1, is_total_organization unit r.2, respondents unit (unit_report unit r.2)))
    <$> reports_of_groups [(py "전체 조직", table_one_team); (py "B", table_one_team)]
  = [(py "전체 조직", true, 3); (py "B", false, 3)].
Proof. vm_compute. reflexivity. Qed.

